(** * Loan durable workflow: progress log and callback rendezvous

    A shallow embedding of [loan_demo.py] (the durable workflow), [api.py]
    (the HTTP front: apply / approve) and [fraud_check.py] (the external
    fraud-check simulator), with the properties of the progress log and of
    the callback rendezvous stated and proved over it.

    Conventions of the embedding:
    - Python floats, ints and DynamoDB decimals are rationals ([Q]);
    - a Python dict that travels as JSON is a [gmap string JVal];
    - DynamoDB is a [gmap] from the key [application_id] to an [Item];
    - effects (table writes, clock readings, asynchronous Lambda
      invocations, host checkpoints) are threaded through a state monad
      whose outcomes are return, raise and suspend. *)

From Stdlib Require Import QArith Ascii String.
From stdpp Require Import gmap strings pretty list.

Local Open Scope string_scope.

(** ** JSON values and Python truthiness *)

Inductive JVal :=
| JNull
| JBool (b : bool)
| JNum (q : Q)
| JStr (s : string).

(** A dict with string keys, as carried by JSON bodies and results. *)
Abbreviation Dict := (gmap string JVal).

(** [bool(v)] in Python. *)
Definition truthy (v : JVal) : bool :=
  match v with
  | JNull => false
  | JBool b => b
  | JNum q => negb (Qeq_bool q 0)
  | JStr s => negb (String.eqb s "")
  end.

(** [d.get(k)] followed by a truth test: an absent key gives [None]. *)
Definition truthy_get (d : Dict) (k : string) : bool :=
  match d !! k with
  | Some v => truthy v
  | None => false
  end.

(** Serialised JSON text.  [json.dumps] and [json.loads] are inverse on the
    values used here, so the text is represented by the dict it denotes. *)
Inductive JsonText := Dumped (d : Dict).

Definition json_dumps (d : Dict) : JsonText := Dumped d.
Definition json_loads (t : JsonText) : Dict := match t with Dumped d => d end.

(** ** Exceptions *)

Inductive Exn :=
| ValueError (msg : string)
| ZeroDivisionError (msg : string)
| CallbackError (msg : string)
| ClientError (msg : string)
| KeyError (msg : string)
| AttributeError (msg : string)
| BadRequestError (msg : string)
| NotFoundError (msg : string).

(** [str(error)] *)
Definition exn_str (e : Exn) : string :=
  match e with
  | ValueError m | ZeroDivisionError m | CallbackError m
  | ClientError m | KeyError m | AttributeError m | BadRequestError m
  | NotFoundError m => m
  end.

(** ** The progress table *)

Record LogEntry := {
  timestamp : nat;
  step : string;
  message : string;
  level : string;
}.

(** One DynamoDB item; the key [application_id] is the key of the table.
    An absent attribute is [None]; an absent [logs] list is the empty list
    (the code reads it with [get("logs", [])] and writes it with
    [if_not_exists(logs, [])]). *)
Record Item := {
  i_status : option string;
  i_current_step : option string;
  i_applicant_name : option string;
  i_loan_amount : option Q;
  i_logs : list LogEntry;
  i_result : option Dict;
  i_created_at : option nat;
  i_updated_at : option nat;
  i_callback_id : option string;
}.

Definition empty_item : Item :=
  {| i_status := None; i_current_step := None; i_applicant_name := None;
     i_loan_amount := None; i_logs := []; i_result := None;
     i_created_at := None; i_updated_at := None; i_callback_id := None |}.

Abbreviation Table := (gmap string Item).

(** [table.get_item(Key=...).get("Item")] *)
Definition get_item (key : string) (t : Table) : option Item := t !! key.

(** [table.get_item(Key=...).get("Item", {})] *)
Definition item_at (key : string) (t : Table) : Item := default empty_item (t !! key).

(** [table.update_item]: DynamoDB creates the item when the key is new. *)
Definition update_item (key : string) (f : Item → Item) (t : Table) : Table :=
  <[key := f (item_at key t)]> t.

(** ** Values exchanged between the steps *)

(** The workflow event.  A key the dict may lack is an [option]. *)
Record Event := {
  e_application_id : option string;
  e_applicant_name : option string;
  e_ssn_last4 : option string;
  e_annual_income : option Q;
  e_loan_amount : option Q;
  e_loan_purpose : option string;
  e_address : option string;
  e_phone : option string;
}.

Record Validated := {
  v_application_id : string;
  v_applicant_name : string;
  v_ssn_last4 : string;
  v_annual_income : Q;
  v_loan_amount : Q;
  v_loan_purpose : string;
  v_estimated_dti : Q;
  v_status : string;
  v_validated_at : nat;
}.

Record CreditReport := {
  c_bureau : string;
  c_score : Z;
  c_report_id : string;
  c_derogatory_marks : Z;
  c_open_accounts : Z;
  c_pulled_at : nat;
}.

Record Risk := {
  k_average_score : Q;
  k_min_score : Z;
  k_max_score : Z;
  k_total_derogatory_marks : Z;
  k_risk_tier : string;
  k_base_rate : Q;
  k_decision : string;
}.

Record Offer := {
  o_offer_id : string;
  o_application_id : string;
  o_loan_amount : Q;
  o_annual_rate : Q;
  o_term_months : Z;
  o_monthly_payment : Q;
  o_total_interest : Q;
  o_status : string;
  o_generated_at : nat;
}.

Record Disbursement := {
  d_offer_id : string;
  d_disbursement_ref : string;
  d_amount_disbursed : Q;
  d_status : string;
  d_funded_at : nat;
}.

(** The payload of the asynchronous invocation of the fraud-check Lambda. *)
Record FraudRequest := {
  f_callback_id : string;
  f_application_id : string;
  f_applicant_name : string;
}.

(** ** The orchestration host *)

(** Modelled from the spec: the durable-execution host (the SDK behind
    [context.step], [context.parallel] and [context.wait_for_callback], and
    the service behind [send_durable_execution_callback_success]) is an
    external collaborator, absent from the sources.  Its contract is the one
    of sections 1, 4.3 and 6: a step is checkpointed and not run again on
    replay; parallel branches are checkpointed by input index and their
    results aggregated in input order; a callback is created once, is
    pending until a resume with its id succeeds or its timeout expires, and
    an id that is not pending is refused. *)
Inductive Callback :=
| CbPending (cid : string)
| CbSucceeded (cid : string) (result : JsonText)
| CbTimedOut (cid : string).

Record Journal := {
  j_validate : option (Exn + Validated);
  j_credit : gmap nat CreditReport;
  j_risk : option (Exn + Risk);
  j_manager : option Callback;
  j_fraud : option Callback;
  j_offer : option (Exn + Offer);
  j_disburse : option (Exn + Disbursement);
}.

Definition empty_journal : Journal :=
  {| j_validate := None; j_credit := ∅; j_risk := None; j_manager := None;
     j_fraud := None; j_offer := None; j_disburse := None |}.

Definition set_j_validate (x : Exn + Validated) (j : Journal) : Journal :=
  {| j_validate := Some x; j_credit := j_credit j; j_risk := j_risk j;
     j_manager := j_manager j; j_fraud := j_fraud j; j_offer := j_offer j;
     j_disburse := j_disburse j |}.

Definition set_j_credit (i : nat) (x : CreditReport) (j : Journal) : Journal :=
  {| j_validate := j_validate j; j_credit := <[i := x]> (j_credit j);
     j_risk := j_risk j; j_manager := j_manager j; j_fraud := j_fraud j;
     j_offer := j_offer j; j_disburse := j_disburse j |}.

Definition set_j_risk (x : Exn + Risk) (j : Journal) : Journal :=
  {| j_validate := j_validate j; j_credit := j_credit j; j_risk := Some x;
     j_manager := j_manager j; j_fraud := j_fraud j; j_offer := j_offer j;
     j_disburse := j_disburse j |}.

Definition set_j_manager (x : Callback) (j : Journal) : Journal :=
  {| j_validate := j_validate j; j_credit := j_credit j; j_risk := j_risk j;
     j_manager := Some x; j_fraud := j_fraud j; j_offer := j_offer j;
     j_disburse := j_disburse j |}.

Definition set_j_fraud (x : Callback) (j : Journal) : Journal :=
  {| j_validate := j_validate j; j_credit := j_credit j; j_risk := j_risk j;
     j_manager := j_manager j; j_fraud := Some x; j_offer := j_offer j;
     j_disburse := j_disburse j |}.

Definition set_j_offer (x : Exn + Offer) (j : Journal) : Journal :=
  {| j_validate := j_validate j; j_credit := j_credit j; j_risk := j_risk j;
     j_manager := j_manager j; j_fraud := j_fraud j; j_offer := Some x;
     j_disburse := j_disburse j |}.

Definition set_j_disburse (x : Exn + Disbursement) (j : Journal) : Journal :=
  {| j_validate := j_validate j; j_credit := j_credit j; j_risk := j_risk j;
     j_manager := j_manager j; j_fraud := j_fraud j; j_offer := j_offer j;
     j_disburse := Some x |}.

(** ** The world and the effect monad *)

(** An asynchronous Lambda invocation ([InvocationType="Event"]). *)
Inductive Invocation :=
| InvokeWorkflow (ev : Event)
| InvokeFraudCheck (req : FraudRequest).

Record World := {
  table : Table;
  clock : nat;
  (** the asynchronous invocations issued so far *)
  invoked : list Invocation;
  (** the resume calls the host has accepted so far *)
  resumed : list (string * JsonText);
  journal : Journal;
}.

Definition set_table (f : Table → Table) (w : World) : World :=
  {| table := f (table w); clock := clock w; invoked := invoked w;
     resumed := resumed w; journal := journal w |}.

Definition set_journal (f : Journal → Journal) (w : World) : World :=
  {| table := table w; clock := clock w; invoked := invoked w;
     resumed := resumed w; journal := f (journal w) |}.

Definition add_invoked (i : Invocation) (w : World) : World :=
  {| table := table w; clock := clock w; invoked := invoked w ++ [i];
     resumed := resumed w; journal := journal w |}.

Definition add_resumed (callback_id : string) (result : JsonText) (w : World) : World :=
  {| table := table w; clock := clock w; invoked := invoked w;
     resumed := resumed w ++ [(callback_id, result)]; journal := journal w |}.

Inductive Outcome (A : Type) :=
| Ret (a : A)
| Raise (e : Exn)
| Suspend.
Arguments Ret {A} a.
Arguments Raise {A} e.
Arguments Suspend {A}.

(** A computation over a state [S]: it returns, raises or suspends.  The
    host's suspension signal is not an [Exception], so [try_except] below
    lets it through. *)
Definition M (S A : Type) : Type := S → Outcome A * S.

Definition ret {S A} (a : A) : M S A := λ s, (Ret a, s).
Definition raise {S A} (e : Exn) : M S A := λ s, (Raise e, s).
Definition bind {S A B} (m : M S A) (k : A → M S B) : M S B :=
  λ s, match m s with
       | (Ret a, s') => k a s'
       | (Raise e, s') => (Raise e, s')
       | (Suspend, s') => (Suspend, s')
       end.

#[global] Instance M_ret {S} : MRet (M S) := λ A, ret.
#[global] Instance M_bind {S} : MBind (M S) := λ A B k m, bind m k.

(** [try: body except Exception as error: handler(error)] *)
Definition try_except {S A} (body : M S A) (handler : Exn → M S A) : M S A :=
  λ s, match body s with
       | (Raise e, s') => handler e s'
       | r => r
       end.

Definition modify {S} (f : S → S) : M S unit := λ s, (Ret tt, f s).
Definition gets {S A} (f : S → A) : M S A := λ s, (Ret (f s), s).

(** [datetime.now(timezone.utc)]: reading the clock returns the current
    tick and advances it. *)
Definition now : M World nat :=
  λ w, (Ret (clock w),
        {| table := table w; clock := S (clock w); invoked := invoked w;
           resumed := resumed w; journal := journal w |}).

(** The errors the two AWS calls of [apply] fail with, if they fail. *)
Record Faults := {
  put_item_error : option Exn;
  invoke_error : option Exn;
}.

Definition no_faults : Faults := {| put_item_error := None; invoke_error := None |}.

(** A call to AWS: it raises the error it fails with and has no effect
    then, or it takes effect. *)
Definition aws_call (error : option Exn) (effect : World → World) : M World unit :=
  match error with
  | Some e => raise e
  | None => modify effect
  end.

(** ** Library functions left abstract

    Number formatting, rounding, the MD5-seeded random draws, SHA-256 and
    the host's callback identifiers are not part of the workflow logic;
    they are taken as given. *)
Class Oracles := {
  (** [str(x)] of a number, as interpolated by an f-string *)
  fmt_num : Q → string;
  (** [format(x, ",.0f")] *)
  fmt_money : Q → string;
  (** [round(x, n)] *)
  round_to : nat → Q → Q;
  (** the three [randint] draws of [random.Random(seed)], the seed being
      the MD5 digest of the given text: score, derogatory marks, accounts *)
  seeded_draws : string → Z * Z * Z;
  (** [hashlib.sha256(text.encode()).hexdigest()] *)
  sha256_hex : string → string;
  (** the callback id the host issues for the wait of the given name *)
  new_callback_id : string → string;
}.

(** ** Small string helpers *)

Definition upper_char (c : ascii) : ascii :=
  let n := nat_of_ascii c in
  if (97 <=? n)%nat && (n <=? 122)%nat then ascii_of_nat (n - 32) else c.

(** [s.upper()] on ASCII text *)
Fixpoint upper (s : string) : string :=
  match s with
  | EmptyString => EmptyString
  | String c s' => String (upper_char c) (upper s')
  end.

(** [s[-n:]] *)
Definition last_chars (n : nat) (s : string) : string :=
  String.substring (String.length s - n) n s.

(** [", ".join(l)] *)
Definition join (sep : string) (l : list string) : string := String.concat sep l.

(** [str(l)] of a list of strings, as interpolated by an f-string *)
Definition repr_list (l : list string) : string :=
  "[" ++ join ", " ((λ s, "'" ++ s ++ "'") <$> l) ++ "]".

(** [str(v)] of a JSON value *)
Definition py_str `{Oracles} (v : JVal) : string :=
  match v with
  | JNull => "None"
  | JBool true => "True"
  | JBool false => "False"
  | JNum q => fmt_num q
  | JStr s => s
  end.

(** ** Host primitives *)

Definition suspend {S A} : M S A := λ s, (Suspend, s).

(** [context.step(f)]: the checkpointed result is returned on replay and
    [f] is not run again; a first run is checkpointed, a failure included. *)
Definition durable_step {A} (get : Journal → option (Exn + A))
    (set : Exn + A → Journal → Journal) (f : M World A) : M World A :=
  λ w, match get (journal w) with
       | Some (inr a) => (Ret a, w)
       | Some (inl e) => (Raise e, w)
       | None =>
           match f w with
           | (Ret a, w') => (Ret a, set_journal (set (inr a)) w')
           | (Raise e, w') => (Raise e, set_journal (set (inl e)) w')
           | (Suspend, w') => (Suspend, w')
           end
       end.

Fixpoint for_each {S A} (l : list A) (f : A → M S unit) : M S unit :=
  match l with
  | [] => mret tt
  | x :: l' => f x;; for_each l' f
  end.

(** One branch of a parallel block, checkpointed under its input index. *)
Definition run_branch (branches : list (M World CreditReport)) (i : nat) : M World unit :=
  λ w, match j_credit (journal w) !! i, branches !! i with
       | None, Some branch =>
           match branch w with
           | (Ret r, w') => (Ret tt, set_journal (set_j_credit i r) w')
           | (Raise e, w') => (Raise e, w')
           | (Suspend, w') => (Suspend, w')
           end
       | _, _ => (Ret tt, w)
       end.

(** [context.parallel(branches).get_results()]: the branches that are not
    checkpointed yet complete in an order chosen by the host, those named by
    [sched] first and in that order, then the others; the results are then
    read off the journal by input index. *)
Definition parallel (sched : list nat) (branches : list (M World CreditReport))
    : M World (list CreditReport) :=
  for_each (sched ++ seq 0 (length branches)) (run_branch branches);;
  gets (λ w, omap (λ i, j_credit (journal w) !! i) (seq 0 (length branches))).

(** What [wait_for_callback] hands back: the text the resumer sent, or a
    value the host has already decoded. *)
Inductive CallbackResult :=
| AsText (t : JsonText)
| AsDict (d : Dict).

(** [context.wait_for_callback(submitter, name=...)]: on first arrival the
    host issues a callback id, runs the submitter once with it and
    suspends; on replay the submitter is not run: the wait suspends again
    while the callback is pending, returns the result once a resume has
    succeeded, and raises once the timeout has expired.  The timeout given
    in the configuration is the host's to watch: its expiry is
    [callback_timeout] below. *)
Definition wait_for_callback `{Oracles} (get : Journal → option Callback)
    (set : Callback → Journal → Journal) (submitter : string → M World unit)
    (name : string) : M World CallbackResult :=
  λ w, match get (journal w) with
       | Some (CbSucceeded _ result) => (Ret (AsText result), w)
       | Some (CbTimedOut _) => (Raise (CallbackError "Callback timed out"), w)
       | Some (CbPending _) => (Suspend, w)
       | None =>
           let callback_id := new_callback_id name in
           (submitter callback_id;;
            modify (set_journal (set (CbPending callback_id)));;
            suspend) w
       end.

Definition pending_id (c : option Callback) (cid : string) : bool :=
  match c with
  | Some (CbPending c') => String.eqb c' cid
  | _ => false
  end.

(** [lambda_client.send_durable_execution_callback_success]: the host
    completes the pending callback of that id and refuses any other id. *)
Definition send_durable_execution_callback_success (callback_id : string)
    (result : JsonText) : M World unit :=
  λ w, if pending_id (j_manager (journal w)) callback_id then
         (Ret tt, add_resumed callback_id result
                    (set_journal (set_j_manager (CbSucceeded callback_id result)) w))
       else if pending_id (j_fraud (journal w)) callback_id then
         (Ret tt, add_resumed callback_id result
                    (set_journal (set_j_fraud (CbSucceeded callback_id result)) w))
       else (Raise (ClientError "Callback is not pending"), w).

Definition expire (c : option Callback) : option Callback :=
  match c with
  | Some (CbPending cid) => Some (CbTimedOut cid)
  | _ => c
  end.

(** The host's timer: a pending callback times out. *)
Definition callback_timeout (w : World) : World :=
  set_journal (λ j,
    {| j_validate := j_validate j; j_credit := j_credit j; j_risk := j_risk j;
       j_manager := expire (j_manager j); j_fraud := expire (j_fraud j);
       j_offer := j_offer j; j_disburse := j_disburse j |}) w.

(** * loan_demo.py: the durable workflow *)

Module loan_demo.

(** ** DynamoDB progress logging *)

(** Floats become decimals for DynamoDB; both are rationals here. *)
Definition _convert_floats (obj : Dict) : Dict := obj.

(** The [UpdateExpression] of [log_progress] applied to an item. *)
Definition log_update (log_entry : LogEntry) (status : string)
    (result : option Dict) (it : Item) : Item :=
  {| i_status := Some status;
     i_current_step := Some (step log_entry);
     i_applicant_name := i_applicant_name it;
     i_loan_amount := i_loan_amount it;
     i_logs := i_logs it ++ [log_entry];
     i_result := match result with
                 | Some r => Some (_convert_floats r)
                 | None => i_result it
                 end;
     i_created_at := i_created_at it;
     i_updated_at := Some (timestamp log_entry);
     i_callback_id := i_callback_id it |}.

(** Append a log entry and update status in DynamoDB. *)
Definition log_progress (application_id step message status level : string)
    (result : option Dict) : M World unit :=
  ts ← now;
  let log_entry :=
    {| timestamp := ts; step := step; message := message; level := level |} in
  modify (set_table (update_item application_id (log_update log_entry status result))).

(** ** Hardcoded scenario logic *)

(** Return the predetermined decision based on SIN last 4 digits. *)
Definition get_scenario_decision (ssn_last4 : string) (loan_amount : Q) : string :=
  if String.eqb ssn_last4 "1111" then "approved"
  else if String.eqb ssn_last4 "2222" then "denied"
  else if String.eqb ssn_last4 "3333" then
    (if Qle_bool loan_amount 25000 then "approved" else "denied")
  else "approved".

(** ** Durable steps *)

Definition required_fields (application : Event) : list (string * bool) :=
  [ ("application_id", bool_decide (is_Some (e_application_id application)));
    ("applicant_name", bool_decide (is_Some (e_applicant_name application)));
    ("ssn_last4", bool_decide (is_Some (e_ssn_last4 application)));
    ("annual_income", bool_decide (is_Some (e_annual_income application)));
    ("loan_amount", bool_decide (is_Some (e_loan_amount application)));
    ("loan_purpose", bool_decide (is_Some (e_loan_purpose application))) ].

(** Validate the loan application fields. *)
Definition validate_application `{Oracles} (application : Event) : M World Validated :=
  let missing := fst <$> filter (λ f, snd f = false) (required_fields application) in
  match e_application_id application, e_applicant_name application,
        e_ssn_last4 application, e_annual_income application,
        e_loan_amount application, e_loan_purpose application with
  | Some application_id, Some applicant_name, Some ssn_last4,
    Some income, Some loan_amount, Some loan_purpose =>
      if Qle_bool loan_amount 0 then raise (ValueError "Loan amount must be positive")
      else if Qle_bool income 0 then raise (ValueError "Annual income must be positive")
      else
        let dti_estimate := ((loan_amount * (5 # 100)) / (income / 12))%Q in
        ts ← now;
        mret {| v_application_id := application_id;
                v_applicant_name := applicant_name;
                v_ssn_last4 := ssn_last4;
                v_annual_income := income;
                v_loan_amount := loan_amount;
                v_loan_purpose := loan_purpose;
                v_estimated_dti := round_to 2 dti_estimate;
                v_status := "validated";
                v_validated_at := ts |}
  | _, _, _, _, _, _ =>
      raise (ValueError ("Missing required fields: " ++ repr_list missing))
  end.

(** Pull a credit report from one bureau. *)
Definition pull_credit_report `{Oracles} (bureau ssn_last4 : string) : M World CreditReport :=
  let rng := seeded_draws (bureau ++ "-" ++ ssn_last4) in
  let score := rng.1.1 in
  ts ← now;
  mret {| c_bureau := bureau;
          c_score := score;
          c_report_id :=
            upper (String.substring 0 3 bureau) ++ "-" ++ ssn_last4 ++ "-" ++ pretty score;
          c_derogatory_marks := rng.1.2;
          c_open_accounts := rng.2;
          c_pulled_at := ts |}.

Definition sum_Z (l : list Z) : Z := foldr Z.add 0%Z l.

(** [min(l)] and [max(l)] of a list known to be non-empty *)
Definition min_Z (l : list Z) : Z :=
  match l with [] => 0%Z | x :: l' => foldr Z.min x l' end.
Definition max_Z (l : list Z) : Z :=
  match l with [] => 0%Z | x :: l' => foldr Z.max x l' end.

(** Aggregate credit reports and apply hardcoded scenario override. *)
Definition calculate_risk_score `{Oracles} (credit_reports : list CreditReport)
    (ssn_last4 : string) (loan_amount : Q) : M World Risk :=
  let scores := c_score <$> credit_reports in
  match scores with
  | [] => raise (ZeroDivisionError "division by zero")
  | _ =>
    let avg_score := (inject_Z (sum_Z scores) / inject_Z (Z.of_nat (length scores)))%Q in
    let total_derogatory := sum_Z (c_derogatory_marks <$> credit_reports) in
    let tier_rate :=
      if Qle_bool 740 avg_score && (total_derogatory =? 0)%Z then ("prime", (525 # 100)%Q)
      else if Qle_bool 670 avg_score then ("near-prime", (750 # 100)%Q)
      else if Qle_bool 580 avg_score then ("subprime", (11 # 1)%Q)
      else ("deep-subprime", (15 # 1)%Q) in
    let tier := tier_rate.1 in
    let base_rate := tier_rate.2 in
    let decision := get_scenario_decision ssn_last4 loan_amount in
    mret {| k_average_score := round_to 1 avg_score;
            k_min_score := min_Z scores;
            k_max_score := max_Z scores;
            k_total_derogatory_marks := total_derogatory;
            k_risk_tier := tier;
            k_base_rate := base_rate;
            k_decision := decision |}
  end.

(** Generate the final loan offer with rate and payment terms. *)
Definition generate_loan_offer `{Oracles} (app : Validated) (risk : Risk) : M World Offer :=
  let rate := k_base_rate risk in
  let loan_amount := v_loan_amount app in
  let term_months := 60%Z in
  let monthly_rate := (rate / 100 / 12)%Q in
  let payment :=
    if negb (Qle_bool monthly_rate 0) then
      (loan_amount * (monthly_rate * (1 + monthly_rate) ^ term_months)
       / ((1 + monthly_rate) ^ term_months - 1))%Q
    else (loan_amount / inject_Z term_months)%Q in
  let offer_id :=
    String.substring 0 10
      (sha256_hex ("offer-" ++ v_application_id app ++ "-" ++ fmt_num rate)) in
  ts ← now;
  mret {| o_offer_id := "OFFER-" ++ upper offer_id;
          o_application_id := v_application_id app;
          o_loan_amount := loan_amount;
          o_annual_rate := rate;
          o_term_months := term_months;
          o_monthly_payment := round_to 2 payment;
          o_total_interest := round_to 2 (payment * inject_Z term_months - loan_amount)%Q;
          o_status := "offer_generated";
          o_generated_at := ts |}.

(** Finalize and disburse the loan. *)
Definition disburse_funds (offer : Offer) : M World Disbursement :=
  ts ← now;
  mret {| d_offer_id := o_offer_id offer;
          d_disbursement_ref := "DSB-" ++ last_chars 6 (o_offer_id offer);
          d_amount_disbursed := o_loan_amount offer;
          d_status := "funded";
          d_funded_at := ts |}.

(** ** The request steps *)

(** What the two request steps return. *)
Record Requested := {
  q_application_id : string;
  q_callback_id : string;
  q_status : string;
  q_requested_at : nat;
}.

(** Store callback_id in DynamoDB so the frontend can send the approval
    callback. *)
Definition request_manager_approval (callback_id application_id : string)
    (loan_amount : Q) : M World Requested :=
  modify (set_table (update_item application_id (λ it,
    {| i_status := i_status it; i_current_step := i_current_step it;
       i_applicant_name := i_applicant_name it; i_loan_amount := i_loan_amount it;
       i_logs := i_logs it; i_result := i_result it;
       i_created_at := i_created_at it; i_updated_at := i_updated_at it;
       i_callback_id := Some callback_id |})));;
  ts ← now;
  mret {| q_application_id := application_id; q_callback_id := callback_id;
          q_status := "pending_manager_approval"; q_requested_at := ts |}.

(** Invoke the external fraud check Lambda, passing the callback_id so it
    can resume us. *)
Definition request_fraud_check (callback_id application_id applicant_name : string)
    : M World Requested :=
  modify (add_invoked (InvokeFraudCheck
    {| f_callback_id := callback_id; f_application_id := application_id;
       f_applicant_name := applicant_name |}));;
  ts ← now;
  mret {| q_application_id := application_id; q_callback_id := callback_id;
          q_status := "fraud_check_requested"; q_requested_at := ts |}.

(** ** The durable execution handler *)

(** [collections.Counter] *)
Abbreviation Counter := (gmap string nat).

Definition counter_get (c : Counter) (k : string) : nat := default 0 (c !! k).

Definition counter_of (l : list string) : Counter :=
  foldl (λ c k, <[k := S (counter_get c k)]> c) ∅ l.

(** The state of one invocation: the world and the closure's [call_counts]. *)
Record Inv := {
  world : World;
  call_counts : Counter;
}.

Definition liftW {A} (m : M World A) : M Inv A :=
  λ s, let '(r, w') := m (world s) in
       (r, {| world := w'; call_counts := call_counts s |}).

Definition parse_if_str (r : CallbackResult) : Dict :=
  match r with
  | AsText t => json_loads t
  | AsDict d => d
  end.

Definition bureaus : list string := ["equifax"; "transunion"; "experian"].

Section handler.
Context `{Oracles}.

(** What the closures of [lambda_handler] capture: the host's choice of
    completion order, the event, its [application_id] and the per-step
    counts of the entries found in the table when the invocation began. *)
Variable sched : list nat.
Variable event : Event.
Variable application_id : string.
Variable prior_counts : Counter.

(** The closure [log]: count the call; a call whose ordinal for its step
    is covered by the entries already stored is marked as a replay; either
    way the entry goes to [log_progress]. *)
Definition log (step message status : string) (level : string)
    (result : option Dict) : M Inv unit :=
  λ s,
    let n := S (counter_get (call_counts s) step) in
    let s' := {| world := world s; call_counts := <[step := n]> (call_counts s) |} in
    let replay := (n <=? counter_get prior_counts step)%nat in
    let message := if replay then "[REPLAY] " ++ message else message in
    let level := if replay then "replay" else level in
    liftW (log_progress application_id step message status level result) s'.

(** Store callback_id in DynamoDB so the frontend can send the approval. *)
Definition submit_manager_approval (validated : Validated) (callback_id : string)
    : M World unit :=
  modify (set_table (update_item (v_application_id validated) (λ it,
    {| i_status := i_status it; i_current_step := i_current_step it;
       i_applicant_name := i_applicant_name it; i_loan_amount := i_loan_amount it;
       i_logs := i_logs it; i_result := i_result it;
       i_created_at := i_created_at it; i_updated_at := i_updated_at it;
       i_callback_id := Some callback_id |}))).

(** Invoke the external fraud check Lambda, passing the callback_id. *)
Definition submit_fraud_check (validated : Validated) (callback_id : string)
    : M World unit :=
  modify (add_invoked (InvokeFraudCheck
    {| f_callback_id := callback_id;
       f_application_id := v_application_id validated;
       f_applicant_name := v_applicant_name validated |})).

(** Steps 6: generate the offer, disburse, report the approval. *)
Definition offer_stage (validated : Validated) (risk : Risk) : M Inv Dict :=
  log "generating_offer" "Generating loan offer..." "processing" "info" None;;
  offer ← liftW (durable_step j_offer set_j_offer (generate_loan_offer validated risk));
  log "generating_offer"
      ("Offer " ++ o_offer_id offer ++ ": $" ++ fmt_num (o_monthly_payment offer)
       ++ "/mo at " ++ fmt_num (o_annual_rate offer) ++ "%")
      "processing" "info" None;;
  log "disbursing" "Disbursing funds..." "processing" "info" None;;
  disbursement ← liftW (durable_step j_disburse set_j_disburse (disburse_funds offer));
  let final_result : Dict := list_to_map
    [ ("application_id", JStr (v_application_id validated));
      ("applicant_name", JStr (v_applicant_name validated));
      ("status", JStr "approved");
      ("offer_id", JStr (o_offer_id offer));
      ("loan_amount", JNum (o_loan_amount offer));
      ("annual_rate", JNum (o_annual_rate offer));
      ("monthly_payment", JNum (o_monthly_payment offer));
      ("term_months", JNum (inject_Z (o_term_months offer)));
      ("disbursement_ref", JStr (d_disbursement_ref disbursement)) ] in
  log "complete" "Loan approved and funds disbursed!" "approved" "info"
      (Some final_result);;
  mret final_result.

(** Step 5: the external fraud check, a callback suspension. *)
Definition fraud_stage (validated : Validated) (risk : Risk) : M Inv Dict :=
  log "fraud_check" "Requesting external fraud check service..." "processing" "info" None;;
  fraud_result ← liftW (wait_for_callback j_fraud set_j_fraud
                          (submit_fraud_check validated) "fraud-check");
  let fraud_result := parse_if_str fraud_result in
  log "fraud_check"
      ("Fraud check passed — "
       ++ py_str (default (JStr "external service") (fraud_result !! "checked_by")))
      "processing" "info" None;;
  offer_stage validated risk.

(** Step 4: manager approval, a callback suspension, if >= $100,000. *)
Definition manager_stage (validated : Validated) (risk : Risk) : M Inv Dict :=
  if Qle_bool 100000 (v_loan_amount validated) then
    log "manager_approval"
        ("Manager approval required for loans >= $100,000 (requested: $"
         ++ fmt_money (v_loan_amount validated) ++ ")")
        "pending_approval" "info" None;;
    approval_result ← liftW (wait_for_callback j_manager set_j_manager
                               (submit_manager_approval validated) "manager-approval");
    let approval_result := parse_if_str approval_result in
    if negb (truthy_get approval_result "approved") then
      let final_result : Dict := list_to_map
        [ ("application_id", JStr (v_application_id validated));
          ("applicant_name", JStr (v_applicant_name validated));
          ("status", JStr "denied");
          ("reason", default (JStr "Manager denied the application")
                             (approval_result !! "reason")) ] in
      log "manager_approval" "Application denied by manager" "denied" "warn"
          (Some final_result);;
      mret final_result
    else
      log "manager_approval" "Manager approved the application" "processing" "info" None;;
      fraud_stage validated risk
  else fraud_stage validated risk.

(** The body of the [try] block: steps 1 to 3 and the denied path, then
    the stages above. *)
Definition workflow : M Inv Dict :=
  log "validating" "Validating loan application..." "processing" "info" None;;
  validated ← liftW (durable_step j_validate set_j_validate (validate_application event));
  log "validating" "Application validated successfully" "processing" "info" None;;
  log "credit_check" "Pulling credit reports from 3 bureaus..." "processing" "info" None;;
  credit_reports ← liftW (parallel sched
    ((λ b, pull_credit_report b (v_ssn_last4 validated)) <$> bureaus));
  let scores_str :=
    join ", " ((λ r, c_bureau r ++ "=" ++ pretty (c_score r)) <$> credit_reports) in
  log "credit_check" ("Credit scores received: " ++ scores_str) "processing" "info" None;;
  log "risk_assessment" "Calculating risk score..." "processing" "info" None;;
  risk ← liftW (durable_step j_risk set_j_risk
    (calculate_risk_score credit_reports (v_ssn_last4 validated) (v_loan_amount validated)));
  log "risk_assessment"
      ("Risk tier: " ++ k_risk_tier risk ++ ", avg score: "
       ++ fmt_num (k_average_score risk) ++ ", decision: " ++ k_decision risk)
      "processing" "info" None;;
  if String.eqb (k_decision risk) "denied" then
    let final_result : Dict := list_to_map
      [ ("application_id", JStr (v_application_id validated));
        ("applicant_name", JStr (v_applicant_name validated));
        ("status", JStr "denied");
        ("reason", JStr ("Application denied — risk tier: " ++ k_risk_tier risk
                         ++ ", avg credit score: " ++ fmt_num (k_average_score risk)));
        ("risk_tier", JStr (k_risk_tier risk));
        ("average_score", JNum (k_average_score risk)) ] in
    log "risk_assessment" "Application denied" "denied" "warn" (Some final_result);;
    mret final_result
  else manager_stage validated risk.

(** The [try] block with its [except Exception] clause. *)
Definition guarded_workflow : M Inv Dict :=
  try_except workflow (λ error,
    log "error" ("Workflow error: " ++ exn_str error) "failed" "error" None;;
    raise error).

End handler.

(** Loan approval workflow with DynamoDB progress logging: one invocation
    by the host, with the completion order [sched] it picks for the
    parallel branches. *)
Definition lambda_handler `{Oracles} (sched : list nat) (event : Event) : M World Dict :=
  match e_application_id event with
  | None => raise (KeyError "'application_id'")
  | Some application_id =>
      λ w,
        let existing := item_at application_id (table w) in
        let prior_counts := counter_of (step <$> i_logs existing) in
        let '(r, s) := guarded_workflow sched event application_id prior_counts
                         {| world := w; call_counts := ∅ |} in
        (r, world s)
  end.

End loan_demo.

(** * api.py: the API Lambda *)

Module api.

(** [body.get(key, "").strip()]: only a string has [strip].  [strip] is
    Python's [str.strip], which knows more white space than ASCII has and
    is left abstract; the empty default strips to itself. *)
Definition get_stripped (strip : string → string) (body : Dict) (key : string)
    : M World string :=
  match body !! key with
  | None => mret ""
  | Some (JStr s) => mret (strip s)
  | Some _ => raise (AttributeError "object has no attribute 'strip'")
  end.

(** [float(x)] with its [ValueError] and [TypeError] turned into the 400
    answer; [parse] reads a number out of a string. *)
Definition to_float (parse : string → option Q) (x : option JVal) : M World Q :=
  match x with
  | Some (JNum q) => mret q
  | Some (JBool b) => mret (if b then 1 else 0)%Q
  | Some (JStr s) =>
      match parse s with
      | Some q => mret q
      | None => raise (BadRequestError "loan_amount must be a number")
      end
  | Some JNull | None => raise (BadRequestError "loan_amount must be a number")
  end.

(** POST /apply — Submit a new loan application.  [parse] is [float] on
    strings, [random_suffix] the four characters drawn for the id, and
    [faults] says how [put_item] and [invoke] fail, if they do. *)
Definition apply (strip : string → string) (parse : string → option Q)
    (random_suffix : string) (faults : Faults) (body : Dict) : M World Dict :=
  name ← get_stripped strip body "name";
  address ← get_stripped strip body "address";
  phone ← get_stripped strip body "phone";
  sin ← get_stripped strip body "sin";
  let loan_amount := body !! "loan_amount" in
  if negb (negb (String.eqb name "") && negb (String.eqb sin "")
           && from_option truthy false loan_amount) then
    raise (BadRequestError "Missing required fields: name, sin, loan_amount")
  else
    loan_amount ← to_float parse loan_amount;
    seconds ← now;
    let application_id := "LOAN-" ++ pretty seconds ++ "-" ++ random_suffix in
    ts ← now;
    aws_call (put_item_error faults) (set_table (insert application_id
      {| i_status := Some "submitted";
         i_current_step := Some "submitted";
         i_applicant_name := Some name;
         i_loan_amount := Some loan_amount;
         i_logs := [ {| timestamp := ts; step := "submitted";
                        message := "Application received"; level := "info" |} ];
         i_result := None;
         i_created_at := Some ts;
         i_updated_at := None;
         i_callback_id := None |}));;
    let workflow_event :=
      {| e_application_id := Some application_id;
         e_applicant_name := Some name;
         e_ssn_last4 := Some sin;
         e_annual_income := Some 85000%Q;
         e_loan_amount := Some loan_amount;
         e_loan_purpose := Some "personal_loan";
         e_address := Some address;
         e_phone := Some phone |} in
    aws_call (invoke_error faults) (add_invoked (InvokeWorkflow workflow_event));;
    mret ({[ "application_id" := JStr application_id ]} : Dict).

(** GET /status/{applicationId} — Return current progress. *)
Definition status (applicationId : string) : M World Item :=
  if String.eqb applicationId "" then raise (BadRequestError "Missing applicationId")
  else
    item ← gets (λ w, get_item applicationId (table w));
    match item with
    | None => raise (NotFoundError "Application not found")
    | Some item => mret item
    end.

(** The [REMOVE callback_id] update of [approve]. *)
Definition remove_callback_id (it : Item) : Item :=
  {| i_status := i_status it; i_current_step := i_current_step it;
     i_applicant_name := i_applicant_name it; i_loan_amount := i_loan_amount it;
     i_logs := i_logs it; i_result := i_result it;
     i_created_at := i_created_at it; i_updated_at := i_updated_at it;
     i_callback_id := None |}.

(** POST /approve/{applicationId} — Manager approval sends callback to
    resume workflow. *)
Definition approve (applicationId : string) (body : Dict) : M World Dict :=
  if String.eqb applicationId "" then raise (BadRequestError "Missing applicationId")
  else
    let approved := default (JBool false) (body !! "approved") in
    item ← gets (λ w, get_item applicationId (table w));
    match item with
    | None => raise (NotFoundError "Application not found")
    | Some item =>
        match i_callback_id item with
        | None | Some "" =>
            raise (BadRequestError "No pending approval for this application")
        | Some callback_id =>
            let callback_result : Dict := {[ "approved" := approved ]} in
            let callback_result :=
              if negb (truthy approved) then
                <["reason" := default (JStr "Manager denied the application")
                                      (body !! "reason")]> callback_result
              else callback_result in
            send_durable_execution_callback_success callback_id
              (json_dumps callback_result);;
            modify (set_table (update_item applicationId remove_callback_id));;
            mret (list_to_map [ ("status", JStr "approval_sent");
                                ("approved", approved) ] : Dict)
        end
    end.

End api.

(** * fraud_check.py: the external fraud-check simulator *)

Module fraud_check.

(** Simulate fraud check processing, then send callback to resume workflow. *)
Definition lambda_handler (event : FraudRequest) : M World Dict :=
  let callback_id := f_callback_id event in
  let result : Dict := list_to_map
    [ ("fraud_check", JStr "passed");
      ("risk_indicators", JNum 0);
      ("checked_by", JStr "FraudCheckService-v2") ] in
  send_durable_execution_callback_success callback_id (json_dumps result);;
  mret (list_to_map [ ("status", JStr "callback_sent");
                      ("callback_id", JStr callback_id);
                      ("application_id", JStr (f_application_id event)) ] : Dict).

End fraud_check.

(** * The system around one application *)

Import loan_demo.

(** What can happen to a submitted application: the host invokes the
    workflow on its event (again and again, at least once), somebody posts
    to the approval endpoint, the fraud-check Lambda handles the [n]-th
    asynchronous invocation issued so far, or the host's timer fires.  Each
    Lambda invocation is taken as one atomic transition. *)
Inductive Action :=
| Invoke (sched : list nat)
| Approve (applicationId : string) (body : Dict)
| FraudCheck (n : nat)
| Timeout.

Definition act `{Oracles} (event : Event) (a : Action) (w : World) : World :=
  match a with
  | Invoke sched => (lambda_handler sched event w).2
  | Approve applicationId body => (api.approve applicationId body w).2
  | FraudCheck n =>
      match invoked w !! n with
      | Some (InvokeFraudCheck req) => (fraud_check.lambda_handler req w).2
      | _ => w
      end
  | Timeout => callback_timeout w
  end.

Definition run `{Oracles} (event : Event) (l : list Action) (w : World) : World :=
  foldl (λ w a, act event a w) w l.

(** The callback token stored in the record of an application. *)
Definition token (application_id : string) (w : World) : option string :=
  i_callback_id (item_at application_id (table w)).

(** A world with nothing in it yet. *)
Definition empty_world (ts : nat) : World :=
  {| table := ∅; clock := ts; invoked := []; resumed := []; journal := empty_journal |}.

(** ** Names for what the code computes *)

(** The entry [log] hands to [log_progress], given the counts before the call. *)
Definition marked_entry (prior counts : Counter) (ts : nat)
    (st message level : string) : LogEntry :=
  let n := S (counter_get counts st) in
  let replay := (n <=? counter_get prior st)%nat in
  {| timestamp := ts; step := st;
     message := if replay then "[REPLAY] " ++ message else message;
     level := if replay then "replay" else level |}.

Definition bump (st : string) (counts : Counter) : Counter :=
  <[st := S (counter_get counts st)]> counts.

(** The report [pull_credit_report] builds at clock reading [ts]. *)
Definition report `{Oracles} (bureau ssn_last4 : string) (ts : nat) : CreditReport :=
  let rng := seeded_draws (bureau ++ "-" ++ ssn_last4) in
  {| c_bureau := bureau; c_score := rng.1.1;
     c_report_id :=
       upper (String.substring 0 3 bureau) ++ "-" ++ ssn_last4 ++ "-" ++ pretty rng.1.1;
     c_derogatory_marks := rng.1.2; c_open_accounts := rng.2; c_pulled_at := ts |}.

(** The branches of the credit-bureau fan-out. *)
Definition branches `{Oracles} (ssn_last4 : string) : list (M World CreditReport) :=
  (λ b, pull_credit_report b ssn_last4) <$> bureaus.

(** A world that differs from [w] in its clock and credit checkpoints only. *)
Definition with_credit (ts : nat) (jc : gmap nat CreditReport) (w : World) : World :=
  {| table := table w; clock := ts; invoked := invoked w; resumed := resumed w;
     journal := {| j_validate := j_validate (journal w); j_credit := jc;
                   j_risk := j_risk (journal w); j_manager := j_manager (journal w);
                   j_fraud := j_fraud (journal w); j_offer := j_offer (journal w);
                   j_disburse := j_disburse (journal w) |} |}.

(** Every checkpointed report is one of the bureau at its index. *)
Definition credit_ok `{Oracles} (ssn_last4 : string) (jc : gmap nat CreditReport) : Prop :=
  ∀ i r, jc !! i = Some r → ∃ b ts, bureaus !! i = Some b ∧ r = report b ssn_last4 ts.

Definition loan_event (app name ssn purpose : string) (income amount : Q)
    (addr phone : option string) : Event :=
  {| e_application_id := Some app; e_applicant_name := Some name;
     e_ssn_last4 := Some ssn; e_annual_income := Some income;
     e_loan_amount := Some amount; e_loan_purpose := Some purpose;
     e_address := addr; e_phone := phone |}.

Definition checkpointed (v : Validated) (risk : Risk) (w : World) : Prop :=
  j_validate (journal w) = Some (inr v)
  ∧ j_risk (journal w) = Some (inr risk)
  ∧ ∀ i, i < 3 → is_Some (j_credit (journal w) !! i).

Definition logged_count (st app : string) (w : World) : nat :=
  counter_get (counter_of (step <$> i_logs (item_at app (table w)))) st.

Definition risk_denied_result `{Oracles} (v : Validated) (risk : Risk) : Dict :=
  list_to_map
    [ ("application_id", JStr (v_application_id v));
      ("applicant_name", JStr (v_applicant_name v));
      ("status", JStr "denied");
      ("reason", JStr ("Application denied — risk tier: " ++ k_risk_tier risk
                       ++ ", avg credit score: " ++ fmt_num (k_average_score risk)));
      ("risk_tier", JStr (k_risk_tier risk));
      ("average_score", JNum (k_average_score risk)) ].

Definition manager_denied_result (v : Validated) (reason : JVal) : Dict :=
  list_to_map
    [ ("application_id", JStr (v_application_id v));
      ("applicant_name", JStr (v_applicant_name v));
      ("status", JStr "denied");
      ("reason", reason) ].

Definition fraud_request `{Oracles} (v : Validated) : FraudRequest :=
  {| f_callback_id := new_callback_id "fraud-check";
     f_application_id := v_application_id v;
     f_applicant_name := v_applicant_name v |}.

(** The manager-approval stage lets the workflow through: it is skipped
    below the threshold, and above it the manager's answer is in and is an
    approval. *)
Definition manager_passed (v : Validated) (w : World) : Prop :=
  if Qle_bool 100000 (v_loan_amount v) then
    ∃ cid d, j_manager (journal w) = Some (CbSucceeded cid (json_dumps d))
             ∧ truthy_get d "approved" = true
  else True.

(** The risk record [calculate_risk_score] builds from a non-empty list. *)
Definition risk_of `{Oracles} (credit_reports : list CreditReport)
    (ssn_last4 : string) (loan_amount : Q) : Risk :=
  let scores := c_score <$> credit_reports in
  let avg_score := (inject_Z (sum_Z scores) / inject_Z (Z.of_nat (length scores)))%Q in
  let total_derogatory := sum_Z (c_derogatory_marks <$> credit_reports) in
  let tier_rate :=
    if Qle_bool 740 avg_score && (total_derogatory =? 0)%Z then ("prime", (525 # 100)%Q)
    else if Qle_bool 670 avg_score then ("near-prime", (750 # 100)%Q)
    else if Qle_bool 580 avg_score then ("subprime", (11 # 1)%Q)
    else ("deep-subprime", (15 # 1)%Q) in
  {| k_average_score := round_to 1 avg_score;
     k_min_score := min_Z scores;
     k_max_score := max_Z scores;
     k_total_derogatory_marks := total_derogatory;
     k_risk_tier := tier_rate.1;
     k_base_rate := tier_rate.2;
     k_decision := get_scenario_decision ssn_last4 loan_amount |}.

(** The offer [generate_loan_offer] builds at clock reading [ts]. *)
Definition offer_of `{Oracles} (app : Validated) (risk : Risk) (ts : nat) : Offer :=
  let rate := k_base_rate risk in
  let loan_amount := v_loan_amount app in
  let term_months := 60%Z in
  let monthly_rate := (rate / 100 / 12)%Q in
  let payment :=
    if negb (Qle_bool monthly_rate 0) then
      (loan_amount * (monthly_rate * (1 + monthly_rate) ^ term_months)
       / ((1 + monthly_rate) ^ term_months - 1))%Q
    else (loan_amount / inject_Z term_months)%Q in
  let offer_id :=
    String.substring 0 10
      (sha256_hex ("offer-" ++ v_application_id app ++ "-" ++ fmt_num rate)) in
  {| o_offer_id := "OFFER-" ++ upper offer_id;
     o_application_id := v_application_id app;
     o_loan_amount := loan_amount;
     o_annual_rate := rate;
     o_term_months := term_months;
     o_monthly_payment := round_to 2 payment;
     o_total_interest := round_to 2 (payment * inject_Z term_months - loan_amount)%Q;
     o_status := "offer_generated";
     o_generated_at := ts |}.

(** The record [disburse_funds] builds at clock reading [ts]. *)
Definition disbursement_of (offer : Offer) (ts : nat) : Disbursement :=
  {| d_offer_id := o_offer_id offer;
     d_disbursement_ref := "DSB-" ++ last_chars 6 (o_offer_id offer);
     d_amount_disbursed := o_loan_amount offer;
     d_status := "funded";
     d_funded_at := ts |}.

Definition tick (w : World) : World :=
  {| table := table w; clock := S (clock w); invoked := invoked w;
     resumed := resumed w; journal := journal w |}.

(** The world after a call of [log], given the counts before the call. *)
Definition logged (app : string) (prior counts : Counter)
    (st message level status : string) (result : option Dict) (w : World) : World :=
  {| table := update_item app
       (log_update (marked_entry prior counts (clock w) st message level) status result)
       (table w);
     clock := S (clock w); invoked := invoked w; resumed := resumed w;
     journal := journal w |}.

(** The record [validate_application] builds at clock reading [ts]. *)
Definition validated_of `{Oracles} (app name ssn purpose : string) (income amount : Q)
    (ts : nat) : Validated :=
  {| v_application_id := app; v_applicant_name := name; v_ssn_last4 := ssn;
     v_annual_income := income; v_loan_amount := amount; v_loan_purpose := purpose;
     v_estimated_dti := round_to 2 ((amount * (5 # 100)) / (income / 12))%Q;
     v_status := "validated"; v_validated_at := ts |}.

(** The world after [submit_manager_approval]. *)
Definition with_token (app callback_id : string) (w : World) : World :=
  set_table (update_item app (λ it,
    {| i_status := i_status it; i_current_step := i_current_step it;
       i_applicant_name := i_applicant_name it; i_loan_amount := i_loan_amount it;
       i_logs := i_logs it; i_result := i_result it;
       i_created_at := i_created_at it; i_updated_at := i_updated_at it;
       i_callback_id := Some callback_id |})) w.

(** The payload [approve] sends to the host. *)
Definition approve_payload (body : Dict) : Dict :=
  let approved := default (JBool false) (body !! "approved") in
  if negb (truthy approved) then
    <["reason" := default (JStr "Manager denied the application") (body !! "reason")]>
      ({[ "approved" := approved ]} : Dict)
  else {[ "approved" := approved ]}.

(** The world after the host has accepted a resume of the manager approval
    and [approve] has removed the token. *)
Definition approved_world (app cid : string) (payload : Dict) (w : World) : World :=
  set_table (update_item app api.remove_callback_id)
    (add_resumed cid (json_dumps payload)
       (set_journal (set_j_manager (CbSucceeded cid (json_dumps payload))) w)).

(** The result the fraud-check Lambda sends. *)
Definition fraud_passed : Dict :=
  list_to_map [ ("fraud_check", JStr "passed"); ("risk_indicators", JNum 0);
                ("checked_by", JStr "FraudCheckService-v2") ].

(** No callback of the host is pending. *)
Definition nothing_pending (w : World) : Prop :=
  ∀ cid, pending_id (j_manager (journal w)) cid = false
         ∧ pending_id (j_fraud (journal w)) cid = false.

(** The world after the host has accepted the fraud-check callback. *)
Definition fraud_cleared_world (cid : string) (w : World) : World :=
  add_resumed cid (json_dumps fraud_passed)
    (set_journal (set_j_fraud (CbSucceeded cid (json_dumps fraud_passed))) w).

(** A resume that comes too late is refused and changes nothing: whatever
    is posted to the approval endpoint, whatever the fraud-check Lambda
    sends. *)
Definition late_resume_refused (w : World) : Prop :=
  (∀ app body, ∃ e, api.approve app body w = (Raise e, w))
  ∧ (∀ req, fraud_check.lambda_handler req w
            = (Raise (ClientError "Callback is not pending"), w)).

(** The pending callback of [w] times out: the next invocation of the
    workflow fails with the timeout error, the failure goes to the log at
    level [error] and no resume is accepted any more, neither before nor
    after that invocation. *)
Definition timeout_fails `{Oracles} (sched : list nat) (event : Event) (app : string)
    (w : World) : Prop :=
  let r := lambda_handler sched event (callback_timeout w) in
  r.1 = Raise (CallbackError "Callback timed out")
  ∧ (∃ ts, last (i_logs (item_at app (table r.2)))
           = Some {| timestamp := ts; step := "error";
                     message := "Workflow error: Callback timed out";
                     level := "error" |})
  ∧ i_status (item_at app (table r.2)) = Some "failed"
  ∧ late_resume_refused (callback_timeout w)
  ∧ late_resume_refused r.2.

(** The tiers of [calculate_risk_score] with their base rates. *)
Definition risk_tiers : list (string * Q) :=
  [ ("prime", 525 # 100); ("near-prime", 750 # 100); ("subprime", 11 # 1);
    ("deep-subprime", 15 # 1) ]%Q.

(** The arguments of one call of the closure [log]. *)
Record LogCall := {
  l_step : string;
  l_message : string;
  l_status : string;
  l_level : string;
  l_result : option Dict;
}.

(** The calls of [log] that one invocation makes, one after the other. *)
Definition log_calls (application_id : string) (prior_counts : Counter)
    (calls : list LogCall) : M Inv unit :=
  for_each calls (λ c,
    log application_id prior_counts (l_step c) (l_message c) (l_status c) (l_level c)
        (l_result c)).

(** The world after the calls [calls] of [log]. *)
Fixpoint logged_all (app : string) (prior counts : Counter) (calls : list LogCall)
    (w : World) : World :=
  match calls with
  | [] => w
  | c :: calls' =>
      logged_all app prior (bump (l_step c) counts) calls'
        (logged app prior counts (l_step c) (l_message c) (l_level c) (l_status c)
           (l_result c) w)
  end.

(** The entries the calls [calls] of [log] append, the first at clock
    reading [ts] and with the call counts [counts]. *)
Fixpoint marked_entries (prior counts : Counter) (ts : nat) (calls : list LogCall)
    : list LogEntry :=
  match calls with
  | [] => []
  | c :: calls' =>
      marked_entry prior counts ts (l_step c) (l_message c) (l_level c)
      :: marked_entries prior (bump (l_step c) counts) (S ts) calls'
  end.

(** The number of occurrences of [k] in [l]. *)
Definition occurrences (k : string) (l : list string) : nat :=
  length (filter (λ s, s = k) l).

(** The record [apply] creates. *)
Definition submitted_item (name : string) (loan_amount : Q) (ts : nat) : Item :=
  {| i_status := Some "submitted";
     i_current_step := Some "submitted";
     i_applicant_name := Some name;
     i_loan_amount := Some loan_amount;
     i_logs := [ {| timestamp := ts; step := "submitted";
                    message := "Application received"; level := "info" |} ];
     i_result := None;
     i_created_at := Some ts;
     i_updated_at := None;
     i_callback_id := None |}.

(** [body.get(key, "").strip()] of a body whose field is a string or absent. *)
Definition stripped (strip : string → string) (body : Dict) (key : string) : string :=
  match body !! key with
  | Some (JStr s) => strip s
  | _ => ""
  end.

(** The field is a string or absent. *)
Definition textual (body : Dict) (key : string) : Prop :=
  body !! key = None ∨ ∃ s, body !! key = Some (JStr s).

(** The world once [apply] has read the clock twice and put the record. *)
Definition put_world (application_id name : string) (loan_amount : Q) (w : World)
    : World :=
  set_table (insert application_id (submitted_item name loan_amount (S (clock w))))
    (tick (tick w)).

(** The name of a field the application lacks. *)
Definition absent {A} (name : string) (field : option A) : list string :=
  match field with
  | Some _ => []
  | None => [name]
  end.

(** The required fields the application lacks, in the order in which
    [validate_application] lists them. *)
Definition missing_fields (application : Event) : list string :=
  absent "application_id" (e_application_id application)
  ++ absent "applicant_name" (e_applicant_name application)
  ++ absent "ssn_last4" (e_ssn_last4 application)
  ++ absent "annual_income" (e_annual_income application)
  ++ absent "loan_amount" (e_loan_amount application)
  ++ absent "loan_purpose" (e_loan_purpose application).

(** One invocation, as far as the log goes: the prior counts are read off
    the stored log, as [lambda_handler] does, then the calls are made. *)
Definition log_invocation (application_id : string) (calls : list LogCall)
    (w : World) : World :=
  world (log_calls application_id
           (counter_of (step <$> i_logs (item_at application_id (table w)))) calls
           {| world := w; call_counts := ∅ |}).2.

(** [n] further invocations that make the same calls. *)
Fixpoint log_invocations (application_id : string) (calls : list LogCall) (n : nat)
    (w : World) : World :=
  match n with
  | 0 => w
  | S n' => log_invocation application_id calls (log_invocations application_id calls n' w)
  end.

(** The entries of calls that are all judged replays, the first at clock
    reading [ts]. *)
Fixpoint replay_entries (ts : nat) (calls : list LogCall) : list LogEntry :=
  match calls with
  | [] => []
  | c :: calls' =>
      {| timestamp := ts; step := l_step c; message := "[REPLAY] " ++ l_message c;
         level := "replay" |} :: replay_entries (S ts) calls'
  end.

(** The stored log covers the calls: it holds, for every step, at least as
    many entries as [calls] has calls. *)
Definition covers (app : string) (calls : list LogCall) (w : World) : Prop :=
  ∀ s, (occurrences s (l_step <$> calls)
        <= occurrences s (step <$> i_logs (item_at app (table w))))%nat.

(** What the stages after the risk assessment leave alone: the
    checkpoints of the validation, of the credit reports and of the risk
    assessment. *)
Definition same_checkpoints (w w' : World) : Prop :=
  j_validate (journal w') = j_validate (journal w)
  ∧ j_credit (journal w') = j_credit (journal w)
  ∧ j_risk (journal w') = j_risk (journal w).

(** A computation on the world that leaves the log of the application and
    those checkpoints alone. *)
Definition keeps_log (app : string) {A} (m : M World A) : Prop :=
  ∀ w o w', m w = (o, w') →
    i_logs (item_at app (table w')) = i_logs (item_at app (table w))
    ∧ same_checkpoints w w'.

(** A computation of an invocation that only appends to the log of the
    application and leaves those checkpoints alone. *)
Definition extends_log (app : string) {A} (m : M Inv A) : Prop :=
  ∀ s o s', m s = (o, s') →
    (∃ entries, i_logs (item_at app (table (world s')))
                = (i_logs (item_at app (table (world s))) ++ entries)%list)
    ∧ same_checkpoints (world s) (world s').

(** The message of the second [credit_check] entry. *)
Definition scores_message (credit_reports : list CreditReport) : string :=
  "Credit scores received: "
  ++ join ", " ((λ r, c_bureau r ++ "=" ++ pretty (c_score r)) <$> credit_reports).

(** ** A concrete instance, for examples *)

Definition is_space (c : ascii) : bool :=
  let n := nat_of_ascii c in
  ((9 <=? n)%nat && (n <=? 13)%nat) || ((28 <=? n)%nat && (n <=? 32)%nat).

Fixpoint lstrip (s : string) : string :=
  match s with
  | String c s' => if is_space c then lstrip s' else s
  | EmptyString => EmptyString
  end.

Fixpoint rstrip (s : string) : string :=
  match s with
  | String c s' =>
      let r := rstrip s' in
      if is_space c && String.eqb r "" then "" else String c r
  | EmptyString => EmptyString
  end.

(** [s.strip()] on ASCII text: what the examples pass for [str.strip]. *)
Definition ascii_strip (s : string) : string := rstrip (lstrip s).


Definition demo_oracles : Oracles :=
  {| fmt_num := λ q, pretty (Qnum q) ++ "/" ++ pretty (Zpos (Qden q));
     fmt_money := λ q, pretty (Qnum q / Zpos (Qden q))%Z;
     round_to := λ _ q, q;
     seeded_draws := λ s, (700 + Z.of_nat (String.length s), 1, 5)%Z;
     sha256_hex := λ s, "0123456789abcdef";
     new_callback_id := λ name, "cb-" ++ name |}.

Definition demo_event (ssn_last4 : string) (loan_amount : Q) : Event :=
  {| e_application_id := Some "LOAN-1"; e_applicant_name := Some "Alice";
     e_ssn_last4 := Some ssn_last4; e_annual_income := Some 85000%Q;
     e_loan_amount := Some loan_amount; e_loan_purpose := Some "personal_loan";
     e_address := Some ""; e_phone := Some "" |}.

(** * Properties *)

(** ** The table *)

Lemma item_at_update_eq k f (t : Table) : item_at k (update_item k f t) = f (item_at k t).
Proof. unfold item_at at 1, update_item. by rewrite lookup_insert_eq. Qed.

Lemma item_at_update_ne k k' f (t : Table) :
  k ≠ k' → item_at k' (update_item k f t) = item_at k' t.
Proof. intros Hne. unfold item_at, update_item. by rewrite lookup_insert_ne. Qed.

Lemma lookup_update_eq k f (t : Table) : update_item k f t !! k = Some (f (item_at k t)).
Proof. apply lookup_insert_eq. Qed.

Lemma lookup_update_ne k k' f (t : Table) : k ≠ k' → update_item k f t !! k' = t !! k'.
Proof. intros Hne. by apply lookup_insert_ne. Qed.

(** ** The replay-aware logger *)

Lemma log_run app prior st msg status lvl res w counts :
  log app prior st msg status lvl res {| world := w; call_counts := counts |} =
  (Ret tt,
   {| world :=
        {| table := update_item app
             (log_update (marked_entry prior counts (clock w) st msg lvl) status res)
             (table w);
           clock := S (clock w); invoked := invoked w; resumed := resumed w;
           journal := journal w |};
      call_counts := bump st counts |}).
Proof. reflexivity. Qed.

(** One call of [log]: it appends exactly one entry, marked as a replay
    when its ordinal for its step is covered by the prior counts. *)
Lemma log_appends_marked_entry app prior st msg status lvl res (s : Inv) :
  let r := log app prior st msg status lvl res s in
  let entry := marked_entry prior (call_counts s) (clock (world s)) st msg lvl in
  r.1 = Ret tt
  ∧ i_logs (item_at app (table (world r.2)))
    = (i_logs (item_at app (table (world s))) ++ [entry])%list
  ∧ step entry = st
  ∧ (level entry, message entry)
    = (if (S (counter_get (call_counts s) st) <=? counter_get prior st)%nat
       then ("replay", "[REPLAY] " ++ msg) else (lvl, msg)).
Proof.
  destruct s as [w counts]. rewrite log_run. cbn [fst snd world table call_counts clock].
  split; [done|]. rewrite item_at_update_eq. split; [done|]. split; [done|].
  unfold marked_entry. cbn [level message]. by case_match.
Qed.

(** ** The parallel credit-bureau fan-out *)

Lemma with_credit_id w : with_credit (clock w) (j_credit (journal w)) w = w.
Proof. by destruct w as [? ? ? ? []]. Qed.

Lemma branch_lookup `{Oracles} ssn i b :
  branches ssn !! i = Some b →
  ∃ bureau, bureaus !! i = Some bureau ∧ b = pull_credit_report bureau ssn.
Proof.
  unfold branches. rewrite list_lookup_fmap.
  destruct (bureaus !! i); intros; simplify_eq/=; eauto.
Qed.

(** A branch either is checkpointed already, and nothing happens, or runs
    and is checkpointed under its index. *)
Lemma run_branch_effect `{Oracles} ssn i w :
  ∃ ts jc, run_branch (branches ssn) i w = (Ret tt, with_credit ts jc w)
    ∧ j_credit (journal w) ⊆ jc
    ∧ (i < 3 → is_Some (jc !! i))
    ∧ (credit_ok ssn (j_credit (journal w)) → credit_ok ssn jc).
Proof.
  unfold run_branch.
  destruct (j_credit (journal w) !! i) as [r|] eqn:Hi.
  { exists (clock w), (j_credit (journal w)). rewrite with_credit_id.
    split; [done|]. split; [done|]. split; [by rewrite Hi|done]. }
  destruct (branches ssn !! i) as [b|] eqn:Hb.
  - apply branch_lookup in Hb as (bureau & Hbureau & ->).
    exists (S (clock w)), (<[i := report bureau ssn (clock w)]> (j_credit (journal w))).
    split; [done|]. split; [by apply insert_subseteq|].
    split; [by rewrite lookup_insert_eq|].
    intros Hok j r. rewrite lookup_insert. case_decide; [|by apply Hok].
    intros; simplify_eq. eauto.
  - exists (clock w), (j_credit (journal w)). rewrite with_credit_id.
    split; [done|]. split; [done|]. split; [|done].
    intros Hlt. apply lookup_ge_None in Hb. unfold branches, bureaus in Hb.
    simpl in Hb. lia.
Qed.

Lemma for_each_branches `{Oracles} ssn l w :
  ∃ ts jc, for_each l (run_branch (branches ssn)) w = (Ret tt, with_credit ts jc w)
    ∧ j_credit (journal w) ⊆ jc
    ∧ (∀ i, i ∈ l → i < 3 → is_Some (jc !! i))
    ∧ (credit_ok ssn (j_credit (journal w)) → credit_ok ssn jc).
Proof.
  revert w. induction l as [|i l IH]; intros w.
  { exists (clock w), (j_credit (journal w)). rewrite with_credit_id.
    repeat split; try done. intros i Hi. by apply elem_of_nil in Hi. }
  destruct (run_branch_effect ssn i w) as (ts1 & jc1 & E1 & S1 & D1 & K1).
  destruct (IH (with_credit ts1 jc1 w)) as (ts2 & jc2 & E2 & S2 & D2 & K2).
  exists ts2, jc2. split.
  { cbn [for_each]. unfold mbind, M_bind, bind. by rewrite E1, E2. }
  cbn in S2, K2. split; [by etrans|]. split; [|by auto].
  intros j Hj Hlt. apply elem_of_cons in Hj as [->|Hj]; [|by auto].
  destruct (D1 Hlt) as [r Hr]. exists r. by eapply lookup_weaken.
Qed.

(** The fan-out always returns three reports, read off the journal by
    index; it touches nothing but the clock and the credit checkpoints. *)
Lemma parallel_run `{Oracles} ssn sched w :
  ∃ ts jc r0 r1 r2,
    parallel sched (branches ssn) w = (Ret [r0; r1; r2], with_credit ts jc w)
    ∧ jc !! 0 = Some r0 ∧ jc !! 1 = Some r1 ∧ jc !! 2 = Some r2
    ∧ j_credit (journal w) ⊆ jc
    ∧ (credit_ok ssn (j_credit (journal w)) → credit_ok ssn jc).
Proof.
  destruct (for_each_branches ssn (sched ++ seq 0 3) w) as (ts & jc & E & S & D & K).
  destruct (D 0) as [r0 H0]; [set_solver|lia|].
  destruct (D 1) as [r1 H1]; [set_solver|lia|].
  destruct (D 2) as [r2 H2]; [set_solver|lia|].
  exists ts, jc, r0, r1, r2. split; [|done].
  unfold parallel, mbind, M_bind, bind.
  change (length (branches ssn)) with 3. rewrite E.
  unfold gets. cbn. by rewrite H0, H1, H2.
Qed.

(** Once the three branches are checkpointed, the fan-out is a pure read. *)
Lemma for_each_replay `{Oracles} ssn l w :
  (∀ i, i < 3 → is_Some (j_credit (journal w) !! i)) →
  for_each l (run_branch (branches ssn)) w = (Ret tt, w).
Proof.
  intros Hall. induction l as [|i l IH]; [done|].
  cbn [for_each]. unfold mbind, M_bind, bind.
  assert (run_branch (branches ssn) i w = (Ret tt, w)) as ->; [|done].
  unfold run_branch. destruct (j_credit (journal w) !! i) eqn:Hi; [done|].
  destruct (branches ssn !! i) eqn:Hb; [|done].
  apply lookup_lt_Some in Hb. change (length (branches ssn)) with 3 in Hb.
  destruct (Hall i Hb) as [r Hr]. congruence.
Qed.

(** The fan-out over [equifax, transunion, experian] returns the
    reports in that order whatever order [sched] the branches complete in
    (their pull times [t0], [t1], [t2] follow the completion order, their
    positions do not), and a replay, under any other order [sched'],
    returns the same list and changes nothing. *)
Lemma parallel_results_in_input_order `{Oracles} (sched sched' : list nat)
    (ssn_last4 : string) (w : World) :
  j_credit (journal w) = ∅ →
  ∃ t0 t1 t2 w',
    let fan_out s := parallel s ((λ b, pull_credit_report b ssn_last4) <$> bureaus) in
    let credit_reports :=
      [report "equifax" ssn_last4 t0; report "transunion" ssn_last4 t1;
       report "experian" ssn_last4 t2] in
    fan_out sched w = (Ret credit_reports, w')
    ∧ c_bureau <$> credit_reports = bureaus
    ∧ fan_out sched' w' = (Ret credit_reports, w').
Proof.
  intros Hfresh.
  destruct (parallel_run ssn_last4 sched w) as (ts & jc & r0 & r1 & r2 & E & H0 & H1 & H2 & _ & K).
  assert (credit_ok ssn_last4 jc) as Hok.
  { apply K. rewrite Hfresh. intros i r Hi. by rewrite lookup_empty in Hi. }
  destruct (Hok 0 r0 H0) as (b0 & t0 & Hb0 & ->).
  destruct (Hok 1 r1 H1) as (b1 & t1 & Hb1 & ->).
  destruct (Hok 2 r2 H2) as (b2 & t2 & Hb2 & ->).
  cbn in Hb0, Hb1, Hb2. simplify_eq.
  exists t0, t1, t2, (with_credit ts jc w). cbn zeta.
  split; [exact E|]. split; [done|].
  fold (branches ssn_last4). unfold parallel, mbind, M_bind, bind.
  rewrite for_each_replay.
  - unfold gets. change (length (branches ssn_last4)) with 3. cbn.
    by rewrite H0, H1, H2.
  - intros i Hi. cbn.
    destruct i as [|[|[|i]]]; [by rewrite H0|by rewrite H1|by rewrite H2|lia].
Qed.

(** An instance of the above: a fresh world, the branches completing in the
    order experian, equifax, transunion. *)
Lemma parallel_results_in_input_order_witness :
  ∃ t0 t1 t2 w',
    let fan_out s :=
      parallel s ((λ b, pull_credit_report (H := demo_oracles) b "1111") <$> bureaus) in
    let credit_reports :=
      [report (H := demo_oracles) "equifax" "1111" t0;
       report (H := demo_oracles) "transunion" "1111" t1;
       report (H := demo_oracles) "experian" "1111" t2] in
    fan_out [2; 0; 1] (empty_world 0) = (Ret credit_reports, w')
    ∧ c_bureau <$> credit_reports = bureaus
    ∧ fan_out [0; 1; 2] w' = (Ret credit_reports, w').
Proof.
  exact (parallel_results_in_input_order (H := demo_oracles) [2; 0; 1] [0; 1; 2]
           "1111" (empty_world 0) eq_refl).
Defined.

(** ** Running the handler symbolically *)

(** One equation per primitive, in the shape [(m ≫= k) s = ...], so that a
    run is followed by rewriting at its head and the continuation is left
    untouched. *)

Lemma log_bind {B} app prior st msg status lvl res (k : unit → M Inv B) w counts :
  (log app prior st msg status lvl res ≫= k) {| world := w; call_counts := counts |}
  = k tt {| world := logged app prior counts st msg lvl status res w;
            call_counts := bump st counts |}.
Proof. reflexivity. Qed.

Lemma log_last app prior st msg status lvl res w counts :
  log app prior st msg status lvl res {| world := w; call_counts := counts |}
  = (Ret tt, {| world := logged app prior counts st msg lvl status res w;
                call_counts := bump st counts |}).
Proof. reflexivity. Qed.

Lemma liftW_bind_ret {A B} (m : M World A) (k : A → M Inv B) w counts a w' :
  m w = (Ret a, w') →
  (liftW m ≫= k) {| world := w; call_counts := counts |}
  = k a {| world := w'; call_counts := counts |}.
Proof. intros E. unfold mbind, M_bind, bind, liftW. cbn. by rewrite E. Qed.

Lemma liftW_bind_raise {A B} (m : M World A) (k : A → M Inv B) w counts e w' :
  m w = (Raise e, w') →
  (liftW m ≫= k) {| world := w; call_counts := counts |}
  = (Raise e, {| world := w'; call_counts := counts |}).
Proof. intros E. unfold mbind, M_bind, bind, liftW. cbn. by rewrite E. Qed.

Lemma liftW_bind_suspend {A B} (m : M World A) (k : A → M Inv B) w counts w' :
  m w = (Suspend, w') →
  (liftW m ≫= k) {| world := w; call_counts := counts |}
  = (Suspend, {| world := w'; call_counts := counts |}).
Proof. intros E. unfold mbind, M_bind, bind, liftW. cbn. by rewrite E. Qed.

Lemma durable_step_cached {A} get set (f : M World A) w a :
  get (journal w) = Some (inr a) → durable_step get set f w = (Ret a, w).
Proof. intros E. unfold durable_step. by rewrite E. Qed.

Lemma durable_step_fresh {A} get set (f : M World A) w a w' :
  get (journal w) = None → f w = (Ret a, w') →
  durable_step get set f w = (Ret a, set_journal (set (inr a)) w').
Proof. intros E F. unfold durable_step. by rewrite E, F. Qed.

Lemma durable_step_fresh_raise {A} get set (f : M World A) w e w' :
  get (journal w) = None → f w = (Raise e, w') →
  durable_step get set f w = (Raise e, set_journal (set (inl e)) w').
Proof. intros E F. unfold durable_step. by rewrite E, F. Qed.

Lemma wait_succeeded `{Oracles} get set submitter name w cid result :
  get (journal w) = Some (CbSucceeded cid result) →
  wait_for_callback get set submitter name w = (Ret (AsText result), w).
Proof. intros E. unfold wait_for_callback. by rewrite E. Qed.

Lemma wait_timed_out `{Oracles} get set submitter name w cid :
  get (journal w) = Some (CbTimedOut cid) →
  wait_for_callback get set submitter name w
  = (Raise (CallbackError "Callback timed out"), w).
Proof. intros E. unfold wait_for_callback. by rewrite E. Qed.

Lemma wait_pending `{Oracles} get set submitter name w cid :
  get (journal w) = Some (CbPending cid) →
  wait_for_callback get set submitter name w = (Suspend, w).
Proof. intros E. unfold wait_for_callback. by rewrite E. Qed.

Lemma wait_fresh `{Oracles} get set submitter name w w' :
  get (journal w) = None →
  submitter (new_callback_id name) w = (Ret tt, w') →
  wait_for_callback get set submitter name w
  = (Suspend, set_journal (set (CbPending (new_callback_id name))) w').
Proof.
  intros E F. unfold wait_for_callback. rewrite E.
  unfold mbind, M_bind, bind. by rewrite F.
Qed.

Lemma validate_application_run `{Oracles} app name ssn purpose income amount addr phone w :
  Qle_bool amount 0 = false → Qle_bool income 0 = false →
  validate_application (loan_event app name ssn purpose income amount addr phone) w
  = (Ret (validated_of app name ssn purpose income amount (clock w)), tick w).
Proof. intros Ha Hi. unfold validate_application. cbn. by rewrite Ha, Hi. Qed.

Lemma calculate_risk_score_run `{Oracles} r l ssn amount w :
  calculate_risk_score (r :: l) ssn amount w = (Ret (risk_of (r :: l) ssn amount), w).
Proof. reflexivity. Qed.

Lemma generate_loan_offer_run `{Oracles} v risk w :
  generate_loan_offer v risk w = (Ret (offer_of v risk (clock w)), tick w).
Proof. reflexivity. Qed.

Lemma disburse_funds_run offer w :
  disburse_funds offer w = (Ret (disbursement_of offer (clock w)), tick w).
Proof. reflexivity. Qed.

Lemma decision_risk_of `{Oracles} l ssn amount :
  k_decision (risk_of l ssn amount) = get_scenario_decision ssn amount.
Proof. reflexivity. Qed.

Lemma lambda_handler_run `{Oracles} sched event app w :
  e_application_id event = Some app →
  lambda_handler sched event w
  = let '(r, s) :=
      guarded_workflow sched event app
        (counter_of (step <$> i_logs (item_at app (table w))))
        {| world := w; call_counts := ∅ |} in
    (r, world s).
Proof. intros E. unfold lambda_handler. by rewrite E. Qed.

(** Reduce what a step leaves at the head of the run. *)
Ltac norm_in H :=
  cbv beta iota zeta delta
    [try_except mret M_ret ret raise suspend parse_if_str json_loads json_dumps
     negb world] in H.

Lemma submit_manager_approval_run v cid w :
  submit_manager_approval v cid w = (Ret tt, with_token (v_application_id v) cid w).
Proof. reflexivity. Qed.

Lemma submit_fraud_check_run `{Oracles} v cid w :
  submit_fraud_check v cid w
  = (Ret tt, add_invoked (InvokeFraudCheck
       {| f_callback_id := cid; f_application_id := v_application_id v;
          f_applicant_name := v_applicant_name v |}) w).
Proof. reflexivity. Qed.

Lemma parallel_replay `{Oracles} ssn sched w r0 r1 r2 :
  j_credit (journal w) !! 0 = Some r0 →
  j_credit (journal w) !! 1 = Some r1 →
  j_credit (journal w) !! 2 = Some r2 →
  parallel sched (branches ssn) w = (Ret [r0; r1; r2], w).
Proof.
  intros H0 H1 H2. unfold parallel, mbind, M_bind, bind.
  rewrite for_each_replay.
  - unfold gets. change (length (branches ssn)) with 3. cbn.
    by rewrite H0, H1, H2.
  - intros [|[|[|i]]] Hi; [by rewrite H0|by rewrite H1|by rewrite H2|lia].
Qed.

(** The body of a step function, run on the current world. *)
Ltac run_step_function :=
  first [ apply calculate_risk_score_run
        | apply generate_loan_offer_run
        | apply disburse_funds_run
        | apply validate_application_run; assumption ].

(** The result of the host primitive at the head of the run. *)
Ltac run_primitive :=
  first [ eapply durable_step_cached; reflexivity
        | eapply durable_step_fresh; [reflexivity|run_step_function]
        | eapply wait_succeeded; reflexivity
        | eapply wait_timed_out; reflexivity
        | eapply wait_pending; reflexivity
        | eapply wait_fresh; [reflexivity|apply submit_manager_approval_run]
        | eapply wait_fresh; [reflexivity|apply submit_fraud_check_run]
        | eapply parallel_replay; eassumption ].

Ltac step_in H :=
  first [ rewrite log_bind in H
        | rewrite log_last in H
        | erewrite liftW_bind_ret in H by run_primitive
        | erewrite liftW_bind_raise in H by run_primitive
        | erewrite liftW_bind_suspend in H by run_primitive ].

Ltac exec_in H :=
  repeat first
    [ step_in H
    | progress norm_in H
    | rewrite decision_risk_of in H
    | progress cbn [v_application_id v_applicant_name v_ssn_last4 v_loan_amount
                    validated_of] in H ].

Lemma Qle_bool_false (a b : Q) : (b < a)%Q → Qle_bool a b = false.
Proof.
  intros Hlt. destruct (Qle_bool a b) eqn:E; [|done].
  apply Qle_bool_iff in E. by apply Qlt_not_le in Hlt.
Qed.

Lemma decision_denied ssn amount :
  ssn = "2222" ∨ (ssn = "3333" ∧ (25000 < amount)%Q) →
  get_scenario_decision ssn amount = "denied".
Proof.
  intros [->|[-> Hlt]]; unfold get_scenario_decision; [done|].
  cbn. by rewrite Qle_bool_false.
Qed.

Lemma counter_of_snoc l k : counter_of (l ++ [k]) = bump k (counter_of l).
Proof. unfold counter_of. by rewrite foldl_snoc. Qed.

Lemma counter_get_bump_ne k k' c : k' ≠ k → counter_get (bump k' c) k = counter_get c k.
Proof. intros Hne. unfold counter_get, bump. by rewrite lookup_insert_ne. Qed.

Lemma counter_get_empty k : counter_get ∅ k = 0.
Proof. done. Qed.

(** What each step of a run leaves of the table: rewriting rules for
    reading the item of the application off the final world. *)
Lemma table_tick w : table (tick w) = table w.
Proof. reflexivity. Qed.
Lemma table_set_journal f w : table (set_journal f w) = table w.
Proof. reflexivity. Qed.
Lemma table_with_credit ts jc w : table (with_credit ts jc w) = table w.
Proof. reflexivity. Qed.
Lemma table_add_invoked i w : table (add_invoked i w) = table w.
Proof. reflexivity. Qed.
Lemma table_add_resumed cid r w : table (add_resumed cid r w) = table w.
Proof. reflexivity. Qed.
Lemma table_record t c i r j :
  table {| table := t; clock := c; invoked := i; resumed := r; journal := j |} = t.
Proof. reflexivity. Qed.

Lemma item_logged app prior counts st msg lvl status res w :
  item_at app (table (logged app prior counts st msg lvl status res w))
  = log_update (marked_entry prior counts (clock w) st msg lvl) status res
      (item_at app (table w)).
Proof. unfold logged. cbn [table]. by rewrite item_at_update_eq. Qed.

Lemma status_logged app prior counts st msg lvl status res w :
  i_status (item_at app (table (logged app prior counts st msg lvl status res w)))
  = Some status.
Proof. by rewrite item_logged. Qed.
Lemma current_step_logged app prior counts st msg lvl status res w :
  i_current_step (item_at app (table (logged app prior counts st msg lvl status res w)))
  = Some st.
Proof. by rewrite item_logged. Qed.
Lemma result_logged_some app prior counts st msg lvl status res w :
  i_result (item_at app (table (logged app prior counts st msg lvl status (Some res) w)))
  = Some res.
Proof. by rewrite item_logged. Qed.
Lemma result_logged_none app prior counts st msg lvl status w :
  i_result (item_at app (table (logged app prior counts st msg lvl status None w)))
  = i_result (item_at app (table w)).
Proof. by rewrite item_logged. Qed.
Lemma callback_logged app prior counts st msg lvl status res w :
  i_callback_id (item_at app (table (logged app prior counts st msg lvl status res w)))
  = i_callback_id (item_at app (table w)).
Proof. by rewrite item_logged. Qed.
Lemma logs_logged app prior counts st msg lvl status res w :
  i_logs (item_at app (table (logged app prior counts st msg lvl status res w)))
  = (i_logs (item_at app (table w))
     ++ [marked_entry prior counts (clock w) st msg lvl])%list.
Proof. by rewrite item_logged. Qed.
Lemma lookup_logged_ne app prior counts st msg lvl status res w k :
  app ≠ k →
  table (logged app prior counts st msg lvl status res w) !! k = table w !! k.
Proof. intros. unfold logged. cbn [table]. by rewrite lookup_update_ne. Qed.

Lemma item_with_token app cid w :
  item_at app (table (with_token app cid w))
  = {| i_status := i_status (item_at app (table w));
       i_current_step := i_current_step (item_at app (table w));
       i_applicant_name := i_applicant_name (item_at app (table w));
       i_loan_amount := i_loan_amount (item_at app (table w));
       i_logs := i_logs (item_at app (table w));
       i_result := i_result (item_at app (table w));
       i_created_at := i_created_at (item_at app (table w));
       i_updated_at := i_updated_at (item_at app (table w));
       i_callback_id := Some cid |}.
Proof. unfold with_token, set_table. cbn [table]. by rewrite item_at_update_eq. Qed.

Lemma status_with_token app cid w :
  i_status (item_at app (table (with_token app cid w))) = i_status (item_at app (table w)).
Proof. by rewrite item_with_token. Qed.
Lemma current_step_with_token app cid w :
  i_current_step (item_at app (table (with_token app cid w)))
  = i_current_step (item_at app (table w)).
Proof. by rewrite item_with_token. Qed.
Lemma result_with_token app cid w :
  i_result (item_at app (table (with_token app cid w))) = i_result (item_at app (table w)).
Proof. by rewrite item_with_token. Qed.
Lemma callback_with_token app cid w :
  i_callback_id (item_at app (table (with_token app cid w))) = Some cid.
Proof. by rewrite item_with_token. Qed.
Lemma logs_with_token app cid w :
  i_logs (item_at app (table (with_token app cid w))) = i_logs (item_at app (table w)).
Proof. by rewrite item_with_token. Qed.
Lemma lookup_with_token_ne app cid w k :
  app ≠ k → table (with_token app cid w) !! k = table w !! k.
Proof. intros. unfold with_token, set_table. cbn [table]. by rewrite lookup_update_ne. Qed.

Lemma logged_count_logged k app prior counts st msg lvl status res w :
  st ≠ k →
  logged_count k app (logged app prior counts st msg lvl status res w)
  = logged_count k app w.
Proof.
  intros Hne. unfold logged_count. rewrite logs_logged, fmap_app. cbn [fmap list_fmap].
  by rewrite counter_of_snoc, counter_get_bump_ne.
Qed.
Lemma logged_count_with_token k app cid w :
  logged_count k app (with_token app cid w) = logged_count k app w.
Proof. unfold logged_count. by rewrite logs_with_token. Qed.
Lemma logged_count_tick k app w : logged_count k app (tick w) = logged_count k app w.
Proof. reflexivity. Qed.
Lemma logged_count_set_journal k app f w :
  logged_count k app (set_journal f w) = logged_count k app w.
Proof. reflexivity. Qed.
Lemma logged_count_with_credit k app ts jc w :
  logged_count k app (with_credit ts jc w) = logged_count k app w.
Proof. reflexivity. Qed.
Lemma logged_count_add_invoked k app i w :
  logged_count k app (add_invoked i w) = logged_count k app w.
Proof. reflexivity. Qed.

Create Rewrite HintDb world.
#[local] Hint Rewrite table_tick table_set_journal table_with_credit
  table_add_invoked table_add_resumed table_record
  status_logged current_step_logged result_logged_some result_logged_none
  callback_logged
  status_with_token current_step_with_token result_with_token
  callback_with_token
  logged_count_with_token logged_count_tick logged_count_set_journal
  logged_count_with_credit logged_count_add_invoked : world.

(** Read the item of the application off the final world of a run. *)
Ltac read_world :=
  cbn [fst snd]; unfold token;
  repeat first [ progress autorewrite with world
               | rewrite logged_count_logged by done ].

Ltac other_keys :=
  let k := fresh "k" in let Hk := fresh "Hk" in
  intros k Hk; cbn [fst snd];
  repeat first
    [ progress autorewrite with world
    | rewrite lookup_logged_ne by done
    | rewrite lookup_with_token_ne by done ];
  reflexivity.

(** The entry of the [except] clause, when no entry of step [error] was
    stored before, is the last of the log and is at level [error]. *)
Ltac error_entry Herr :=
  cbn [fst snd]; rewrite logs_logged, last_snoc; unfold marked_entry;
  rewrite ?counter_get_bump_ne by done; rewrite counter_get_empty;
  repeat match goal with p := counter_of _ |- _ => subst p end;
  rewrite ?table_record;
  unfold logged_count in Herr; rewrite ?table_record in Herr; rewrite Herr;
  cbn [Nat.leb]; eexists; reflexivity.

Ltac credits_done :=
  intros [|[|[|?]]] ?; [by eexists..|lia].

Ltac start_run E app :=
  destruct (lambda_handler _ _ _) as [o w'] eqn:E; cbn [fst snd];
  rewrite (lambda_handler_run _ _ app) in E by first [reflexivity|assumption];
  set (prior := counter_of _) in E;
  unfold guarded_workflow, workflow, manager_stage, fraud_stage, offer_stage in E.

(** Replace the fan-out of a first run by its three reports. *)
Ltac first_parallel_in H ssn :=
  lazymatch type of H with
  | context [(liftW (parallel ?sched _) ≫= _) {| world := ?w; call_counts := _ |}] =>
      let P := fresh "P" in
      destruct (parallel_run ssn sched w) as (? & ? & ? & ? & ? & P & ? & ? & ? & _ & _);
      unfold branches in P; erewrite liftW_bind_ret in H by exact P; clear P
  end.


(** Open a world whose journal holds the checkpoints through the risk
    assessment. *)
Ltac open_world event w Happ Hv Hck :=
  destruct w as [t c inv res [jv jc jr jm jf jo jd]];
  destruct Hck as (Hjv & Hjr & Hjc);
  cbn [journal table invoked resumed clock j_validate j_risk j_credit j_manager
       j_fraud j_offer j_disburse] in *;
  destruct (Hjc 0) as [r0 Hr0]; [lia|];
  destruct (Hjc 1) as [r1 Hr1]; [lia|];
  destruct (Hjc 2) as [r2 Hr2]; [lia|];
  subst.

Ltac unfold_results :=
  unfold risk_denied_result, manager_denied_result, fraud_request;
  cbn [v_application_id v_applicant_name v_ssn_last4 v_loan_amount validated_of].

Ltac solve_read := unfold_results; read_world; reflexivity.

(** A first invocation, on a fresh journal and a valid event, runs the
    steps up to the risk decision and then ends denied, or suspends at the
    manager approval (loan amount at least 100000), or suspends at the fraud
    check. *)
Lemma first_run `{Oracles} sched app name ssn purpose income amount addr phone w :
  journal w = empty_journal → (0 < amount)%Q → (0 < income)%Q →
  let r := lambda_handler sched (loan_event app name ssn purpose income amount addr phone) w in
  ∃ v risk,
    checkpointed v risk r.2
    ∧ v_application_id v = app ∧ v_applicant_name v = name
    ∧ v_ssn_last4 v = ssn ∧ v_loan_amount v = amount
    ∧ k_decision risk = get_scenario_decision ssn amount
    ∧ j_offer (journal r.2) = None ∧ j_disburse (journal r.2) = None
    ∧ resumed r.2 = resumed w
    ∧ (∀ k, k ≠ app → table r.2 !! k = table w !! k)
    ∧ logged_count "error" app r.2 = logged_count "error" app w
    ∧ if String.eqb (get_scenario_decision ssn amount) "denied" then
        r.1 = Ret (risk_denied_result v risk)
        ∧ j_manager (journal r.2) = None ∧ j_fraud (journal r.2) = None
        ∧ invoked r.2 = invoked w ∧ token app r.2 = token app w
        ∧ i_status (item_at app (table r.2)) = Some "denied"
        ∧ i_current_step (item_at app (table r.2)) = Some "risk_assessment"
        ∧ i_result (item_at app (table r.2)) = Some (risk_denied_result v risk)
      else if Qle_bool 100000 amount then
        r.1 = Suspend
        ∧ j_manager (journal r.2) = Some (CbPending (new_callback_id "manager-approval"))
        ∧ j_fraud (journal r.2) = None
        ∧ invoked r.2 = invoked w
        ∧ token app r.2 = Some (new_callback_id "manager-approval")
        ∧ i_status (item_at app (table r.2)) = Some "pending_approval"
        ∧ i_current_step (item_at app (table r.2)) = Some "manager_approval"
      else
        r.1 = Suspend
        ∧ j_manager (journal r.2) = None
        ∧ j_fraud (journal r.2) = Some (CbPending (new_callback_id "fraud-check"))
        ∧ invoked r.2 = (invoked w ++ [InvokeFraudCheck (fraud_request v)])%list
        ∧ token app r.2 = token app w
        ∧ i_status (item_at app (table r.2)) = Some "processing"
        ∧ i_current_step (item_at app (table r.2)) = Some "fraud_check".
Proof.
  intros Hj Ha Hi r. subst r.
  destruct w as [t c inv res j]. cbn in Hj. subst j.
  apply Qle_bool_false in Ha, Hi.
  start_run E app.
  exec_in E. first_parallel_in E ssn. exec_in E.
  destruct (get_scenario_decision ssn amount =? "denied") eqn:Hd; exec_in E;
    [|destruct (Qle_bool 100000 amount) eqn:Hth; exec_in E].
  all: injection E as <- <-; eexists _, _.
  all: split; [split; [reflexivity|]; split; [reflexivity|credits_done]|].
  all: do 8 (split; [reflexivity|]).
  all: split; [other_keys|].
  all: split; [solve_read|].
  - split; [unfold_results; reflexivity|]. do 3 (split; [reflexivity|]).
    do 3 (split; [solve_read|]). solve_read.
  - do 4 (split; [reflexivity|]). do 2 (split; [solve_read|]). solve_read.
  - split; [reflexivity|]. do 2 (split; [reflexivity|]).
    split; [unfold_results; reflexivity|]. do 2 (split; [solve_read|]). solve_read.
Qed.

Lemma replay_denied `{Oracles} sched event app v risk w :
  e_application_id event = Some app → v_application_id v = app →
  checkpointed v risk w →
  String.eqb (k_decision risk) "denied" = true →
  let r := lambda_handler sched event w in
  r.1 = Ret (risk_denied_result v risk)
  ∧ journal r.2 = journal w ∧ invoked r.2 = invoked w ∧ resumed r.2 = resumed w
  ∧ token app r.2 = token app w
  ∧ (∀ k, k ≠ app → table r.2 !! k = table w !! k).
Proof.
  intros Happ Hv Hck Hd r. subst r.
  open_world event w Happ Hv Hck.
  start_run E (v_application_id v). exec_in E.
  rewrite Hd in E. exec_in E.
  injection E as <- <-.
  split; [unfold_results; reflexivity|]. do 3 (split; [reflexivity|]).
  split; [solve_read|other_keys].
Qed.

Lemma replay_manager_denied `{Oracles} sched event app v risk cid d w :
  e_application_id event = Some app → v_application_id v = app →
  checkpointed v risk w →
  String.eqb (k_decision risk) "denied" = false →
  Qle_bool 100000 (v_loan_amount v) = true →
  j_manager (journal w) = Some (CbSucceeded cid (json_dumps d)) →
  truthy_get d "approved" = false →
  let r := lambda_handler sched event w in
  let final_result :=
    manager_denied_result v
      (default (JStr "Manager denied the application") (d !! "reason")) in
  r.1 = Ret final_result
  ∧ i_status (item_at app (table r.2)) = Some "denied"
  ∧ i_current_step (item_at app (table r.2)) = Some "manager_approval"
  ∧ i_result (item_at app (table r.2)) = Some final_result
  ∧ journal r.2 = journal w ∧ invoked r.2 = invoked w ∧ resumed r.2 = resumed w
  ∧ token app r.2 = token app w
  ∧ (∀ k, k ≠ app → table r.2 !! k = table w !! k).
Proof.
  intros Happ Hv Hck Hd Hth Hjm Hno r final_result. subst r final_result.
  open_world event w Happ Hv Hck.
  start_run E (v_application_id v). exec_in E.
  rewrite Hd in E. exec_in E. rewrite Hth in E. exec_in E.
  rewrite Hno in E. exec_in E.
  injection E as <- <-.
  split; [unfold_results; reflexivity|]. do 3 (split; [solve_read|]).
  do 3 (split; [reflexivity|]).
  split; [solve_read|other_keys].
Qed.

Lemma replay_manager_timeout `{Oracles} sched event app v risk cid w :
  e_application_id event = Some app → v_application_id v = app →
  checkpointed v risk w →
  String.eqb (k_decision risk) "denied" = false →
  Qle_bool 100000 (v_loan_amount v) = true →
  j_manager (journal w) = Some (CbTimedOut cid) →
  logged_count "error" app w = 0 →
  let r := lambda_handler sched event w in
  r.1 = Raise (CallbackError "Callback timed out")
  ∧ (∃ ts, last (i_logs (item_at app (table r.2)))
           = Some {| timestamp := ts; step := "error";
                     message := "Workflow error: Callback timed out";
                     level := "error" |})
  ∧ i_status (item_at app (table r.2)) = Some "failed"
  ∧ journal r.2 = journal w ∧ invoked r.2 = invoked w ∧ resumed r.2 = resumed w
  ∧ token app r.2 = token app w
  ∧ (∀ k, k ≠ app → table r.2 !! k = table w !! k).
Proof.
  intros Happ Hv Hck Hd Hth Hjm Herr r. subst r.
  open_world event w Happ Hv Hck.
  start_run E (v_application_id v). exec_in E.
  rewrite Hd in E. exec_in E. rewrite Hth in E. exec_in E.
  injection E as <- <-.
  split; [reflexivity|]. split; [error_entry Herr|].
  split; [solve_read|]. do 3 (split; [reflexivity|]).
  split; [solve_read|other_keys].
Qed.

(** Run the manager-approval stage of a replay that it lets through. *)
Ltac pass_manager Hpass Hth E :=
  unfold manager_passed in Hpass; cbn [journal j_manager] in Hpass;
  destruct (Qle_bool 100000 _) eqn:Hth;
  [ destruct Hpass as (mcid & md & Hjm & Hyes); subst; exec_in E;
    rewrite Hyes in E; exec_in E
  | exec_in E ].

Lemma replay_fraud_fresh `{Oracles} sched event app v risk w :
  e_application_id event = Some app → v_application_id v = app →
  checkpointed v risk w →
  String.eqb (k_decision risk) "denied" = false →
  manager_passed v w →
  j_fraud (journal w) = None →
  let r := lambda_handler sched event w in
  r.1 = Suspend
  ∧ j_fraud (journal r.2) = Some (CbPending (new_callback_id "fraud-check"))
  ∧ j_manager (journal r.2) = j_manager (journal w)
  ∧ invoked r.2 = (invoked w ++ [InvokeFraudCheck (fraud_request v)])%list
  ∧ i_status (item_at app (table r.2)) = Some "processing"
  ∧ i_current_step (item_at app (table r.2)) = Some "fraud_check"
  ∧ checkpointed v risk r.2
  ∧ j_offer (journal r.2) = j_offer (journal w)
  ∧ j_disburse (journal r.2) = j_disburse (journal w)
  ∧ logged_count "error" app r.2 = logged_count "error" app w
  ∧ resumed r.2 = resumed w
  ∧ token app r.2 = token app w
  ∧ (∀ k, k ≠ app → table r.2 !! k = table w !! k).
Proof.
  intros Happ Hv Hck Hd Hpass Hjf r. subst r.
  open_world event w Happ Hv Hck.
  start_run E (v_application_id v). exec_in E.
  rewrite Hd in E. exec_in E.
  pass_manager Hpass Hth E; injection E as <- <-.
  all: split; [reflexivity|]; do 2 (split; [reflexivity|]).
  all: split; [unfold_results; reflexivity|].
  all: do 2 (split; [solve_read|]).
  all: split; [by repeat split|].
  all: do 2 (split; [reflexivity|]).
  all: split; [solve_read|]; split; [reflexivity|].
  all: split; [solve_read|other_keys].
Qed.

Lemma replay_fraud_timeout `{Oracles} sched event app v risk cid w :
  e_application_id event = Some app → v_application_id v = app →
  checkpointed v risk w →
  String.eqb (k_decision risk) "denied" = false →
  manager_passed v w →
  j_fraud (journal w) = Some (CbTimedOut cid) →
  logged_count "error" app w = 0 →
  let r := lambda_handler sched event w in
  r.1 = Raise (CallbackError "Callback timed out")
  ∧ (∃ ts, last (i_logs (item_at app (table r.2)))
           = Some {| timestamp := ts; step := "error";
                     message := "Workflow error: Callback timed out";
                     level := "error" |})
  ∧ i_status (item_at app (table r.2)) = Some "failed"
  ∧ journal r.2 = journal w ∧ invoked r.2 = invoked w ∧ resumed r.2 = resumed w
  ∧ token app r.2 = token app w
  ∧ (∀ k, k ≠ app → table r.2 !! k = table w !! k).
Proof.
  intros Happ Hv Hck Hd Hpass Hjf Herr r. subst r.
  open_world event w Happ Hv Hck.
  start_run E (v_application_id v). exec_in E.
  rewrite Hd in E. exec_in E.
  pass_manager Hpass Hth E; injection E as <- <-.
  all: split; [reflexivity|]; (split; [error_entry Herr|]).
  all: split; [solve_read|]; do 3 (split; [reflexivity|]).
  all: split; [solve_read|other_keys].
Qed.

Lemma replay_fraud_done `{Oracles} sched event app v risk cid text w :
  e_application_id event = Some app → v_application_id v = app →
  checkpointed v risk w →
  String.eqb (k_decision risk) "denied" = false →
  manager_passed v w →
  j_fraud (journal w) = Some (CbSucceeded cid text) →
  j_offer (journal w) = None → j_disburse (journal w) = None →
  let r := lambda_handler sched event w in
  ∃ final_result offer_id,
    r.1 = Ret final_result
    ∧ final_result !! "status" = Some (JStr "approved")
    ∧ final_result !! "offer_id" = Some (JStr offer_id)
    ∧ i_status (item_at app (table r.2)) = Some "approved"
    ∧ i_current_step (item_at app (table r.2)) = Some "complete"
    ∧ i_result (item_at app (table r.2)) = Some final_result
    ∧ j_manager (journal r.2) = j_manager (journal w)
    ∧ j_fraud (journal r.2) = j_fraud (journal w)
    ∧ invoked r.2 = invoked w ∧ resumed r.2 = resumed w
    ∧ token app r.2 = token app w
    ∧ (∀ k, k ≠ app → table r.2 !! k = table w !! k).
Proof.
  intros Happ Hv Hck Hd Hpass Hjf Hjo Hjd r. subst r.
  open_world event w Happ Hv Hck.
  start_run E (v_application_id v). exec_in E.
  rewrite Hd in E. exec_in E.
  pass_manager Hpass Hth E; injection E as <- <-.
  all: eexists _, _; split; [reflexivity|].
  all: do 2 (split; [done|]).
  all: do 3 (split; [solve_read|]).
  all: do 4 (split; [reflexivity|]).
  all: split; [solve_read|other_keys].
Qed.

Lemma token_lookup app cid w :
  token app w = Some cid →
  ∃ item, get_item app (table w) = Some item ∧ i_callback_id item = Some cid.
Proof.
  unfold token, item_at, get_item.
  destruct (table w !! app) as [item|]; [eauto|done].
Qed.

Lemma pending_id_refl cid : pending_id (Some (CbPending cid)) cid = true.
Proof. apply String.eqb_refl. Qed.

Lemma approve_pending app body cid w :
  app ≠ "" → cid ≠ "" → token app w = Some cid →
  j_manager (journal w) = Some (CbPending cid) →
  api.approve app body w
  = (Ret (list_to_map [ ("status", JStr "approval_sent");
                        ("approved", default (JBool false) (body !! "approved")) ]),
     approved_world app cid (approve_payload body) w).
Proof.
  intros Happ Hcid Htok Hjm.
  destruct (token_lookup _ _ _ Htok) as (item & Hitem & Hcb).
  apply String.eqb_neq in Happ.
  unfold api.approve. rewrite Happ.
  unfold mbind, M_bind, bind, gets. rewrite Hitem, Hcb.
  destruct cid as [|a cid']; [done|].
  fold (approve_payload body).
  unfold send_durable_execution_callback_success.
  rewrite Hjm, pending_id_refl. reflexivity.
Qed.

Lemma approve_refused app body w :
  (∀ cid, token app w = Some cid → cid ≠ "" →
          pending_id (j_manager (journal w)) cid = false
          ∧ pending_id (j_fraud (journal w)) cid = false) →
  ∃ e, api.approve app body w = (Raise e, w).
Proof.
  intros Hno. unfold api.approve.
  destruct (String.eqb app "") eqn:Happ; [by eexists|].
  unfold mbind, M_bind, bind, gets, token, item_at, get_item in *.
  destruct (table w !! app) as [item|]; [|by eexists].
  cbn [default from_option id] in Hno.
  destruct (i_callback_id item) as [[|a cid]|]; [by eexists| |by eexists].
  destruct (Hno _ eq_refl) as [Hm Hf]; [done|].
  unfold send_durable_execution_callback_success.
  rewrite Hm, Hf. by eexists.
Qed.

Lemma fraud_callback_accepted req w :
  pending_id (j_manager (journal w)) (f_callback_id req) = false →
  j_fraud (journal w) = Some (CbPending (f_callback_id req)) →
  fraud_check.lambda_handler req w
  = (Ret (list_to_map [ ("status", JStr "callback_sent");
                        ("callback_id", JStr (f_callback_id req));
                        ("application_id", JStr (f_application_id req)) ]),
     add_resumed (f_callback_id req) (json_dumps fraud_passed)
       (set_journal (set_j_fraud (CbSucceeded (f_callback_id req) (json_dumps fraud_passed))) w)).
Proof.
  intros Hm Hf. unfold fraud_check.lambda_handler, mbind, M_bind, bind.
  unfold send_durable_execution_callback_success.
  rewrite Hm, Hf, pending_id_refl. reflexivity.
Qed.

Lemma fraud_callback_refused req w :
  nothing_pending w →
  fraud_check.lambda_handler req w = (Raise (ClientError "Callback is not pending"), w).
Proof.
  intros Hno. destruct (Hno (f_callback_id req)) as [Hm Hf].
  unfold fraud_check.lambda_handler, mbind, M_bind, bind.
  unfold send_durable_execution_callback_success.
  rewrite Hm, Hf. reflexivity.
Qed.

(** ** The approval endpoint and the fraud-check Lambda *)

Lemma token_approved_world app cid payload w :
  token app (approved_world app cid payload w) = None.
Proof. unfold token, approved_world, set_table. cbn [table]. by rewrite item_at_update_eq. Qed.

Lemma logged_count_approved_world st app cid payload w :
  logged_count st app (approved_world app cid payload w) = logged_count st app w.
Proof.
  unfold logged_count, approved_world, set_table. cbn [table].
  by rewrite item_at_update_eq.
Qed.

Lemma lookup_approved_world_ne app cid payload w k :
  k ≠ app → table (approved_world app cid payload w) !! k = table w !! k.
Proof. intros Hk. unfold approved_world, set_table. cbn [table]. by rewrite lookup_update_ne. Qed.

Lemma approve_without_token app body w :
  token app w = None ∨ token app w = Some "" →
  ∃ e, api.approve app body w = (Raise e, w).
Proof.
  intros Hno. apply approve_refused. intros cid Hcid Hne.
  destruct Hno as [Hno|Hno]; rewrite Hno in Hcid; by simplify_eq.
Qed.

Lemma approve_again app body cid payload w :
  app ≠ "" →
  api.approve app body (approved_world app cid payload w)
  = (Raise (BadRequestError "No pending approval for this application"),
     approved_world app cid payload w).
Proof.
  intros Happ. apply String.eqb_neq in Happ.
  unfold api.approve. rewrite Happ.
  unfold mbind, M_bind, bind, gets, get_item, approved_world, set_table.
  cbn [table]. by rewrite lookup_update_eq.
Qed.

Lemma nothing_pending_refuses app body w :
  nothing_pending w → ∃ e, api.approve app body w = (Raise e, w).
Proof. intros Hno. apply approve_refused. intros cid _ _. apply Hno. Qed.

(** ** The paths of the workflow *)

Lemma eqb_approved_denied : String.eqb "approved" "denied" = false.
Proof. reflexivity. Qed.

Lemma eqb_denied_denied : String.eqb "denied" "denied" = true.
Proof. reflexivity. Qed.

Lemma Qle_bool_true (a b : Q) : (a <= b)%Q → Qle_bool a b = true.
Proof. apply Qle_bool_iff. Qed.

(** X1: [approve] on a record that stores the token of the pending manager
    approval returns, hands the host one resume with the payload, and
    removes the token from the record; posting again is then answered with
    the 400 error and changes nothing, as is any post for a record that
    stores no token (or an empty one). *)
Theorem resume_consumes_token_once app body body' cid w :
  app ≠ "" → cid ≠ "" → token app w = Some cid →
  j_manager (journal w) = Some (CbPending cid) →
  let r1 := api.approve app body w in
  let r2 := api.approve app body' r1.2 in
  (∃ response, r1.1 = Ret response)
  ∧ resumed r1.2 = (resumed w ++ [(cid, json_dumps (approve_payload body))])%list
  ∧ j_manager (journal r1.2) = Some (CbSucceeded cid (json_dumps (approve_payload body)))
  ∧ token app r1.2 = None
  ∧ r2 = (Raise (BadRequestError "No pending approval for this application"), r1.2)
  ∧ ∀ app' body'' w',
      token app' w' = None ∨ token app' w' = Some "" →
      ∃ e, api.approve app' body'' w' = (Raise e, w').
Proof.
  intros Happ Hcid Htok Hjm r1 r2. subst r2 r1.
  rewrite (approve_pending app body cid w) by done. cbn [fst snd].
  split; [by eexists|]. do 2 (split; [reflexivity|]).
  split; [apply token_approved_world|].
  split; [by apply approve_again|].
  intros app' body'' w'. apply approve_without_token.
Qed.

Lemma risk_denied_status `{Oracles} v risk :
  risk_denied_result v risk !! "status" = Some (JStr "denied").
Proof. reflexivity. Qed.

Lemma manager_denied_status v reason :
  manager_denied_result v reason !! "status" = Some (JStr "denied").
Proof. reflexivity. Qed.

Lemma manager_denied_reason v reason :
  manager_denied_result v reason !! "reason" = Some reason.
Proof. reflexivity. Qed.

(** X4: an application with [ssn_last4] 2222, or with 3333 and a loan
    amount above 25000, and with positive amount and income, is denied at
    the risk assessment by its first invocation: the handler returns the
    denial, stores it as the result of the record with status [denied], and
    no callback is created, no Lambda invoked, no token stored.  A replay
    returns the same result and leaves the journal as it is. *)
Theorem denied_at_risk_assessment `{Oracles} sched sched' app name ssn purpose
    income amount addr phone w :
  journal w = empty_journal → (0 < amount)%Q → (0 < income)%Q →
  ssn = "2222" ∨ (ssn = "3333" ∧ (25000 < amount)%Q) →
  let event := loan_event app name ssn purpose income amount addr phone in
  let r := lambda_handler sched event w in
  let r' := lambda_handler sched' event r.2 in
  ∃ final_result,
    r.1 = Ret final_result
    ∧ final_result !! "status" = Some (JStr "denied")
    ∧ i_status (item_at app (table r.2)) = Some "denied"
    ∧ i_current_step (item_at app (table r.2)) = Some "risk_assessment"
    ∧ i_result (item_at app (table r.2)) = Some final_result
    ∧ j_manager (journal r.2) = None ∧ j_fraud (journal r.2) = None
    ∧ j_offer (journal r.2) = None ∧ j_disburse (journal r.2) = None
    ∧ invoked r.2 = invoked w ∧ token app r.2 = token app w
    ∧ r'.1 = Ret final_result
    ∧ journal r'.2 = journal r.2
    ∧ invoked r'.2 = invoked w ∧ token app r'.2 = token app w.
Proof.
  intros Hj Ha Hi Hssn event r r'.
  pose proof (first_run sched app name ssn purpose income amount addr phone w Hj Ha Hi) as F.
  cbv zeta in F. fold event in F. fold r in F.
  destruct F as (v & risk & Hck & Hv & _ & _ & _ & Hdec & Hjo & Hjd & _ & _ & _ & F).
  rewrite (decision_denied _ _ Hssn) in F, Hdec. rewrite eqb_denied_denied in F.
  destruct F as (Hr & Hjm & Hjf & Hinv & Htok & Hst & Hcs & Hres).
  assert (Hd : String.eqb (k_decision risk) "denied" = true) by by rewrite Hdec.
  pose proof (replay_denied sched' event app v risk r.2 eq_refl Hv Hck Hd) as R.
  cbv zeta in R. fold r' in R.
  destruct R as (Hr' & Hj' & Hinv' & _ & Htok' & _).
  exists (risk_denied_result v risk).
  split; [done|]. split; [apply risk_denied_status|].
  do 9 (split; [done|]). split; [done|]. split; [done|].
  split; [by rewrite Hinv'|by rewrite Htok'].
Qed.

Lemma fraud_cleared_facts cid w :
  let w' := fraud_cleared_world cid w in
  journal w' = set_j_fraud (CbSucceeded cid (json_dumps fraud_passed)) (journal w)
  ∧ table w' = table w ∧ invoked w' = invoked w.
Proof. done. Qed.

(** A first invocation of an approved application of at least 100000
    suspends at the manager approval; the answer posted to the approval
    endpoint is accepted and leaves the world ready for a replay. *)
Lemma manager_round `{Oracles} sched app name ssn purpose income amount addr phone body w :
  journal w = empty_journal → (0 < amount)%Q → (0 < income)%Q →
  (100000 <= amount)%Q →
  get_scenario_decision ssn amount = "approved" →
  app ≠ "" → new_callback_id "manager-approval" ≠ "" →
  let event := loan_event app name ssn purpose income amount addr phone in
  let r1 := lambda_handler sched event w in
  let cid := new_callback_id "manager-approval" in
  ∃ v risk,
    r1.1 = Suspend
    ∧ j_manager (journal r1.2) = Some (CbPending cid)
    ∧ j_fraud (journal r1.2) = None
    ∧ invoked r1.2 = invoked w
    ∧ token app r1.2 = Some cid
    ∧ i_status (item_at app (table r1.2)) = Some "pending_approval"
    ∧ logged_count "error" app r1.2 = logged_count "error" app w
    ∧ checkpointed v risk r1.2
    ∧ v_application_id v = app ∧ v_loan_amount v = amount
    ∧ String.eqb (k_decision risk) "denied" = false
    ∧ j_offer (journal r1.2) = None ∧ j_disburse (journal r1.2) = None
    ∧ resumed r1.2 = resumed w
    ∧ api.approve app body r1.2
      = (Ret (list_to_map [ ("status", JStr "approval_sent");
                            ("approved", default (JBool false) (body !! "approved")) ]),
         approved_world app cid (approve_payload body) r1.2).
Proof.
  intros Hj Ha Hi Hth Hdec Happ Hcid event r1 cid.
  pose proof (first_run sched app name ssn purpose income amount addr phone w Hj Ha Hi) as F.
  cbv zeta in F. fold event in F. fold r1 in F.
  destruct F as (v & risk & Hck & Hv & _ & _ & Hamt & Hk & Hjo & Hjd & Hres & _ & Herr & F).
  rewrite Hdec in F, Hk. rewrite eqb_approved_denied in F.
  rewrite (Qle_bool_true _ _ Hth) in F.
  destruct F as (Hr & Hjm & Hjf & Hinv & Htok & Hst & _).
  exists v, risk. do 7 (split; [done|]). split; [done|]. do 2 (split; [done|]).
  split; [by rewrite Hk|]. do 3 (split; [done|]).
  by apply approve_pending.
Qed.

Lemma manager_passed_intro v cid d w :
  j_manager (journal w) = Some (CbSucceeded cid (json_dumps d)) →
  truthy_get d "approved" = true → manager_passed v w.
Proof. intros Hjm Hd. unfold manager_passed. case_match; eauto. Qed.

Lemma manager_passed_skip v w :
  Qle_bool 100000 (v_loan_amount v) = false → manager_passed v w.
Proof. intros Hth. unfold manager_passed. by rewrite Hth. Qed.

Lemma payload_denied body :
  truthy_get body "approved" = false →
  truthy_get (approve_payload body) "approved" = false
  ∧ approve_payload body !! "reason"
    = Some (default (JStr "Manager denied the application") (body !! "reason")).
Proof.
  unfold truthy_get, approve_payload. intros Hno.
  destruct (body !! "approved") as [a|]; cbn [default from_option id];
    [rewrite Hno|]; cbn [negb truthy];
    (split; [rewrite lookup_insert_ne by done|by rewrite lookup_insert_eq]);
    by rewrite lookup_singleton_eq.
Qed.

Lemma payload_approved body :
  truthy_get body "approved" = true →
  truthy_get (approve_payload body) "approved" = true.
Proof.
  unfold truthy_get, approve_payload. intros Hyes.
  destruct (body !! "approved") as [a|]; [|done]. cbn [default from_option id].
  rewrite Hyes. cbn [negb]. by rewrite lookup_singleton_eq.
Qed.

(** The replay after the manager's answer: denied with the reason of the
    payload when the answer is not an approval. *)
Lemma manager_denial `{Oracles} sched sched' app name ssn purpose income amount addr phone
    body w :
  journal w = empty_journal → (0 < amount)%Q → (0 < income)%Q →
  (100000 <= amount)%Q →
  get_scenario_decision ssn amount = "approved" →
  app ≠ "" → new_callback_id "manager-approval" ≠ "" →
  truthy_get body "approved" = false →
  let event := loan_event app name ssn purpose income amount addr phone in
  let r1 := lambda_handler sched event w in
  let r2 := api.approve app body r1.2 in
  let r3 := lambda_handler sched' event r2.2 in
  let reason := default (JStr "Manager denied the application") (body !! "reason") in
  r1.1 = Suspend
  ∧ j_manager (journal r1.2) = Some (CbPending (new_callback_id "manager-approval"))
  ∧ resumed r2.2
    = (resumed w ++ [(new_callback_id "manager-approval",
                      json_dumps (approve_payload body))])%list
  ∧ ∃ final_result,
      r3.1 = Ret final_result
      ∧ final_result !! "status" = Some (JStr "denied")
      ∧ final_result !! "reason" = Some reason
      ∧ i_status (item_at app (table r3.2)) = Some "denied"
      ∧ i_result (item_at app (table r3.2)) = Some final_result
      ∧ j_fraud (journal r3.2) = None
      ∧ invoked r3.2 = invoked w.
Proof.
  intros Hj Ha Hi Hth Hdec Happ Hcid Hno event r1 r2 r3 reason.
  pose proof (manager_round sched app name ssn purpose income amount addr phone body w
                Hj Ha Hi Hth Hdec Happ Hcid) as F.
  cbv zeta in F. fold event in F. fold r1 in F.
  destruct F as (v & risk & Hr1 & Hjm & Hjf & Hinv & _ & _ & _ & Hck & Hv & Hamt & Hd
                 & _ & _ & Hres & Hr2).
  fold r2 in Hr2.
  destruct (payload_denied body Hno) as [Hpno Hreason].
  assert (Hth' : Qle_bool 100000 (v_loan_amount v) = true)
    by (rewrite Hamt; by apply Qle_bool_true).
  pose proof (replay_manager_denied sched' event app v risk
                (new_callback_id "manager-approval") (approve_payload body) r2.2
                eq_refl Hv) as R.
  rewrite Hr2 in R. cbn [snd] in R.
  specialize (R Hck Hd Hth' eq_refl Hpno). cbv zeta in R.
  replace (approved_world _ _ _ _) with r2.2 in R by by rewrite Hr2.
  fold r3 in R. rewrite Hreason in R. cbn [default from_option id] in R. fold reason in R.
  destruct R as (Hr3 & Hst & _ & Hresult & Hj3 & Hinv3 & _).
  do 2 (split; [done|]). split; [by rewrite Hr2, <- Hres|].
  exists (manager_denied_result v reason).
  split; [done|]. split; [apply manager_denied_status|].
  split; [apply manager_denied_reason|]. do 2 (split; [done|]).
  split; [by rewrite Hj3, Hr2|]. by rewrite Hinv3, Hr2.
Qed.

(** The replay after the manager's approval goes on to the fraud check and
    suspends there. *)
Lemma manager_approval `{Oracles} sched sched' app name ssn purpose income amount addr phone
    body w :
  journal w = empty_journal → (0 < amount)%Q → (0 < income)%Q →
  (100000 <= amount)%Q →
  get_scenario_decision ssn amount = "approved" →
  app ≠ "" → new_callback_id "manager-approval" ≠ "" →
  truthy_get body "approved" = true →
  let event := loan_event app name ssn purpose income amount addr phone in
  let r1 := lambda_handler sched event w in
  let r2 := api.approve app body r1.2 in
  let r3 := lambda_handler sched' event r2.2 in
  ∃ v risk,
    r3.1 = Suspend
    ∧ j_fraud (journal r3.2) = Some (CbPending (new_callback_id "fraud-check"))
    ∧ (∃ cid d, j_manager (journal r3.2) = Some (CbSucceeded cid (json_dumps d))
                ∧ truthy_get d "approved" = true)
    ∧ invoked r3.2 = (invoked w ++ [InvokeFraudCheck (fraud_request v)])%list
    ∧ i_status (item_at app (table r3.2)) = Some "processing"
    ∧ i_current_step (item_at app (table r3.2)) = Some "fraud_check"
    ∧ token app r3.2 = None
    ∧ checkpointed v risk r3.2
    ∧ v_application_id v = app ∧ v_loan_amount v = amount
    ∧ String.eqb (k_decision risk) "denied" = false
    ∧ j_offer (journal r3.2) = None ∧ j_disburse (journal r3.2) = None
    ∧ logged_count "error" app r3.2 = logged_count "error" app w.
Proof.
  intros Hj Ha Hi Hth Hdec Happ Hcid Hyes event r1 r2 r3.
  pose proof (manager_round sched app name ssn purpose income amount addr phone body w
                Hj Ha Hi Hth Hdec Happ Hcid) as F.
  cbv zeta in F. fold event in F. fold r1 in F.
  destruct F as (v & risk & Hr1 & Hjm & Hjf & Hinv & _ & _ & Herr & Hck & Hv & Hamt & Hd
                 & Hjo & Hjd & Hres & Hr2).
  fold r2 in Hr2.
  pose proof (payload_approved body Hyes) as Hpyes.
  pose proof (replay_fraud_fresh sched' event app v risk r2.2 eq_refl Hv) as R.
  rewrite Hr2 in R. cbn [snd] in R.
  assert (Hpass : manager_passed v
            (approved_world app (new_callback_id "manager-approval")
               (approve_payload body) r1.2))
    by (eapply manager_passed_intro; [reflexivity|done]).
  specialize (R Hck Hd Hpass Hjf). cbv zeta in R.
  replace (approved_world _ _ _ _) with r2.2 in R by by rewrite Hr2.
  fold r3 in R.
  destruct R as (Hr3 & Hjf3 & Hjm3 & Hinv3 & Hst & Hcs & Hck3 & Hjo3 & Hjd3 & Herr3 & _
                 & Htok3 & _).
  exists v, risk. do 2 (split; [done|]).
  split; [rewrite Hjm3, Hr2; by eexists _, _|].
  split; [by rewrite Hinv3, Hr2, <- Hinv|]. do 2 (split; [done|]).
  split; [rewrite Htok3, Hr2; apply token_approved_world|].
  do 4 (split; [done|]).
  split; [by rewrite Hjo3, Hr2|]. split; [by rewrite Hjd3, Hr2|].
  rewrite Herr3, Hr2. cbn [snd]. by rewrite logged_count_approved_world.
Qed.

(** X5: the workflow suspended at the manager approval, once the approval
    endpoint has been posted [approved: false] with a reason, ends denied
    on its next invocation, with that reason in the result it returns and
    stores; posted [approved: true], it goes on to the fraud check and
    suspends there. *)
Theorem manager_answer_decides `{Oracles} sched sched' app name ssn purpose income amount
    addr phone (reason : JVal) (no yes : Dict) w :
  journal w = empty_journal → (0 < amount)%Q → (0 < income)%Q →
  (100000 <= amount)%Q →
  get_scenario_decision ssn amount = "approved" →
  app ≠ "" → new_callback_id "manager-approval" ≠ "" →
  no !! "approved" = Some (JBool false) → no !! "reason" = Some reason →
  yes !! "approved" = Some (JBool true) →
  let event := loan_event app name ssn purpose income amount addr phone in
  let suspended := lambda_handler sched event w in
  let denied := lambda_handler sched' event (api.approve app no suspended.2).2 in
  let approved := lambda_handler sched' event (api.approve app yes suspended.2).2 in
  suspended.1 = Suspend
  ∧ j_manager (journal suspended.2) = Some (CbPending (new_callback_id "manager-approval"))
  ∧ (∃ final_result,
       denied.1 = Ret final_result
       ∧ final_result !! "status" = Some (JStr "denied")
       ∧ final_result !! "reason" = Some reason
       ∧ i_status (item_at app (table denied.2)) = Some "denied"
       ∧ i_result (item_at app (table denied.2)) = Some final_result
       ∧ j_fraud (journal denied.2) = None)
  ∧ approved.1 = Suspend
  ∧ j_fraud (journal approved.2) = Some (CbPending (new_callback_id "fraud-check"))
  ∧ i_current_step (item_at app (table approved.2)) = Some "fraud_check"
  ∧ i_status (item_at app (table approved.2)) = Some "processing".
Proof.
  intros Hj Ha Hi Hth Hdec Happ Hcid Hno Hreason Hyes event suspended denied approved.
  assert (Hno' : truthy_get no "approved" = false) by (unfold truthy_get; by rewrite Hno).
  assert (Hyes' : truthy_get yes "approved" = true) by (unfold truthy_get; by rewrite Hyes).
  pose proof (manager_denial sched sched' app name ssn purpose income amount addr phone
                no w Hj Ha Hi Hth Hdec Happ Hcid Hno') as D.
  cbv zeta in D. fold event in D. fold suspended in D. fold denied in D.
  rewrite Hreason in D. cbn [default from_option id] in D.
  destruct D as (Hs & Hjm & _ & fr & Hd & Hst & Hr & Hist & Hres & Hjf & _).
  pose proof (manager_approval sched sched' app name ssn purpose income amount addr phone
                yes w Hj Ha Hi Hth Hdec Happ Hcid Hyes') as A.
  cbv zeta in A. fold event in A. fold suspended in A. fold approved in A.
  destruct A as (v & risk & Ha3 & Hjf3 & _ & _ & Hst3 & Hcs3 & _).
  do 2 (split; [done|]). split; [by exists fr|]. done.
Qed.

(** X6: a post to the approval endpoint without the [approved] field is a
    denial: the payload sent is [approved: false] with the reason of the
    body or, without one, ["Manager denied the application"], and the next
    invocation of the workflow ends denied with that reason. *)
Theorem approval_defaults_to_denial `{Oracles} sched sched' app name ssn purpose income
    amount addr phone (body : Dict) w :
  journal w = empty_journal → (0 < amount)%Q → (0 < income)%Q →
  (100000 <= amount)%Q →
  get_scenario_decision ssn amount = "approved" →
  app ≠ "" → new_callback_id "manager-approval" ≠ "" →
  body !! "approved" = None →
  let event := loan_event app name ssn purpose income amount addr phone in
  let suspended := lambda_handler sched event w in
  let answered := api.approve app body suspended.2 in
  let replayed := lambda_handler sched' event answered.2 in
  let reason := default (JStr "Manager denied the application") (body !! "reason") in
  let payload : Dict := <["reason" := reason]> {[ "approved" := JBool false ]} in
  suspended.1 = Suspend
  ∧ resumed answered.2
    = (resumed w ++ [(new_callback_id "manager-approval", json_dumps payload)])%list
  ∧ ∃ final_result,
      replayed.1 = Ret final_result
      ∧ final_result !! "status" = Some (JStr "denied")
      ∧ final_result !! "reason" = Some reason
      ∧ i_status (item_at app (table replayed.2)) = Some "denied"
      ∧ i_result (item_at app (table replayed.2)) = Some final_result.
Proof.
  intros Hj Ha Hi Hth Hdec Happ Hcid Hno event suspended answered replayed reason payload.
  assert (Hno' : truthy_get body "approved" = false) by (unfold truthy_get; by rewrite Hno).
  pose proof (manager_denial sched sched' app name ssn purpose income amount addr phone
                body w Hj Ha Hi Hth Hdec Happ Hcid Hno') as D.
  cbv zeta in D. fold event in D. fold suspended in D. fold answered in D.
  fold replayed in D. fold reason in D.
  destruct D as (Hs & _ & Hres & fr & Hd & Hst & Hr & Hist & Hresult & _).
  split; [done|].
  split; [rewrite Hres; unfold approve_payload; by rewrite Hno|].
  by exists fr.
Qed.

Lemma pending_id_expire c cid : pending_id (expire c) cid = false.
Proof. by destruct c as [[]|]. Qed.

Lemma nothing_pending_timeout w : nothing_pending (callback_timeout w).
Proof. intros cid. split; apply pending_id_expire. Qed.

Lemma nothing_pending_journal w w' :
  journal w' = journal w → nothing_pending w → nothing_pending w'.
Proof. unfold nothing_pending. by intros ->. Qed.

Lemma late_resume_refused_intro w : nothing_pending w → late_resume_refused w.
Proof.
  intros Hno. split.
  - intros app body. by apply nothing_pending_refuses.
  - intros req. by apply fraud_callback_refused.
Qed.

Lemma manager_passed_timeout v w : manager_passed v w → manager_passed v (callback_timeout w).
Proof.
  unfold manager_passed. case_match; [|done].
  intros (cid & d & Hjm & Hd). exists cid, d. split; [|done].
  cbn. by rewrite Hjm.
Qed.

(** The timeout of a suspension at the manager approval. *)
Lemma manager_timeout_fails `{Oracles} sched event app v risk cid w :
  e_application_id event = Some app → v_application_id v = app →
  checkpointed v risk w →
  String.eqb (k_decision risk) "denied" = false →
  Qle_bool 100000 (v_loan_amount v) = true →
  j_manager (journal w) = Some (CbPending cid) →
  logged_count "error" app w = 0 →
  timeout_fails sched event app w.
Proof.
  intros Happ Hv Hck Hd Hth Hjm Herr.
  assert (Hjm' : j_manager (journal (callback_timeout w)) = Some (CbTimedOut cid))
    by (cbn; by rewrite Hjm).
  pose proof (replay_manager_timeout sched event app v risk cid (callback_timeout w)
                Happ Hv Hck Hd Hth Hjm' Herr) as R.
  cbv zeta in R. destruct R as (Hr & Hlast & Hst & Hj & _).
  unfold timeout_fails. cbv zeta. do 3 (split; [done|]).
  split; apply late_resume_refused_intro.
  - apply nothing_pending_timeout.
  - eapply nothing_pending_journal; [exact Hj|apply nothing_pending_timeout].
Qed.

(** The timeout of a suspension at the fraud check. *)
Lemma fraud_timeout_fails `{Oracles} sched event app v risk cid w :
  e_application_id event = Some app → v_application_id v = app →
  checkpointed v risk w →
  String.eqb (k_decision risk) "denied" = false →
  manager_passed v w →
  j_fraud (journal w) = Some (CbPending cid) →
  logged_count "error" app w = 0 →
  timeout_fails sched event app w.
Proof.
  intros Happ Hv Hck Hd Hpass Hjf Herr.
  assert (Hjf' : j_fraud (journal (callback_timeout w)) = Some (CbTimedOut cid))
    by (cbn; by rewrite Hjf).
  pose proof (replay_fraud_timeout sched event app v risk cid (callback_timeout w)
                Happ Hv Hck Hd (manager_passed_timeout _ _ Hpass) Hjf' Herr) as R.
  cbv zeta in R. destruct R as (Hr & Hlast & Hst & Hj & _).
  unfold timeout_fails. cbv zeta. do 3 (split; [done|]).
  split; apply late_resume_refused_intro.
  - apply nothing_pending_timeout.
  - eapply nothing_pending_journal; [exact Hj|apply nothing_pending_timeout].
Qed.

(** X7: when the pending callback of a suspended workflow times out (at
    the manager approval, at the fraud check reached without it, at the
    fraud check reached after an approval), the next invocation raises the
    timeout error, the [except] clause logs it at level [error] with status
    [failed], and from the timeout on every post to the approval endpoint
    and every send of the fraud-check Lambda is refused and changes
    nothing. *)
Theorem callback_timeout_fails_workflow `{Oracles} sched sched' sched'' app name ssn
    purpose income amount addr phone (yes : Dict) w :
  journal w = empty_journal → (0 < amount)%Q → (0 < income)%Q →
  get_scenario_decision ssn amount = "approved" →
  logged_count "error" app w = 0 →
  app ≠ "" → new_callback_id "manager-approval" ≠ "" →
  truthy_get yes "approved" = true →
  let event := loan_event app name ssn purpose income amount addr phone in
  let first := lambda_handler sched event w in
  let second := lambda_handler sched' event (api.approve app yes first.2).2 in
  first.1 = Suspend
  ∧ timeout_fails sched' event app first.2
  ∧ ((100000 <= amount)%Q →
     second.1 = Suspend ∧ timeout_fails sched'' event app second.2).
Proof.
  intros Hj Ha Hi Hdec Herr Happ Hcid Hyes event first second.
  pose proof (first_run sched app name ssn purpose income amount addr phone w Hj Ha Hi) as F.
  cbv zeta in F. fold event in F. fold first in F.
  destruct F as (v & risk & Hck & Hv & _ & _ & Hamt & Hk & _ & _ & _ & _ & Herr1 & F).
  rewrite Hdec in F, Hk. rewrite eqb_approved_denied in F.
  assert (Hd : String.eqb (k_decision risk) "denied" = false) by by rewrite Hk.
  rewrite Herr in Herr1.
  destruct (Qle_bool 100000 amount) eqn:Hth.
  - destruct F as (Hr & Hjm & _).
    split; [done|]. split.
    + eapply manager_timeout_fails; try done. by rewrite Hamt.
    + intros Hle.
      pose proof (manager_approval sched sched' app name ssn purpose income amount addr
                    phone yes w Hj Ha Hi Hle Hdec Happ Hcid Hyes) as A.
      cbv zeta in A. fold event in A. fold first in A. fold second in A.
      destruct A as (v2 & risk2 & Hs & Hjf2 & (mcid & d & Hjm2 & Hd2) & _ & _ & _ & _
                     & Hck2 & Hv2 & Hamt2 & Hdd2 & _ & _ & Herr2).
      split; [done|].
      eapply fraud_timeout_fails; try done.
      * by eapply manager_passed_intro.
      * by rewrite Herr2.
  - destruct F as (Hr & Hjm & Hjf & _).
    split; [done|]. split.
    + eapply fraud_timeout_fails; try done.
      apply manager_passed_skip. by rewrite Hamt.
    + intros Hle. apply Qle_bool_true in Hle. congruence.
Qed.

(** X3: the first invocation of an approved application with positive
    amount and income suspends: at the manager approval when the amount is
    at least 100000, and otherwise at the fraud check, with no
    manager-approval callback ever created; in that case, once the
    fraud-check Lambda has handled the request it was sent, the next
    invocation ends approved with an offer id in the result it returns and
    stores. *)
Theorem manager_approval_only_from_threshold `{Oracles} sched sched' app name ssn purpose
    income amount addr phone w :
  journal w = empty_journal → (0 < amount)%Q → (0 < income)%Q →
  get_scenario_decision ssn amount = "approved" →
  let event := loan_event app name ssn purpose income amount addr phone in
  let first := lambda_handler sched event w in
  first.1 = Suspend
  ∧ if Qle_bool 100000 amount then
      j_manager (journal first.2) = Some (CbPending (new_callback_id "manager-approval"))
      ∧ j_fraud (journal first.2) = None
      ∧ i_status (item_at app (table first.2)) = Some "pending_approval"
      ∧ i_current_step (item_at app (table first.2)) = Some "manager_approval"
    else
      j_manager (journal first.2) = None
      ∧ j_fraud (journal first.2) = Some (CbPending (new_callback_id "fraud-check"))
      ∧ i_current_step (item_at app (table first.2)) = Some "fraud_check"
      ∧ ∃ req,
          invoked first.2 = (invoked w ++ [InvokeFraudCheck req])%list
          ∧ let cleared := fraud_check.lambda_handler req first.2 in
            let final := lambda_handler sched' event cleared.2 in
            (∃ response, cleared.1 = Ret response)
            ∧ ∃ final_result offer_id,
                final.1 = Ret final_result
                ∧ final_result !! "status" = Some (JStr "approved")
                ∧ final_result !! "offer_id" = Some (JStr offer_id)
                ∧ i_status (item_at app (table final.2)) = Some "approved"
                ∧ i_result (item_at app (table final.2)) = Some final_result
                ∧ j_manager (journal final.2) = None.
Proof.
  intros Hj Ha Hi Hdec event first.
  pose proof (first_run sched app name ssn purpose income amount addr phone w Hj Ha Hi) as F.
  cbv zeta in F. fold event in F. fold first in F.
  destruct F as (v & risk & Hck & Hv & _ & _ & Hamt & Hk & Hjo & Hjd & _ & _ & _ & F).
  rewrite Hdec in F, Hk. rewrite eqb_approved_denied in F.
  assert (Hd : String.eqb (k_decision risk) "denied" = false) by by rewrite Hk.
  destruct (Qle_bool 100000 amount) eqn:Hth.
  - destruct F as (Hr & Hjm & Hjf & _ & _ & Hst & Hcs). done.
  - destruct F as (Hr & Hjm & Hjf & Hinv & _ & Hst & Hcs).
    split; [done|]. do 3 (split; [done|]).
    exists (fraud_request v). split; [done|]. cbv zeta.
    assert (Hc : fraud_check.lambda_handler (fraud_request v) first.2
                 = (Ret (list_to_map
                      [ ("status", JStr "callback_sent");
                        ("callback_id", JStr (f_callback_id (fraud_request v)));
                        ("application_id", JStr (f_application_id (fraud_request v))) ]),
                    fraud_cleared_world (new_callback_id "fraud-check") first.2)).
    { apply fraud_callback_accepted; [by rewrite Hjm|done]. }
    rewrite Hc. cbn [fst snd]. split; [by eexists|].
    pose proof (replay_fraud_done sched' event app v risk (new_callback_id "fraud-check")
                  (json_dumps fraud_passed)
                  (fraud_cleared_world (new_callback_id "fraud-check") first.2)
                  eq_refl Hv Hck Hd) as R.
    assert (Hpass : manager_passed v
              (fraud_cleared_world (new_callback_id "fraud-check") first.2))
      by (apply manager_passed_skip; by rewrite Hamt).
    specialize (R Hpass eq_refl Hjo Hjd). cbv zeta in R.
    destruct R as (fr & oid & Hfr & Hst' & Hoid & Hist & _ & Hres & Hjm' & _).
    exists fr, oid. do 5 (split; [done|]). by rewrite Hjm'.
Qed.

(** X2: the two waits of the workflow run their submitter once.  On first
    arrival the manager-approval wait stores the callback id in the record
    of the application and invokes nothing; the fraud-check wait invokes the
    fraud-check Lambda with the callback id and leaves the table as it is;
    both suspend, and arriving again at the pending wait suspends again
    without any effect.  A wait whose callback exists already never runs
    its submitter. *)
Theorem suspension_side_effect_once `{Oracles} (v : Validated)
    (w : World) :
  let manager := wait_for_callback j_manager set_j_manager
                   (submit_manager_approval v) "manager-approval" in
  let fraud := wait_for_callback j_fraud set_j_fraud
                 (submit_fraud_check v) "fraud-check" in
  let mcid := new_callback_id "manager-approval" in
  let fcid := new_callback_id "fraud-check" in
  match j_manager (journal w) with
  | None =>
      (manager w).1 = Suspend
      ∧ j_manager (journal (manager w).2) = Some (CbPending mcid)
      ∧ token (v_application_id v) (manager w).2 = Some mcid
      ∧ invoked (manager w).2 = invoked w
      ∧ manager (manager w).2 = (Suspend, (manager w).2)
  | Some _ => (manager w).2 = w
  end
  ∧ match j_fraud (journal w) with
    | None =>
        (fraud w).1 = Suspend
        ∧ j_fraud (journal (fraud w).2) = Some (CbPending fcid)
        ∧ invoked (fraud w).2
          = (invoked w ++ [InvokeFraudCheck
               {| f_callback_id := fcid; f_application_id := v_application_id v;
                  f_applicant_name := v_applicant_name v |}])%list
        ∧ table (fraud w).2 = table w
        ∧ fraud (fraud w).2 = (Suspend, (fraud w).2)
    | Some _ => (fraud w).2 = w
    end.
Proof.
  intros manager fraud mcid fcid. split.
  - destruct (j_manager (journal w)) as [c|] eqn:Hjm.
    { subst manager. unfold wait_for_callback. rewrite Hjm. by destruct c. }
    assert (Hm : manager w
                 = (Suspend, set_journal (set_j_manager (CbPending mcid))
                               (with_token (v_application_id v) mcid w)))
      by (apply wait_fresh; [done|apply submit_manager_approval_run]).
    rewrite Hm. cbn [fst snd]. do 2 (split; [reflexivity|]).
    split; [unfold token; by rewrite table_set_journal, callback_with_token|].
    split; [reflexivity|]. by eapply wait_pending.
  - destruct (j_fraud (journal w)) as [c|] eqn:Hjf.
    { subst fraud. unfold wait_for_callback. rewrite Hjf. by destruct c. }
    assert (Hf : fraud w
                 = (Suspend, set_journal (set_j_fraud (CbPending fcid))
                               (add_invoked (InvokeFraudCheck
                                  {| f_callback_id := fcid;
                                     f_application_id := v_application_id v;
                                     f_applicant_name := v_applicant_name v |}) w)))
      by (apply wait_fresh; [done|apply submit_fraud_check_run]).
    rewrite Hf. cbn [fst snd]. do 4 (split; [reflexivity|]). by eapply wait_pending.
Qed.

(** The fraud-check suspension of a run: the callback is pending, the
    fraud-check Lambda has been sent its id, and the record stores no
    token. *)
Lemma fraud_suspension_stores_no_token :
  let r := lambda_handler (H := demo_oracles) [] (demo_event "1111" 50000) (empty_world 0) in
  r.1 = Suspend
  ∧ j_fraud (journal r.2) = Some (CbPending "cb-fraud-check")
  ∧ invoked r.2 = [InvokeFraudCheck {| f_callback_id := "cb-fraud-check";
                                       f_application_id := "LOAN-1";
                                       f_applicant_name := "Alice" |}]
  ∧ token "LOAN-1" r.2 = None.
Proof. vm_compute. done. Qed.

(** A negative loan amount passes [apply] and fails the validation step of
    the workflow it launches: the record ends [failed], whatever the
    scenario of the applicant. *)
Lemma negative_amount_fails_validation :
  let body : Dict := list_to_map [ ("name", JStr "Bob"); ("sin", JStr "2222");
                                   ("loan_amount", JNum (-5)) ] in
  let submitted := api.apply ascii_strip (λ _, None) "ABCD" no_faults body (empty_world 0) in
  let event := loan_event "LOAN-0-ABCD" "Bob" "2222" "personal_loan" 85000 (-5)
                 (Some "") (Some "") in
  let r := lambda_handler (H := demo_oracles) [] event submitted.2 in
  invoked submitted.2 = [InvokeWorkflow event]
  ∧ r.1 = Raise (ValueError "Loan amount must be positive")
  ∧ i_status (item_at "LOAN-0-ABCD" (table r.2)) = Some "failed"
  ∧ j_risk (journal r.2) = None.
Proof. vm_compute. done. Qed.

Lemma resume_consumes_token_once_witness :
  let w := (lambda_handler (H := demo_oracles) [] (demo_event "1111" 150000)
              (empty_world 0)).2 in
  let r1 := api.approve "LOAN-1" {[ "approved" := JBool true ]} w in
  let r2 := api.approve "LOAN-1" {[ "approved" := JBool true ]} r1.2 in
  token "LOAN-1" w = Some "cb-manager-approval"
  ∧ j_manager (journal w) = Some (CbPending "cb-manager-approval")
  ∧ (∃ response, r1.1 = Ret response)
  ∧ token "LOAN-1" r1.2 = None
  ∧ r2 = (Raise (BadRequestError "No pending approval for this application"), r1.2).
Proof.
  intros w r1 r2.
  assert (Htok : token "LOAN-1" w = Some "cb-manager-approval") by (vm_compute; reflexivity).
  assert (Hjm : j_manager (journal w) = Some (CbPending "cb-manager-approval"))
    by (vm_compute; reflexivity).
  do 2 (split; [assumption|]).
  destruct (resume_consumes_token_once "LOAN-1" {[ "approved" := JBool true ]}
              {[ "approved" := JBool true ]} "cb-manager-approval" w
              ltac:(discriminate) ltac:(discriminate) Htok Hjm)
    as (Hret & _ & _ & Hnone & Hagain & _).
  split; [exact Hret|]. split; [exact Hnone|exact Hagain].
Defined.

Lemma denied_at_risk_assessment_witness :
  let event := loan_event "LOAN-1" "Alice" "3333" "personal_loan" 85000 30000
                 (Some "") (Some "") in
  let r := lambda_handler (H := demo_oracles) [] event (empty_world 0) in
  let r' := lambda_handler (H := demo_oracles) [2; 1; 0] event r.2 in
  ∃ final_result,
    r.1 = Ret final_result
    ∧ final_result !! "status" = Some (JStr "denied")
    ∧ i_status (item_at "LOAN-1" (table r.2)) = Some "denied"
    ∧ i_current_step (item_at "LOAN-1" (table r.2)) = Some "risk_assessment"
    ∧ i_result (item_at "LOAN-1" (table r.2)) = Some final_result
    ∧ j_manager (journal r.2) = None ∧ j_fraud (journal r.2) = None
    ∧ j_offer (journal r.2) = None ∧ j_disburse (journal r.2) = None
    ∧ invoked r.2 = [] ∧ token "LOAN-1" r.2 = None
    ∧ r'.1 = Ret final_result
    ∧ journal r'.2 = journal r.2
    ∧ invoked r'.2 = [] ∧ token "LOAN-1" r'.2 = None.
Proof.
  apply (denied_at_risk_assessment (H := demo_oracles) [] [2; 1; 0] "LOAN-1" "Alice" "3333"
           "personal_loan" 85000 30000 (Some "") (Some "") (empty_world 0));
    [reflexivity|reflexivity|reflexivity|right; split; reflexivity].
Defined.

Lemma manager_answer_decides_witness :
  let no : Dict := <["reason" := JStr "Income not verified"]> {[ "approved" := JBool false ]} in
  let yes : Dict := {[ "approved" := JBool true ]} in
  let event := demo_event "1111" 150000 in
  let suspended := lambda_handler (H := demo_oracles) [] event (empty_world 0) in
  let denied := lambda_handler (H := demo_oracles) [] event
                  (api.approve "LOAN-1" no suspended.2).2 in
  let approved := lambda_handler (H := demo_oracles) [] event
                    (api.approve "LOAN-1" yes suspended.2).2 in
  suspended.1 = Suspend
  ∧ j_manager (journal suspended.2) = Some (CbPending "cb-manager-approval")
  ∧ (∃ final_result,
       denied.1 = Ret final_result
       ∧ final_result !! "status" = Some (JStr "denied")
       ∧ final_result !! "reason" = Some (JStr "Income not verified")
       ∧ i_status (item_at "LOAN-1" (table denied.2)) = Some "denied"
       ∧ i_result (item_at "LOAN-1" (table denied.2)) = Some final_result
       ∧ j_fraud (journal denied.2) = None)
  ∧ approved.1 = Suspend
  ∧ j_fraud (journal approved.2) = Some (CbPending "cb-fraud-check")
  ∧ i_current_step (item_at "LOAN-1" (table approved.2)) = Some "fraud_check"
  ∧ i_status (item_at "LOAN-1" (table approved.2)) = Some "processing".
Proof.
  apply (manager_answer_decides (H := demo_oracles) [] [] "LOAN-1" "Alice" "1111"
           "personal_loan" 85000 150000 (Some "") (Some "") (JStr "Income not verified")
           (<["reason" := JStr "Income not verified"]> {[ "approved" := JBool false ]})
           {[ "approved" := JBool true ]} (empty_world 0));
    first [reflexivity|discriminate].
Defined.

Lemma approval_defaults_to_denial_witness :
  let event := demo_event "1111" 150000 in
  let suspended := lambda_handler (H := demo_oracles) [] event (empty_world 0) in
  let answered := api.approve "LOAN-1" ∅ suspended.2 in
  let replayed := lambda_handler (H := demo_oracles) [] event answered.2 in
  let reason := default (JStr "Manager denied the application") ((∅ : Dict) !! "reason") in
  let payload : Dict := <["reason" := reason]> {[ "approved" := JBool false ]} in
  suspended.1 = Suspend
  ∧ resumed answered.2
    = (resumed (empty_world 0)
       ++ [(new_callback_id (Oracles := demo_oracles) "manager-approval",
            json_dumps payload)])%list
  ∧ ∃ final_result,
      replayed.1 = Ret final_result
      ∧ final_result !! "status" = Some (JStr "denied")
      ∧ final_result !! "reason" = Some reason
      ∧ i_status (item_at "LOAN-1" (table replayed.2)) = Some "denied"
      ∧ i_result (item_at "LOAN-1" (table replayed.2)) = Some final_result.
Proof.
  exact (approval_defaults_to_denial (H := demo_oracles) [] [] "LOAN-1" "Alice" "1111"
           "personal_loan" 85000 150000 (Some "") (Some "") ∅ (empty_world 0)
           eq_refl eq_refl eq_refl ltac:(discriminate) eq_refl ltac:(discriminate)
           ltac:(discriminate) eq_refl).
Defined.

Lemma callback_timeout_fails_workflow_witness :
  let event := demo_event "1111" 150000 in
  let yes : Dict := {[ "approved" := JBool true ]} in
  let first := lambda_handler (H := demo_oracles) [] event (empty_world 0) in
  let second := lambda_handler (H := demo_oracles) [] event
                  (api.approve "LOAN-1" yes first.2).2 in
  first.1 = Suspend
  ∧ timeout_fails (H := demo_oracles) [] event "LOAN-1" first.2
  ∧ ((100000 <= 150000)%Q →
     second.1 = Suspend ∧ timeout_fails (H := demo_oracles) [] event "LOAN-1" second.2).
Proof.
  apply (callback_timeout_fails_workflow (H := demo_oracles) [] [] [] "LOAN-1" "Alice" "1111"
           "personal_loan" 85000 150000 (Some "") (Some "") {[ "approved" := JBool true ]}
           (empty_world 0));
    first [reflexivity|discriminate].
Defined.

Lemma manager_approval_only_from_threshold_witness :
  let below := lambda_handler (H := demo_oracles) [] (demo_event "1111" 50000)
                 (empty_world 0) in
  let above := lambda_handler (H := demo_oracles) [] (demo_event "1111" 150000)
                 (empty_world 0) in
  (below.1 = Suspend ∧ j_manager (journal below.2) = None
   ∧ j_fraud (journal below.2) = Some (CbPending "cb-fraud-check"))
  ∧ (above.1 = Suspend
     ∧ j_manager (journal above.2) = Some (CbPending "cb-manager-approval")
     ∧ j_fraud (journal above.2) = None).
Proof.
  intros below above. split.
  - destruct (manager_approval_only_from_threshold (H := demo_oracles) [] [] "LOAN-1" "Alice"
                "1111" "personal_loan" 85000 50000 (Some "") (Some "") (empty_world 0)
                eq_refl eq_refl eq_refl eq_refl) as (Hs & Hjm & Hjf & _).
    split; [exact Hs|]. split; [exact Hjm|exact Hjf].
  - destruct (manager_approval_only_from_threshold (H := demo_oracles) [] [] "LOAN-1" "Alice"
                "1111" "personal_loan" 85000 150000 (Some "") (Some "") (empty_world 0)
                eq_refl eq_refl eq_refl eq_refl) as (Hs & Hjm & Hjf & _).
    split; [exact Hs|]. split; [exact Hjm|exact Hjf].
Defined.

(** ** The steps on their own *)

Lemma Qle_bool_false_iff (a b : Q) : Qle_bool a b = false ↔ (b < a)%Q.
Proof.
  split; [|apply Qle_bool_false].
  intros E. apply Qnot_le_lt. intros Hle. apply Qle_bool_iff in Hle. congruence.
Qed.

(** X8: the scenario decision is [denied] exactly for [ssn_last4] 2222 and
    for 3333 with a loan amount above 25000 (25000 itself is approved), and
    [approved] in every other case, unknown numbers included. *)
Theorem scenario_decision_cases ssn_last4 loan_amount :
  (get_scenario_decision ssn_last4 loan_amount = "denied"
   ↔ ssn_last4 = "2222" ∨ (ssn_last4 = "3333" ∧ (25000 < loan_amount)%Q))
  ∧ (get_scenario_decision ssn_last4 loan_amount = "approved"
     ↔ ¬ (ssn_last4 = "2222" ∨ (ssn_last4 = "3333" ∧ (25000 < loan_amount)%Q))).
Proof.
  unfold get_scenario_decision.
  destruct (String.eqb_spec ssn_last4 "1111") as [->|H1];
    [intuition (discriminate || congruence)|].
  destruct (String.eqb_spec ssn_last4 "2222") as [->|H2];
    [intuition (discriminate || congruence)|].
  destruct (String.eqb_spec ssn_last4 "3333") as [->|H3];
    [|intuition (discriminate || congruence)].
  destruct (Qle_bool loan_amount 25000) eqn:E.
  - apply Qle_bool_iff in E.
    assert (¬ (25000 < loan_amount)%Q) by by apply Qle_not_lt.
    intuition (discriminate || congruence).
  - apply Qle_bool_false_iff in E. intuition (discriminate || congruence).
Qed.

(** X9: [validate_application] returns only for an application that has
    its six required fields and a positive loan amount and income; the
    record copies the fields and is stamped with one clock reading.  Every
    failure is a [ValueError] raised before the clock is read, and the
    checks come in this order: with a field missing the error lists the
    missing fields, whatever the amounts; with none missing and a loan
    amount that is not positive it is the loan amount's; only with a
    positive loan amount is it the income's. *)
Theorem validate_application_checks `{Oracles} (application : Event) (w : World) :
  match validate_application application w with
  | (Ret v, w') =>
      missing_fields application = []
      ∧ e_application_id application = Some (v_application_id v)
      ∧ e_applicant_name application = Some (v_applicant_name v)
      ∧ e_ssn_last4 application = Some (v_ssn_last4 v)
      ∧ e_annual_income application = Some (v_annual_income v)
      ∧ e_loan_amount application = Some (v_loan_amount v)
      ∧ e_loan_purpose application = Some (v_loan_purpose v)
      ∧ (0 < v_loan_amount v)%Q ∧ (0 < v_annual_income v)%Q
      ∧ v_status v = "validated" ∧ v_validated_at v = clock w
      ∧ w' = tick w
  | (Raise e, w') =>
      w' = w
      ∧ ((missing_fields application ≠ []
          ∧ e = ValueError ("Missing required fields: "
                            ++ repr_list (missing_fields application)))
         ∨ (missing_fields application = []
            ∧ ∃ amount,
                e_loan_amount application = Some amount ∧ (amount <= 0)%Q
                ∧ e = ValueError "Loan amount must be positive")
         ∨ (missing_fields application = []
            ∧ ∃ amount income,
                e_loan_amount application = Some amount ∧ (0 < amount)%Q
                ∧ e_annual_income application = Some income ∧ (income <= 0)%Q
                ∧ e = ValueError "Annual income must be positive"))
  | (Suspend, _) => False
  end.
Proof.
  destruct application as [[app|] [name|] [ssn|] [income|] [amount|] [purpose|] addr phone];
    unfold validate_application;
    cbn [e_application_id e_applicant_name e_ssn_last4 e_annual_income e_loan_amount
         e_loan_purpose];
    try (split; [reflexivity|]; left; split; [by vm_compute|reflexivity]).
  destruct (Qle_bool amount 0) eqn:Ha.
  { apply Qle_bool_iff in Ha. split; [reflexivity|]. right. left. split; [done|]. eauto. }
  apply Qle_bool_false_iff in Ha.
  destruct (Qle_bool income 0) eqn:Hi.
  { apply Qle_bool_iff in Hi. split; [reflexivity|]. right. right.
    split; [done|]. by eexists _, _. }
  apply Qle_bool_false_iff in Hi.
  cbn. by repeat split.
Qed.

Lemma foldr_min_bounds (l : list Z) (x : Z) :
  (foldr Z.min x l <= x)%Z ∧ ∀ y, y ∈ l → (foldr Z.min x l <= y)%Z.
Proof.
  induction l as [|a l [IHx IHl]]; cbn [foldr].
  - split; [lia|]. intros y Hy. by apply elem_of_nil in Hy.
  - split; [lia|]. intros y Hy. apply elem_of_cons in Hy as [->|Hy]; [lia|].
    specialize (IHl y Hy). lia.
Qed.

Lemma foldr_max_bounds (l : list Z) (x : Z) :
  (x <= foldr Z.max x l)%Z ∧ ∀ y, y ∈ l → (y <= foldr Z.max x l)%Z.
Proof.
  induction l as [|a l [IHx IHl]]; cbn [foldr].
  - split; [lia|]. intros y Hy. by apply elem_of_nil in Hy.
  - split; [lia|]. intros y Hy. apply elem_of_cons in Hy as [->|Hy]; [lia|].
    specialize (IHl y Hy). lia.
Qed.

Lemma min_max_bounds (l : list Z) y :
  y ∈ l → (min_Z l <= y <= max_Z l)%Z.
Proof.
  destruct l as [|x l]; [by intros ?%elem_of_nil|].
  unfold min_Z, max_Z.
  destruct (foldr_min_bounds l x) as [Hx Hl], (foldr_max_bounds l x) as [Hx' Hl'].
  intros [->|Hy]%elem_of_cons; [done|]. split; [by apply Hl|by apply Hl'].
Qed.

Lemma risk_of_tier `{Oracles} reports ssn amount :
  (k_risk_tier (risk_of reports ssn amount), k_base_rate (risk_of reports ssn amount))
  ∈ risk_tiers
  ∧ (k_risk_tier (risk_of reports ssn amount) = "prime" →
     k_total_derogatory_marks (risk_of reports ssn amount) = 0%Z).
Proof.
  unfold risk_of, risk_tiers. cbn [k_risk_tier k_base_rate k_total_derogatory_marks].
  destruct (Qle_bool 740 _ && _) eqn:Hprime; cbn [fst snd].
  { split; [set_solver|]. intros _. apply andb_prop in Hprime as [_ Hz].
    by apply Z.eqb_eq in Hz. }
  repeat case_match; cbn [fst snd]; (split; [set_solver|]); done.
Qed.

(** X10: [calculate_risk_score] divides by zero on an empty list of
    reports.  Otherwise it returns without touching the world; the decision
    is the scenario decision of [ssn_last4] and [loan_amount] and owes
    nothing to the reports; tier and base rate are one of the four pairs,
    [prime] only without derogatory marks; every score lies between the
    minimum and the maximum reported. *)
Theorem calculate_risk_score_cases `{Oracles} (credit_reports : list CreditReport)
    (ssn_last4 : string) (loan_amount : Q) (w : World) :
  match credit_reports with
  | [] =>
      calculate_risk_score credit_reports ssn_last4 loan_amount w
      = (Raise (ZeroDivisionError "division by zero"), w)
  | _ =>
      ∃ risk,
        calculate_risk_score credit_reports ssn_last4 loan_amount w = (Ret risk, w)
        ∧ k_decision risk = get_scenario_decision ssn_last4 loan_amount
        ∧ (k_risk_tier risk, k_base_rate risk) ∈ risk_tiers
        ∧ (k_risk_tier risk = "prime" → k_total_derogatory_marks risk = 0%Z)
        ∧ k_total_derogatory_marks risk = sum_Z (c_derogatory_marks <$> credit_reports)
        ∧ ∀ r, r ∈ credit_reports → (k_min_score risk <= c_score r <= k_max_score risk)%Z
  end.
Proof.
  destruct credit_reports as [|r0 l]; [reflexivity|].
  exists (risk_of (r0 :: l) ssn_last4 loan_amount).
  split; [by apply calculate_risk_score_run|]. split; [reflexivity|].
  destruct (risk_of_tier (r0 :: l) ssn_last4 loan_amount) as [Htier Hprime].
  do 2 (split; [done|]). split; [reflexivity|].
  intros r Hr. unfold risk_of. cbn [k_min_score k_max_score].
  apply min_max_bounds. apply list_elem_of_fmap. by exists r.
Qed.

Lemma monthly_rate_sign (rate : Q) : Qle_bool (rate / 100 / 12) 0 = Qle_bool rate 0.
Proof.
  apply eq_true_iff_eq. rewrite !Qle_bool_iff.
  destruct rate as [n d]. unfold Qle, Qdiv, Qmult, Qinv. cbn. lia.
Qed.

(** X11: [generate_loan_offer] keeps the application id and the loan
    amount, takes the base rate as annual rate, over 60 months; the monthly
    payment is the amortised payment at a twelfth of a hundredth of the
    rate, and an even sixtieth of the amount when the rate is not positive;
    the total interest is what 60 payments exceed the amount by. *)
Theorem generate_loan_offer_payment `{Oracles} (app : Validated) (risk : Risk) (w : World) :
  ∃ offer,
    generate_loan_offer app risk w = (Ret offer, tick w)
    ∧ o_application_id offer = v_application_id app
    ∧ o_loan_amount offer = v_loan_amount app
    ∧ o_annual_rate offer = k_base_rate risk
    ∧ o_term_months offer = 60%Z
    ∧ o_generated_at offer = clock w
    ∧ let m := (k_base_rate risk / 100 / 12)%Q in
      let payment :=
        if Qle_bool (k_base_rate risk) 0 then (v_loan_amount app / 60)%Q
        else (v_loan_amount app * (m * (1 + m) ^ 60) / ((1 + m) ^ 60 - 1))%Q in
      o_monthly_payment offer = round_to 2 payment
      ∧ o_total_interest offer = round_to 2 (payment * 60 - v_loan_amount app)%Q.
Proof.
  exists (offer_of app risk (clock w)).
  split; [apply generate_loan_offer_run|]. do 5 (split; [reflexivity|]).
  unfold offer_of. cbn [o_monthly_payment o_total_interest]. cbv zeta.
  rewrite monthly_rate_sign. by destruct (Qle_bool (k_base_rate risk) 0).
Qed.

Lemma tier_rate_positive (tier : string) (rate : Q) :
  (tier, rate) ∈ risk_tiers → Qle_bool rate 0 = false.
Proof.
  unfold risk_tiers. rewrite !elem_of_cons, elem_of_nil.
  intros [E|[E|[E|[E|[]]]]]; by injection E as -> ->.
Qed.

(** X12: the offer generated from a risk record of [calculate_risk_score]
    always takes the amortised payment (its base rate is positive), and the
    disbursement of that offer carries the offer id, disburses exactly the
    validated loan amount and is stamped one clock reading after the
    offer. *)
Theorem offer_follows_risk_assessment `{Oracles} (app : Validated)
    (credit_reports : list CreditReport) (w : World) :
  credit_reports ≠ [] →
  ∃ risk offer disbursement,
    calculate_risk_score credit_reports (v_ssn_last4 app) (v_loan_amount app) w
    = (Ret risk, w)
    ∧ generate_loan_offer app risk w = (Ret offer, tick w)
    ∧ disburse_funds offer (tick w) = (Ret disbursement, tick (tick w))
    ∧ (let m := (k_base_rate risk / 100 / 12)%Q in
       o_monthly_payment offer
       = round_to 2 (v_loan_amount app * (m * (1 + m) ^ 60) / ((1 + m) ^ 60 - 1))%Q)
    ∧ o_annual_rate offer = k_base_rate risk
    ∧ d_offer_id disbursement = o_offer_id offer
    ∧ d_amount_disbursed disbursement = v_loan_amount app
    ∧ d_disbursement_ref disbursement = "DSB-" ++ last_chars 6 (o_offer_id offer)
    ∧ d_funded_at disbursement = S (o_generated_at offer).
Proof.
  intros Hne. destruct credit_reports as [|r0 l]; [done|].
  set (risk := risk_of (r0 :: l) (v_ssn_last4 app) (v_loan_amount app)).
  destruct (risk_of_tier (r0 :: l) (v_ssn_last4 app) (v_loan_amount app)) as [Htier _].
  fold risk in Htier.
  exists risk, (offer_of app risk (clock w)),
    (disbursement_of (offer_of app risk (clock w)) (clock (tick w))).
  split; [apply calculate_risk_score_run|].
  split; [apply generate_loan_offer_run|]. split; [apply disburse_funds_run|].
  split.
  { unfold offer_of. cbn [o_monthly_payment]. cbv zeta.
    by rewrite monthly_rate_sign, (tier_rate_positive _ _ Htier). }
  by repeat split.
Qed.

(** ** A sequence of log calls *)

Lemma log_calls_run app prior calls w counts :
  log_calls app prior calls {| world := w; call_counts := counts |}
  = (Ret tt, {| world := logged_all app prior counts calls w;
                call_counts := foldl (λ c s, bump s c) counts (l_step <$> calls) |}).
Proof.
  revert w counts. induction calls as [|c calls IH]; intros w counts; [reflexivity|].
  unfold log_calls. cbn [for_each fmap list_fmap foldl logged_all].
  rewrite log_bind. apply IH.
Qed.

Lemma counter_get_bump_eq k c : counter_get (bump k c) k = S (counter_get c k).
Proof. unfold counter_get, bump. by rewrite lookup_insert_eq. Qed.

(** [Counter(l)[k]] is the number of occurrences of [k] in [l]. *)
Lemma counter_of_occurrences l k : counter_get (counter_of l) k = occurrences k l.
Proof.
  unfold occurrences. induction l as [|s l IH] using rev_ind; [done|].
  rewrite counter_of_snoc, filter_app, length_app, <- IH.
  destruct (decide (s = k)) as [->|Hne].
  - rewrite counter_get_bump_eq, filter_cons_True by done. cbn. lia.
  - rewrite counter_get_bump_ne, filter_cons_False by done. cbn. lia.
Qed.

Lemma foldl_bump_counter_of seen l :
  foldl (λ c s, bump s c) (counter_of seen) l = counter_of (seen ++ l).
Proof.
  revert seen. induction l as [|s l IH]; intros seen; cbn [foldl].
  - by rewrite app_nil_r.
  - rewrite <- counter_of_snoc, IH, <- app_assoc. done.
Qed.

Lemma logged_all_frame app prior counts calls w :
  let w' := logged_all app prior counts calls w in
  clock w' = clock w + length calls
  ∧ journal w' = journal w ∧ invoked w' = invoked w ∧ resumed w' = resumed w
  ∧ i_callback_id (item_at app (table w')) = i_callback_id (item_at app (table w))
  ∧ ∀ k, k ≠ app → table w' !! k = table w !! k.
Proof.
  revert counts w. induction calls as [|c calls IH]; intros counts w; cbn [logged_all].
  - cbn. split; [lia|]. done.
  - destruct (IH (bump (l_step c) counts)
                (logged app prior counts (l_step c) (l_message c) (l_level c) (l_status c)
                   (l_result c) w)) as (Hc & Hj & Hi & Hr & Ht & Hk).
    cbv zeta. rewrite Hc, Hj, Hi, Hr, Ht, callback_logged.
    split; [cbn; lia|]. do 4 (split; [done|]).
    intros k Hne. by rewrite Hk, lookup_logged_ne.
Qed.

Lemma logs_logged_all app prior counts calls w :
  i_logs (item_at app (table (logged_all app prior counts calls w)))
  = (i_logs (item_at app (table w)) ++ marked_entries prior counts (clock w) calls)%list.
Proof.
  revert counts w. induction calls as [|c calls IH]; intros counts w;
    cbn [logged_all marked_entries].
  - by rewrite app_nil_r.
  - rewrite IH, logs_logged, <- app_assoc. reflexivity.
Qed.

Lemma marked_entries_length prior counts ts calls :
  length (marked_entries prior counts ts calls) = length calls.
Proof.
  revert counts ts. induction calls as [|c calls IH]; intros counts ts; [done|].
  cbn [marked_entries length]. by rewrite IH.
Qed.

Lemma marked_entries_lookup prior seen ts calls i :
  marked_entries prior (counter_of seen) ts calls !! i
  = (λ c, marked_entry prior (counter_of (seen ++ (l_step <$> take i calls))) (ts + i)
            (l_step c) (l_message c) (l_level c)) <$> calls !! i.
Proof.
  revert seen ts i. induction calls as [|a calls IH]; intros seen ts i; [done|].
  cbn [marked_entries]. destruct i as [|i].
  - cbn. by rewrite app_nil_r, Nat.add_0_r.
  - cbn [lookup list_lookup take fmap list_fmap].
    rewrite <- counter_of_snoc, IH, <- app_assoc. cbn [app].
    by replace (S ts + i) with (ts + S i) by lia.
Qed.

(** X13: the calls of [log] of one invocation, with the prior counts taken
    from the stored log as [lambda_handler] does: each call appends one
    entry after the stored ones, in order, one clock reading apart, and
    leaves the callback id and the other records alone; the call is marked
    [[REPLAY]] at level [replay] exactly when the number of earlier calls of
    the invocation for its step is below the number of stored entries of
    that step, and keeps its message and level otherwise. *)
Theorem log_calls_mark_replays app (calls : list LogCall) (w : World) :
  let before := i_logs (item_at app (table w)) in
  let prior_counts := counter_of (step <$> before) in
  let r := log_calls app prior_counts calls {| world := w; call_counts := ∅ |} in
  let after := i_logs (item_at app (table (world r.2))) in
  r.1 = Ret tt
  ∧ length after = length before + length calls
  ∧ take (length before) after = before
  ∧ i_callback_id (item_at app (table (world r.2))) = i_callback_id (item_at app (table w))
  ∧ (∀ k, k ≠ app → table (world r.2) !! k = table w !! k)
  ∧ ∀ i c, calls !! i = Some c →
      let earlier := occurrences (l_step c) (l_step <$> take i calls) in
      let stored := occurrences (l_step c) (step <$> before) in
      after !! (length before + i)
      = Some (if (S earlier <=? stored)%nat
              then {| timestamp := clock w + i; step := l_step c;
                      message := "[REPLAY] " ++ l_message c; level := "replay" |}
              else {| timestamp := clock w + i; step := l_step c;
                      message := l_message c; level := l_level c |}).
Proof.
  intros before prior_counts r after. subst r after.
  rewrite log_calls_run. cbn [fst snd world].
  rewrite logs_logged_all. fold before.
  destruct (logged_all_frame app prior_counts ∅ calls w) as (_ & _ & _ & _ & Htok & Hk).
  split; [done|]. split; [by rewrite length_app, marked_entries_length|].
  split; [by rewrite take_app_length|]. do 2 (split; [done|]).
  intros i c Hc.
  rewrite lookup_app_r, Nat.add_comm, Nat.add_sub by lia.
  change (∅ : Counter) with (counter_of []).
  rewrite marked_entries_lookup, Hc. cbn [fmap option_fmap option_map List.app].
  unfold marked_entry. subst prior_counts. rewrite !counter_of_occurrences.
  by case_match.
Qed.

(** ** The request steps *)

Lemma request_manager_approval_run cid app amount w :
  request_manager_approval cid app amount w
  = (Ret {| q_application_id := app; q_callback_id := cid;
            q_status := "pending_manager_approval"; q_requested_at := clock w |},
     tick (with_token app cid w)).
Proof. reflexivity. Qed.

Lemma request_fraud_check_run cid app name w :
  request_fraud_check cid app name w
  = (Ret {| q_application_id := app; q_callback_id := cid;
            q_status := "fraud_check_requested"; q_requested_at := clock w |},
     tick (add_invoked (InvokeFraudCheck
             {| f_callback_id := cid; f_application_id := app;
                f_applicant_name := name |}) w)).
Proof. reflexivity. Qed.

Lemma token_with_token app cid w : token app (with_token app cid w) = Some cid.
Proof. apply callback_with_token. Qed.

(** X14: [request_manager_approval] writes the callback id, and nothing
    else, into the record of the application (log, status and result stay,
    other records stay, nothing is invoked); [approve] then finds the id,
    has the host accept the resume and removes the id again. *)
Theorem request_then_approve (callback_id application_id : string) (loan_amount : Q)
    (body : Dict) (w : World) :
  application_id ≠ "" → callback_id ≠ "" →
  j_manager (journal w) = Some (CbPending callback_id) →
  let requested := request_manager_approval callback_id application_id loan_amount w in
  let before := item_at application_id (table w) in
  let stored := item_at application_id (table requested.2) in
  let answered := api.approve application_id body requested.2 in
  (∃ response, requested.1 = Ret response)
  ∧ i_callback_id stored = Some callback_id
  ∧ i_logs stored = i_logs before ∧ i_status stored = i_status before
  ∧ i_result stored = i_result before
  ∧ (∀ k, k ≠ application_id → table requested.2 !! k = table w !! k)
  ∧ invoked requested.2 = invoked w
  ∧ (∃ response, answered.1 = Ret response)
  ∧ resumed answered.2
    = (resumed w ++ [(callback_id, json_dumps (approve_payload body))])%list
  ∧ i_callback_id (item_at application_id (table answered.2)) = None
  ∧ i_logs (item_at application_id (table answered.2)) = i_logs before.
Proof.
  intros Happ Hcid Hjm requested before stored answered.
  subst answered stored requested before.
  rewrite request_manager_approval_run. cbn [fst snd].
  rewrite table_tick.
  split; [by eexists|]. split; [apply callback_with_token|].
  split; [apply logs_with_token|]. split; [apply status_with_token|].
  split; [apply result_with_token|].
  split; [intros k Hk; by apply lookup_with_token_ne|].
  split; [reflexivity|].
  rewrite (approve_pending application_id body callback_id) by
    first [done | apply token_with_token].
  cbn [fst snd]. split; [by eexists|]. split; [reflexivity|].
  split; [apply token_approved_world|].
  unfold approved_world, set_table. cbn [table].
  rewrite item_at_update_eq. cbn [api.remove_callback_id i_logs].
  apply logs_with_token.
Qed.

(** X15: [request_fraud_check] invokes the fraud-check Lambda with the
    callback id, the application id and the applicant's name and leaves the
    table alone; the fraud-check Lambda, handling that payload while the
    callback is pending, completes it with its [passed] result, answers
    [callback_sent] and leaves the table alone. *)
Theorem request_then_fraud_check (callback_id application_id applicant_name : string)
    (w : World) :
  j_fraud (journal w) = Some (CbPending callback_id) →
  pending_id (j_manager (journal w)) callback_id = false →
  let requested := request_fraud_check callback_id application_id applicant_name w in
  let payload := {| f_callback_id := callback_id; f_application_id := application_id;
                    f_applicant_name := applicant_name |} in
  let handled := fraud_check.lambda_handler payload requested.2 in
  (∃ response, requested.1 = Ret response)
  ∧ invoked requested.2 = (invoked w ++ [InvokeFraudCheck payload])%list
  ∧ table requested.2 = table w
  ∧ handled.1 = Ret (list_to_map [ ("status", JStr "callback_sent");
                                   ("callback_id", JStr callback_id);
                                   ("application_id", JStr application_id) ])
  ∧ j_fraud (journal handled.2)
    = Some (CbSucceeded callback_id (json_dumps fraud_passed))
  ∧ fraud_passed !! "checked_by" = Some (JStr "FraudCheckService-v2")
  ∧ resumed handled.2 = (resumed w ++ [(callback_id, json_dumps fraud_passed)])%list
  ∧ table handled.2 = table w.
Proof.
  intros Hjf Hjm requested payload handled. subst handled requested.
  rewrite request_fraud_check_run. cbn [fst snd].
  split; [by eexists|]. do 2 (split; [reflexivity|]).
  rewrite (fraud_callback_accepted payload) by done.
  cbn [fst snd]. by repeat split.
Qed.

(** ** The API Lambda *)

Lemma to_float_cases parse x w :
  (∃ q, api.to_float parse x w = (Ret q, w))
  ∨ api.to_float parse x w = (Raise (BadRequestError "loan_amount must be a number"), w).
Proof.
  unfold api.to_float. destruct x as [[]|]; eauto.
  destruct (parse s); eauto.
Qed.

Lemma get_stripped_cases strip body key w :
  (∃ s, api.get_stripped strip body key w = (Ret s, w))
  ∨ (∃ e, api.get_stripped strip body key w = (Raise e, w)).
Proof.
  unfold api.get_stripped. destruct (body !! key) as [[]|]; eauto.
Qed.

(** [apply] refuses the body before any call to AWS, whatever the faults,
    or accepts it; then a failing [put_item] leaves table and invocations
    as they are, a failing [invoke] leaves the record put and nothing
    launched, and without a fault the workflow is launched. *)
Lemma apply_outcomes strip parse random_suffix (body : Dict) (w : World) :
  (∃ e, ∀ faults, api.apply strip parse random_suffix faults body w = (Raise e, w))
  ∨ (∃ name sin address phone loan_amount,
       let application_id := "LOAN-" ++ pretty (clock w) ++ "-" ++ random_suffix in
       let put := put_world application_id name loan_amount w in
       name ≠ "" ∧ sin ≠ ""
       ∧ ∀ faults,
           api.apply strip parse random_suffix faults body w
           = match put_item_error faults, invoke_error faults with
             | Some e, _ => (Raise e, tick (tick w))
             | None, Some e => (Raise e, put)
             | None, None =>
                 (Ret {[ "application_id" := JStr application_id ]},
                  add_invoked (InvokeWorkflow
                    (loan_event application_id name sin "personal_loan" 85000 loan_amount
                       (Some address) (Some phone))) put)
             end).
Proof.
  unfold api.apply, mbind, M_bind, bind.
  destruct (get_stripped_cases strip body "name" w) as [[name ->] | [e ->]]; [|eauto].
  destruct (get_stripped_cases strip body "address" w) as [[address ->] | [e ->]]; [|eauto].
  destruct (get_stripped_cases strip body "phone" w) as [[phone ->] | [e ->]]; [|eauto].
  destruct (get_stripped_cases strip body "sin" w) as [[sin ->] | [e ->]]; [|eauto].
  destruct (String.eqb_spec name "") as [->|Hname]; [eauto|].
  destruct (String.eqb_spec sin "") as [->|Hsin]; [eauto|].
  cbn [negb andb].
  destruct (from_option truthy false (body !! "loan_amount")); [|eauto].
  cbn [negb].
  destruct (to_float_cases parse (body !! "loan_amount") w) as [[q ->] | ->]; [|eauto].
  right. exists name, sin, address, phone, q. cbv zeta. do 2 (split; [done|]).
  intros [[e|] [e'|]]; reflexivity.
Qed.

Lemma table_put_world id name amount w :
  table (put_world id name amount w) = <[id := submitted_item name amount (S (clock w))]> (table w).
Proof. reflexivity. Qed.

Lemma status_found id item w :
  id ≠ "" → table w !! id = Some item → api.status id w = (Ret item, w).
Proof.
  intros Hid Hitem. apply String.eqb_neq in Hid.
  unfold api.status, mbind, M_bind, bind, gets, get_item. by rewrite Hid, Hitem.
Qed.

Lemma approve_no_token id body item w :
  id ≠ "" → table w !! id = Some item → i_callback_id item = None →
  api.approve id body w
  = (Raise (BadRequestError "No pending approval for this application"), w).
Proof.
  intros Hid Hitem Hcb. apply String.eqb_neq in Hid.
  unfold api.approve, mbind, M_bind, bind, gets, get_item. by rewrite Hid, Hitem, Hcb.
Qed.

Lemma loan_id_nonempty seconds suffix : "LOAN-" ++ seconds ++ "-" ++ suffix ≠ "".
Proof. done. Qed.

(** X16: [apply] puts the record, then launches the workflow, and is not
    atomic.  Without a fault: when it returns, the id it answers is
    [LOAN-<seconds>-<suffix>], [status] serves the record just put (status
    and step [submitted], one log entry, no result, no callback id), the
    other records are as before, one workflow invocation has been issued
    for that id with the applicant's name and amount, an income of 85000
    and the purpose [personal_loan], and a post to [approve] for the id is
    refused for want of a pending approval.  On the same body a failing
    [put_item] raises with table and invocations as they were, and a
    failing [invoke] raises with the record put all the same and nothing
    launched.  A body that [apply] refuses is refused before any call to
    AWS, whatever the faults, the world as it was. *)
Theorem apply_record_then_launch strip parse random_suffix (body body' : Dict)
    (w : World) :
  let application_id := "LOAN-" ++ pretty (clock w) ++ "-" ++ random_suffix in
  match api.apply strip parse random_suffix no_faults body w with
  | (Ret response, w') =>
      ∃ item event,
        response = {[ "application_id" := JStr application_id ]}
        ∧ api.status application_id w' = (Ret item, w')
        ∧ i_status item = Some "submitted" ∧ i_current_step item = Some "submitted"
        ∧ i_logs item = [ {| timestamp := S (clock w); step := "submitted";
                             message := "Application received"; level := "info" |} ]
        ∧ i_result item = None ∧ i_callback_id item = None
        ∧ (∀ k, k ≠ application_id → table w' !! k = table w !! k)
        ∧ invoked w' = (invoked w ++ [InvokeWorkflow event])%list
        ∧ e_application_id event = Some application_id
        ∧ e_applicant_name event = i_applicant_name item
        ∧ e_loan_amount event = i_loan_amount item
        ∧ e_annual_income event = Some 85000%Q
        ∧ e_loan_purpose event = Some "personal_loan"
        ∧ api.approve application_id body' w'
          = (Raise (BadRequestError "No pending approval for this application"), w')
        ∧ (∀ e invoke_error,
             let failed :=
               api.apply strip parse random_suffix
                 {| put_item_error := Some e; invoke_error := invoke_error |} body w in
             failed.1 = Raise e ∧ table failed.2 = table w
             ∧ invoked failed.2 = invoked w)
        ∧ (∀ e,
             let failed :=
               api.apply strip parse random_suffix
                 {| put_item_error := None; invoke_error := Some e |} body w in
             failed.1 = Raise e
             ∧ api.status application_id failed.2 = (Ret item, failed.2)
             ∧ table failed.2 = table w'
             ∧ invoked failed.2 = invoked w)
  | (Raise e, w') =>
      w' = w ∧ ∀ faults, api.apply strip parse random_suffix faults body w = (Raise e, w)
  | (Suspend, _) => False
  end.
Proof.
  intros id.
  destruct (apply_outcomes strip parse random_suffix body w)
    as [[e He] | (name & sin & address & phone & amount & Ho)].
  { rewrite He. split; [done|]. exact He. }
  cbv zeta in Ho. fold id in Ho. destruct Ho as (Hname & Hsin & Ho).
  rewrite (Ho no_faults). cbn [put_item_error invoke_error no_faults].
  assert (Hitem : table (put_world id name amount w) !! id
                  = Some (submitted_item name amount (S (clock w))))
    by by rewrite table_put_world, lookup_insert_eq.
  eexists _, _. split; [reflexivity|].
  split; [by apply status_found|]. do 5 (split; [reflexivity|]).
  split; [intros k Hk; rewrite table_add_invoked, table_put_world;
          by rewrite lookup_insert_ne|].
  split; [reflexivity|]. do 5 (split; [reflexivity|]).
  split; [by eapply approve_no_token|].
  split.
  - intros e ie. cbv zeta. rewrite Ho. cbn [put_item_error]. done.
  - intros e. cbv zeta. rewrite Ho. cbn [put_item_error invoke_error fst snd].
    split; [done|]. split; [by apply status_found|]. done.
Qed.

Lemma get_stripped_textual strip body key w :
  textual body key →
  api.get_stripped strip body key w = (Ret (stripped strip body key), w).
Proof.
  unfold textual, api.get_stripped, stripped. by intros [-> | [s ->]].
Qed.

(** X17: on a body whose name, address, phone and sin are strings or
    absent, [apply] answers [Missing required fields] and changes nothing
    when the name or the sin is empty once stripped ([strip] being
    [str.strip], whatever it takes for white space) or the loan amount is
    absent or falsy (zero included), and answers [loan_amount must be a
    number] and changes nothing when name and sin are there and the amount
    is a non-empty string [float] refuses. *)
Theorem apply_rejections strip parse random_suffix faults (body : Dict) (w : World) :
  textual body "name" → textual body "address" → textual body "phone" →
  textual body "sin" →
  (stripped strip body "name" = "" ∨ stripped strip body "sin" = ""
   ∨ from_option truthy false (body !! "loan_amount") = false →
   api.apply strip parse random_suffix faults body w
   = (Raise (BadRequestError "Missing required fields: name, sin, loan_amount"), w))
  ∧ (stripped strip body "name" ≠ "" → stripped strip body "sin" ≠ "" →
     ∀ s, body !! "loan_amount" = Some (JStr s) → s ≠ "" → parse s = None →
     api.apply strip parse random_suffix faults body w
     = (Raise (BadRequestError "loan_amount must be a number"), w)).
Proof.
  intros Hname Haddress Hphone Hsin.
  unfold api.apply, mbind, M_bind, bind.
  rewrite !get_stripped_textual by done. split.
  - intros [-> | [-> | ->]]; [done| |].
    + by rewrite andb_false_r.
    + by rewrite andb_false_r.
  - intros Hn Hs s Hamount Hne Hparse.
    apply String.eqb_neq in Hn, Hs, Hne. rewrite Hn, Hs, Hamount.
    cbn [negb andb from_option truthy]. rewrite Hne. cbn [negb].
    unfold api.to_float. by rewrite Hparse.
Qed.

Lemma apply_rejections_witness :
  let body : Dict := list_to_map [ ("name", JStr "   "); ("sin", JStr "1111");
                                   ("loan_amount", JNum 50000) ] in
  let zero : Dict := list_to_map [ ("name", JStr "Alice"); ("sin", JStr "1111");
                                   ("loan_amount", JNum 0) ] in
  api.apply ascii_strip (λ _, None) "ABCD" no_faults body (empty_world 0)
  = (Raise (BadRequestError "Missing required fields: name, sin, loan_amount"),
     empty_world 0)
  ∧ api.apply ascii_strip (λ _, None) "ABCD" no_faults zero (empty_world 0)
    = (Raise (BadRequestError "Missing required fields: name, sin, loan_amount"),
       empty_world 0).
Proof.
  intros body zero. split.
  - apply (apply_rejections ascii_strip (λ _, None) "ABCD" no_faults body (empty_world 0));
      [by right; exists "   "|by left|by left|by right; exists "1111"|by left].
  - apply (apply_rejections ascii_strip (λ _, None) "ABCD" no_faults zero (empty_world 0));
      [by right; exists "Alice"|by left|by left|by right; exists "1111"
      |by right; right].
Defined.

(** X18: the event [apply] launches has every field the validation asks
    for and an income of 85000: [validate_application] accepts it exactly
    when the loan amount is positive and otherwise raises ["Loan amount
    must be positive"], never a missing field or the income error. *)
Theorem applied_event_validates `{Oracles} strip parse random_suffix faults (body : Dict)
    (w w0 : World) :
  match api.apply strip parse random_suffix faults body w with
  | (Ret _, w') =>
      ∃ event amount,
        last (invoked w') = Some (InvokeWorkflow event)
        ∧ e_loan_amount event = Some amount
        ∧ match validate_application event w0 with
          | (Ret v, _) =>
              (0 < amount)%Q ∧ v_loan_amount v = amount
              ∧ v_annual_income v = 85000%Q ∧ v_loan_purpose v = "personal_loan"
              ∧ e_application_id event = Some (v_application_id v)
          | (Raise e, _) =>
              (amount <= 0)%Q ∧ e = ValueError "Loan amount must be positive"
          | (Suspend, _) => False
          end
  | _ => True
  end.
Proof.
  destruct (apply_outcomes strip parse random_suffix body w)
    as [[e He] | (name & sin & address & phone & amount & Ho)].
  { by rewrite He. }
  cbv zeta in Ho. destruct Ho as (_ & _ & Ho). rewrite Ho.
  destruct (put_item_error faults) as [e|]; [done|].
  destruct (invoke_error faults) as [e|]; [done|].
  eexists _, amount. split; [cbn [invoked add_invoked]; by rewrite last_snoc|].
  split; [reflexivity|].
  unfold validate_application, loan_event.
  cbn [e_application_id e_applicant_name e_ssn_last4 e_annual_income e_loan_amount
       e_loan_purpose].
  destruct (Qle_bool amount 0) eqn:Ha.
  - apply Qle_bool_iff in Ha. done.
  - apply Qle_bool_false_iff in Ha.
    change (Qle_bool 85000 0) with false. cbn. done.
Qed.

(** X19: the refusals of [approve], none of which changes anything: an
    empty id is a [BadRequestError], an unknown id a [NotFoundError], a
    record without a callback id (or with an empty one) a
    [BadRequestError]; and when the host refuses the stored id as not
    pending, the error is the host's and the id stays in the record. *)
Theorem approve_error_kinds (applicationId : string) (body : Dict) (w : World) :
  (applicationId = "" →
   api.approve applicationId body w
   = (Raise (BadRequestError "Missing applicationId"), w))
  ∧ (applicationId ≠ "" → table w !! applicationId = None →
     api.approve applicationId body w
     = (Raise (NotFoundError "Application not found"), w))
  ∧ (applicationId ≠ "" → is_Some (table w !! applicationId) →
     token applicationId w = None ∨ token applicationId w = Some "" →
     api.approve applicationId body w
     = (Raise (BadRequestError "No pending approval for this application"), w))
  ∧ (applicationId ≠ "" →
     ∀ callback_id, token applicationId w = Some callback_id → callback_id ≠ "" →
     pending_id (j_manager (journal w)) callback_id = false →
     pending_id (j_fraud (journal w)) callback_id = false →
     api.approve applicationId body w
     = (Raise (ClientError "Callback is not pending"), w)).
Proof.
  unfold api.approve, token, item_at, mbind, M_bind, bind, gets, get_item.
  split; [by intros ->|].
  split; [intros Hid%String.eqb_neq Hnone; by rewrite Hid, Hnone|].
  split.
  - intros Hid%String.eqb_neq [item Hitem] Htok. rewrite Hid, Hitem in *.
    cbn [default from_option id] in Htok. by destruct Htok as [-> | ->].
  - intros Hid%String.eqb_neq cid Htok Hcid Hm Hf. rewrite Hid.
    destruct (table w !! applicationId) as [item|]; [|done].
    cbn [default from_option id] in Htok. rewrite Htok.
    destruct cid as [|a cid]; [done|].
    unfold send_durable_execution_callback_success. by rewrite Hm, Hf.
Qed.

(** X20: the fraud-check Lambda, handling a request whose callback is the
    pending fraud check, sends its result once: the host records the
    resume and the result, table and invocations stay as they are, and
    handling the same request again raises the host's error and changes
    nothing. *)
Theorem fraud_check_sends_once (event : FraudRequest) (w : World) :
  j_fraud (journal w) = Some (CbPending (f_callback_id event)) →
  pending_id (j_manager (journal w)) (f_callback_id event) = false →
  let first := fraud_check.lambda_handler event w in
  let second := fraud_check.lambda_handler event first.2 in
  first.1 = Ret (list_to_map [ ("status", JStr "callback_sent");
                               ("callback_id", JStr (f_callback_id event));
                               ("application_id", JStr (f_application_id event)) ])
  ∧ resumed first.2
    = (resumed w ++ [(f_callback_id event, json_dumps fraud_passed)])%list
  ∧ j_fraud (journal first.2)
    = Some (CbSucceeded (f_callback_id event) (json_dumps fraud_passed))
  ∧ table first.2 = table w ∧ invoked first.2 = invoked w
  ∧ second = (Raise (ClientError "Callback is not pending"), first.2).
Proof.
  intros Hjf Hjm first second. subst second first.
  rewrite (fraud_callback_accepted event w) by done. cbn [fst snd].
  do 5 (split; [reflexivity|]).
  unfold fraud_check.lambda_handler, mbind, M_bind, bind.
  unfold send_durable_execution_callback_success.
  cbn [journal add_resumed set_journal set_j_fraud j_manager j_fraud pending_id].
  by rewrite Hjm.
Qed.

Lemma fraud_check_sends_once_witness :
  let w := (lambda_handler (H := demo_oracles) [] (demo_event "1111" 50000)
              (empty_world 0)).2 in
  let event := {| f_callback_id := "cb-fraud-check"; f_application_id := "LOAN-1";
                  f_applicant_name := "Alice" |} in
  let first := fraud_check.lambda_handler event w in
  resumed first.2 = (resumed w ++ [("cb-fraud-check", json_dumps fraud_passed)])%list
  ∧ fraud_check.lambda_handler event first.2
    = (Raise (ClientError "Callback is not pending"), first.2).
Proof.
  intros w event first.
  assert (Hjf : j_fraud (journal w) = Some (CbPending (f_callback_id event)))
    by (vm_compute; reflexivity).
  assert (Hjm : pending_id (j_manager (journal w)) (f_callback_id event) = false)
    by (vm_compute; reflexivity).
  destruct (fraud_check_sends_once event w Hjf Hjm) as (_ & Hres & _ & _ & _ & Hsecond).
  split; [exact Hres|exact Hsecond].
Defined.

(** ** A workflow that fails its validation *)

Lemma validate_failure_any_world `{Oracles} event w w' e :
  (validate_application event w).1 = Raise e →
  validate_application event w' = (Raise e, w').
Proof.
  destruct event as [[app|] [name|] [ssn|] [income|] [amount|] [purpose|] addr phone];
    unfold validate_application;
    cbn [e_application_id e_applicant_name e_ssn_last4 e_annual_income e_loan_amount
         e_loan_purpose];
    try (unfold raise at 1; cbn [fst]; intros [= <-]; reflexivity).
  destruct (Qle_bool amount 0); [unfold raise at 1; cbn [fst]; intros [= <-]; reflexivity|].
  destruct (Qle_bool income 0); [unfold raise at 1; cbn [fst]; intros [= <-]; reflexivity|].
  cbn. done.
Qed.

(** X21: an application that fails its validation fails the workflow on a
    fresh execution: the handler re-raises the error, having appended two
    log entries, the last at step and level [error] with the error's text,
    and set the status [failed]; the failure is what the journal keeps for
    the validation step; no bureau is asked, no callback created, no Lambda
    invoked, no token stored. *)
Theorem invalid_application_fails `{Oracles} sched (event : Event) app (e : Exn)
    (w : World) :
  e_application_id event = Some app →
  journal w = empty_journal →
  (validate_application event w).1 = Raise e →
  logged_count "error" app w = 0 →
  let r := lambda_handler sched event w in
  r.1 = Raise e
  ∧ i_status (item_at app (table r.2)) = Some "failed"
  ∧ i_current_step (item_at app (table r.2)) = Some "error"
  ∧ (∃ ts, last (i_logs (item_at app (table r.2)))
           = Some {| timestamp := ts; step := "error";
                     message := "Workflow error: " ++ exn_str e; level := "error" |})
  ∧ length (i_logs (item_at app (table r.2))) = length (i_logs (item_at app (table w))) + 2
  ∧ j_validate (journal r.2) = Some (inl e)
  ∧ j_credit (journal r.2) = ∅ ∧ j_risk (journal r.2) = None
  ∧ j_manager (journal r.2) = None ∧ j_fraud (journal r.2) = None
  ∧ invoked r.2 = invoked w ∧ token app r.2 = token app w
  ∧ (∀ k, k ≠ app → table r.2 !! k = table w !! k).
Proof.
  intros Happ Hj Hval Herr r. subst r.
  destruct w as [t c inv res j]. cbn in Hj. subst j.
  start_run E app. exec_in E.
  erewrite liftW_bind_raise in E
    by (eapply durable_step_fresh_raise;
        [reflexivity|by eapply validate_failure_any_world]).
  exec_in E. injection E as <- <-.
  split; [reflexivity|]. do 2 (split; [solve_read|]).
  split; [error_entry Herr|].
  split; [cbn [fst snd];
          rewrite logs_logged, table_set_journal, logs_logged, !length_app; cbn; lia|].
  do 6 (split; [reflexivity|]).
  split; [solve_read|other_keys].
Qed.

Lemma invalid_application_fails_witness :
  let event := demo_event "2222" (-5) in
  let r := lambda_handler (H := demo_oracles) [] event (empty_world 0) in
  r.1 = Raise (ValueError "Loan amount must be positive")
  ∧ i_status (item_at "LOAN-1" (table r.2)) = Some "failed"
  ∧ j_validate (journal r.2) = Some (inl (ValueError "Loan amount must be positive")).
Proof.
  intros event r.
  destruct (invalid_application_fails (H := demo_oracles) [] event "LOAN-1"
              (ValueError "Loan amount must be positive") (empty_world 0)
              eq_refl eq_refl eq_refl eq_refl)
    as (Hr & Hst & _ & _ & _ & Hjv & _).
  split; [exact Hr|]. split; [exact Hst|exact Hjv].
Defined.

(** ** The manager's answer, whatever its type *)

(** X22: the Python truth value of the [approved] field decides, whatever
    its type: [approve] passes the value on as it is, with a reason only
    when it is falsy; replayed on a truthy value (a non-empty string, a
    non-zero number) the workflow goes on to the fraud check, on a falsy or
    absent one it ends denied with the reason of the body or the default
    one. *)
Theorem truth_value_of_answer_decides `{Oracles} sched sched' app name ssn purpose
    income amount addr phone (body : Dict) w :
  journal w = empty_journal → (0 < amount)%Q → (0 < income)%Q →
  (100000 <= amount)%Q →
  get_scenario_decision ssn amount = "approved" →
  app ≠ "" → new_callback_id "manager-approval" ≠ "" →
  let event := loan_event app name ssn purpose income amount addr phone in
  let suspended := lambda_handler sched event w in
  let answered := api.approve app body suspended.2 in
  let replayed := lambda_handler sched' event answered.2 in
  let approved := default (JBool false) (body !! "approved") in
  answered.1 = Ret (list_to_map [ ("status", JStr "approval_sent");
                                  ("approved", approved) ])
  ∧ j_manager (journal answered.2)
    = Some (CbSucceeded (new_callback_id "manager-approval")
              (json_dumps (approve_payload body)))
  ∧ approve_payload body !! "approved" = Some approved
  ∧ if truthy approved then
      approve_payload body !! "reason" = None
      ∧ replayed.1 = Suspend
      ∧ j_fraud (journal replayed.2) = Some (CbPending (new_callback_id "fraud-check"))
      ∧ i_status (item_at app (table replayed.2)) = Some "processing"
    else
      ∃ final_result,
        replayed.1 = Ret final_result
        ∧ final_result !! "status" = Some (JStr "denied")
        ∧ final_result !! "reason"
          = Some (default (JStr "Manager denied the application") (body !! "reason"))
        ∧ i_status (item_at app (table replayed.2)) = Some "denied"
        ∧ j_fraud (journal replayed.2) = None.
Proof.
  intros Hj Ha Hi Hth Hdec Happ Hcid event suspended answered replayed approved.
  pose proof (manager_round sched app name ssn purpose income amount addr phone body w
                Hj Ha Hi Hth Hdec Happ Hcid) as F.
  cbv zeta in F. fold event in F. fold suspended in F.
  destruct F as (v & risk & _ & _ & _ & _ & _ & _ & _ & _ & _ & _ & _ & _ & _ & _ & Hr2).
  fold answered in Hr2. fold approved in Hr2.
  split; [by rewrite Hr2|]. split; [by rewrite Hr2|].
  assert (Htg : truthy_get body "approved" = truthy approved).
  { unfold truthy_get, approved. by destruct (body !! "approved"). }
  destruct (truthy approved) eqn:Hyes.
  - split; [unfold approve_payload; fold approved; rewrite Hyes; cbn [negb];
            by rewrite lookup_singleton_eq|].
    split; [unfold approve_payload; fold approved; rewrite Hyes; cbn [negb];
            by rewrite lookup_singleton_ne|].
    pose proof (manager_approval sched sched' app name ssn purpose income amount addr phone
                  body w Hj Ha Hi Hth Hdec Happ Hcid Htg) as A.
    cbv zeta in A. fold event in A. fold suspended in A. fold answered in A.
    fold replayed in A.
    destruct A as (v2 & risk2 & Hs & Hjf & _ & _ & Hst & _). done.
  - split; [unfold approve_payload; fold approved; rewrite Hyes; cbn [negb];
            rewrite lookup_insert_ne by done; by rewrite lookup_singleton_eq|].
    pose proof (manager_denial sched sched' app name ssn purpose income amount addr phone
                  body w Hj Ha Hi Hth Hdec Happ Hcid Htg) as D.
    cbv zeta in D. fold event in D. fold suspended in D. fold answered in D.
    fold replayed in D.
    destruct D as (_ & _ & _ & fr & Hr & Hst & Hreason & Hist & _ & Hjf & _).
    by exists fr.
Qed.

Lemma truth_value_of_answer_decides_witness :
  let event := demo_event "1111" 150000 in
  let body : Dict := {[ "approved" := JStr "no" ]} in
  let suspended := lambda_handler (H := demo_oracles) [] event (empty_world 0) in
  let answered := api.approve "LOAN-1" body suspended.2 in
  let replayed := lambda_handler (H := demo_oracles) [] event answered.2 in
  replayed.1 = Suspend
  ∧ j_fraud (journal replayed.2) = Some (CbPending "cb-fraud-check").
Proof.
  intros event body suspended answered replayed.
  destruct (truth_value_of_answer_decides (H := demo_oracles) [] [] "LOAN-1" "Alice" "1111"
              "personal_loan" 85000 150000 (Some "") (Some "") body (empty_world 0)
              eq_refl eq_refl eq_refl ltac:(discriminate) eq_refl ltac:(discriminate)
              ltac:(discriminate)) as (_ & _ & _ & Hyes).
  change (truthy (default (JBool false) (body !! "approved"))) with true in Hyes.
  destruct Hyes as (_ & Hs & Hjf & _). split; [exact Hs|exact Hjf].
Defined.

(** ** What a replay adds to the log *)

Lemma level_marked_entry prior counts ts st msg lvl :
  level (marked_entry prior counts ts st msg lvl)
  = if (S (counter_get counts st) <=? counter_get prior st)%nat then "replay" else lvl.
Proof. reflexivity. Qed.

(** X23: the invocation that resumes a workflow after its fraud check
    (below the manager threshold) appends twelve log entries: the seven
    calls the suspended invocation had made come again, marked at level
    [replay], and the five calls past the suspension are logged at level
    [info]; the record ends [approved]. *)
Theorem resumed_run_marks_replayed_entries `{Oracles} sched event app v risk cid text w :
  e_application_id event = Some app → v_application_id v = app →
  checkpointed v risk w →
  String.eqb (k_decision risk) "denied" = false →
  Qle_bool 100000 (v_loan_amount v) = false →
  j_fraud (journal w) = Some (CbSucceeded cid text) →
  j_offer (journal w) = None → j_disburse (journal w) = None →
  logged_count "validating" app w = 2 → logged_count "credit_check" app w = 2 →
  logged_count "risk_assessment" app w = 2 → logged_count "fraud_check" app w = 1 →
  logged_count "generating_offer" app w = 0 → logged_count "disbursing" app w = 0 →
  logged_count "complete" app w = 0 →
  let r := lambda_handler sched event w in
  ∃ entries,
    i_logs (item_at app (table r.2)) = (i_logs (item_at app (table w)) ++ entries)%list
    ∧ step <$> entries
      = [ "validating"; "validating"; "credit_check"; "credit_check";
          "risk_assessment"; "risk_assessment"; "fraud_check"; "fraud_check";
          "generating_offer"; "generating_offer"; "disbursing"; "complete" ]
    ∧ level <$> entries
      = [ "replay"; "replay"; "replay"; "replay"; "replay"; "replay"; "replay";
          "info"; "info"; "info"; "info"; "info" ]
    ∧ i_status (item_at app (table r.2)) = Some "approved".
Proof.
  intros Happ Hv Hck Hd Hth Hjf Hjo Hjd Hc1 Hc2 Hc3 Hc4 Hc5 Hc6 Hc7 r. subst r.
  open_world event w Happ Hv Hck.
  start_run E (v_application_id v); exec_in E.
  rewrite Hd in E; exec_in E; rewrite Hth in E; exec_in E.
  injection E as <- <-. cbn [fst snd].
  unfold logged_count in Hc1, Hc2, Hc3, Hc4, Hc5, Hc6, Hc7;
  rewrite table_record in Hc1, Hc2, Hc3, Hc4, Hc5, Hc6, Hc7.
  eexists. split.
  { repeat first [ rewrite logs_logged | rewrite table_set_journal | rewrite table_tick ].
    rewrite table_record.
    rewrite <- !app_assoc. cbn [List.app]. reflexivity. }
  split; [reflexivity|].
  split.
  { cbn [fmap list_fmap]. rewrite !level_marked_entry.
    repeat first [ rewrite counter_get_bump_eq | rewrite counter_get_bump_ne by done ].
    repeat match goal with p := counter_of _ |- _ => subst p end.
    rewrite ?table_record.
    rewrite !counter_get_empty, Hc1, Hc2, Hc3, Hc4, Hc5, Hc6, Hc7. reflexivity. }
  solve_read.
Qed.

Lemma resumed_run_marks_replayed_entries_witness :
  let event := demo_event "1111" 50000 in
  let first := lambda_handler (H := demo_oracles) [] event (empty_world 0) in
  let request := {| f_callback_id := "cb-fraud-check"; f_application_id := "LOAN-1";
                    f_applicant_name := "Alice" |} in
  let w := (fraud_check.lambda_handler request first.2).2 in
  let r := lambda_handler (H := demo_oracles) [] event w in
  level <$> drop 7 (i_logs (item_at "LOAN-1" (table r.2)))
  = [ "replay"; "replay"; "replay"; "replay"; "replay"; "replay"; "replay";
      "info"; "info"; "info"; "info"; "info" ].
Proof.
  intros event first request w r.
  let jv := eval vm_compute in (j_validate (journal w)) in
  lazymatch jv with Some (inr ?x) => pose (v := x) end.
  let jr := eval vm_compute in (j_risk (journal w)) in
  lazymatch jr with Some (inr ?x) => pose (risk := x) end.
  assert (Hck : checkpointed v risk w).
  { split; [vm_compute; reflexivity|]. split; [vm_compute; reflexivity|].
    intros [|[|[|i]]] Hi; [vm_compute; by eexists..|lia]. }
  pose proof (resumed_run_marks_replayed_entries (H := demo_oracles) [] event "LOAN-1" v
                risk "cb-fraud-check" (json_dumps fraud_passed) w eq_refl eq_refl Hck)
    as T.
  do 12 (specialize (T ltac:(vm_compute; reflexivity))).
  destruct T as (entries & Hlogs & _ & Hlevels & _).
  fold r in Hlogs. rewrite Hlogs.
  replace 7 with (length (i_logs (item_at "LOAN-1" (table w)))) by (vm_compute; reflexivity).
  rewrite drop_app_length. exact Hlevels.
Defined.

Lemma offer_follows_risk_assessment_witness :
  let app := validated_of (H := demo_oracles) "LOAN-1" "Alice" "1111" "personal_loan"
               85000 50000 0 in
  let credit_reports := [report (H := demo_oracles) "equifax" "1111" 1] in
  ∃ risk offer disbursement,
    calculate_risk_score (H := demo_oracles) credit_reports "1111" 50000 (empty_world 2)
    = (Ret risk, empty_world 2)
    ∧ generate_loan_offer (H := demo_oracles) app risk (empty_world 2)
      = (Ret offer, tick (empty_world 2))
    ∧ d_offer_id disbursement = o_offer_id offer
    ∧ d_amount_disbursed disbursement = 50000%Q.
Proof.
  intros app credit_reports.
  destruct (offer_follows_risk_assessment (H := demo_oracles) app credit_reports
              (empty_world 2) ltac:(discriminate))
    as (risk & offer & disbursement & Hrisk & Hoffer & _ & _ & _ & Hid & Hamount & _).
  exists risk, offer, disbursement.
  split; [exact Hrisk|]. split; [exact Hoffer|]. split; [exact Hid|exact Hamount].
Defined.

Lemma request_then_approve_witness :
  let w := {| table := ∅; clock := 0; invoked := []; resumed := [];
              journal := set_j_manager (CbPending "cb-1") empty_journal |} in
  let requested := request_manager_approval "cb-1" "LOAN-1" 150000 w in
  let answered := api.approve "LOAN-1" {[ "approved" := JBool true ]} requested.2 in
  i_callback_id (item_at "LOAN-1" (table requested.2)) = Some "cb-1"
  ∧ (∃ response, answered.1 = Ret response)
  ∧ i_callback_id (item_at "LOAN-1" (table answered.2)) = None.
Proof.
  intros w requested answered.
  destruct (request_then_approve "cb-1" "LOAN-1" 150000 {[ "approved" := JBool true ]} w
              ltac:(discriminate) ltac:(discriminate) eq_refl)
    as (_ & Hstored & _ & _ & _ & _ & _ & Hret & _ & Hnone & _).
  split; [exact Hstored|]. split; [exact Hret|exact Hnone].
Defined.

Lemma request_then_fraud_check_witness :
  let w := {| table := ∅; clock := 0; invoked := []; resumed := [];
              journal := set_j_fraud (CbPending "cb-2") empty_journal |} in
  let requested := request_fraud_check "cb-2" "LOAN-1" "Alice" w in
  let payload := {| f_callback_id := "cb-2"; f_application_id := "LOAN-1";
                    f_applicant_name := "Alice" |} in
  let handled := fraud_check.lambda_handler payload requested.2 in
  invoked requested.2 = [InvokeFraudCheck payload]
  ∧ j_fraud (journal handled.2) = Some (CbSucceeded "cb-2" (json_dumps fraud_passed)).
Proof.
  intros w requested payload handled.
  destruct (request_then_fraud_check "cb-2" "LOAN-1" "Alice" w eq_refl eq_refl)
    as (_ & Hinv & _ & _ & Hjf & _).
  split; [exact Hinv|exact Hjf].
Defined.

(** ** Invocations that repeat the calls of an earlier one *)

Lemma occurrences_app k l l' : occurrences k (l ++ l') = occurrences k l + occurrences k l'.
Proof. unfold occurrences. by rewrite filter_app, length_app. Qed.

Lemma occurrences_cons_eq k l : occurrences k (k :: l) = S (occurrences k l).
Proof. unfold occurrences. by rewrite filter_cons_True. Qed.

Lemma marked_entries_steps prior counts ts calls :
  step <$> marked_entries prior counts ts calls = l_step <$> calls.
Proof.
  revert counts ts. induction calls as [|c calls IH]; intros counts ts; [done|].
  cbn [marked_entries fmap list_fmap]. f_equal. apply IH.
Qed.

Lemma replay_entries_lookup ts calls i :
  replay_entries ts calls !! i
  = (λ c, {| timestamp := ts + i; step := l_step c;
             message := "[REPLAY] " ++ l_message c; level := "replay" |}) <$> calls !! i.
Proof.
  revert ts i. induction calls as [|a calls IH]; intros ts i; [done|].
  destruct i as [|i]; cbn [replay_entries lookup list_lookup].
  - cbn. by rewrite Nat.add_0_r.
  - rewrite IH. by replace (S ts + i) with (ts + S i) by lia.
Qed.

Lemma replay_entries_length ts calls : length (replay_entries ts calls) = length calls.
Proof. revert ts. induction calls as [|c calls IH]; intros ts; cbn; [done|by rewrite IH]. Qed.

(** Calls whose ordinals are all covered by the prior counts are all marked. *)
Lemma marked_entries_covered prior seen ts calls :
  (∀ s, (occurrences s (seen ++ (l_step <$> calls)) <= counter_get prior s)%nat) →
  marked_entries prior (counter_of seen) ts calls = replay_entries ts calls.
Proof.
  revert seen ts. induction calls as [|c calls IH]; intros seen ts Hcov; [done|].
  cbn [marked_entries replay_entries]. f_equal.
  - unfold marked_entry. rewrite counter_of_occurrences.
    specialize (Hcov (l_step c)). cbn [fmap list_fmap] in Hcov.
    rewrite occurrences_app, occurrences_cons_eq in Hcov.
    destruct (Nat.leb_spec (S (occurrences (l_step c) seen)) (counter_get prior (l_step c)));
      [done|lia].
  - rewrite <- counter_of_snoc. apply IH. intros s.
    specialize (Hcov s). cbn [fmap list_fmap] in Hcov. by rewrite <- app_assoc.
Qed.

Lemma log_invocation_logs app calls w :
  i_logs (item_at app (table (log_invocation app calls w)))
  = (i_logs (item_at app (table w))
     ++ marked_entries (counter_of (step <$> i_logs (item_at app (table w)))) ∅
          (clock w) calls)%list.
Proof. unfold log_invocation. rewrite log_calls_run. cbn [snd world]. apply logs_logged_all. Qed.

Lemma log_invocation_clock app calls w :
  clock (log_invocation app calls w) = clock w + length calls.
Proof.
  unfold log_invocation. rewrite log_calls_run. cbn [snd world].
  apply logged_all_frame.
Qed.

Lemma log_invocation_covers app calls w : covers app calls (log_invocation app calls w).
Proof.
  intros s. rewrite log_invocation_logs, fmap_app, marked_entries_steps, occurrences_app.
  lia.
Qed.

Lemma log_invocation_covered app calls w :
  covers app calls w →
  i_logs (item_at app (table (log_invocation app calls w)))
  = (i_logs (item_at app (table w)) ++ replay_entries (clock w) calls)%list.
Proof.
  intros Hcov. rewrite log_invocation_logs. f_equal.
  change (∅ : Counter) with (counter_of []).
  apply marked_entries_covered. intros s. rewrite counter_of_occurrences. apply Hcov.
Qed.

Lemma log_invocations_state app calls n w :
  let w_n := log_invocations app calls n (log_invocation app calls w) in
  covers app calls w_n
  ∧ clock w_n = clock w + (S n) * length calls
  ∧ length (i_logs (item_at app (table w_n)))
    = length (i_logs (item_at app (table w))) + (S n) * length calls.
Proof.
  induction n as [|n (Hcov & Hclock & Hlen)]; cbn [log_invocations].
  - split; [apply log_invocation_covers|].
    rewrite log_invocation_clock, log_invocation_logs, length_app, marked_entries_length.
    lia.
  - cbv zeta. split; [apply log_invocation_covers|].
    rewrite log_invocation_clock, log_invocation_covered by done.
    rewrite length_app, replay_entries_length. cbv zeta in Hclock, Hlen. lia.
Qed.

(** C1, as amended: an invocation that makes the log calls of an earlier
    one again, its prior counts read off the stored log as [lambda_handler]
    reads them, skips none of them: every call is judged a replay and is
    appended once more, marked [[REPLAY]] at level [replay].  After a first
    invocation and [n + 1] further ones the stored log has grown by [n + 2]
    entries for every call. *)
Theorem reinvocation_appends_replay_entries app (calls : list LogCall) (n : nat)
    (w : World) :
  let first := log_invocation app calls w in
  let stored := log_invocations app calls n first in
  let again := log_invocation app calls stored in
  i_logs (item_at app (table again))
  = (i_logs (item_at app (table stored)) ++ replay_entries (clock stored) calls)%list
  ∧ length (replay_entries (clock stored) calls) = length calls
  ∧ length (i_logs (item_at app (table again)))
    = length (i_logs (item_at app (table w))) + (n + 2) * length calls
  ∧ ∀ i c, calls !! i = Some c →
      i_logs (item_at app (table again))
        !! (length (i_logs (item_at app (table w))) + (n + 1) * length calls + i)
      = Some {| timestamp := clock w + (n + 1) * length calls + i; step := l_step c;
                message := "[REPLAY] " ++ l_message c; level := "replay" |}.
Proof.
  intros first stored again.
  destruct (log_invocations_state app calls n w) as (Hcov & Hclock & Hlen).
  fold first in Hcov, Hclock, Hlen. fold stored in Hcov, Hclock, Hlen.
  assert (Hagain : i_logs (item_at app (table again))
                   = (i_logs (item_at app (table stored))
                      ++ replay_entries (clock stored) calls)%list)
    by by apply log_invocation_covered.
  split; [done|]. split; [apply replay_entries_length|].
  split; [rewrite Hagain, length_app, replay_entries_length, Hlen; lia|].
  intros i c Hc. rewrite Hagain.
  replace (length (i_logs (item_at app (table w))) + (n + 1) * length calls + i)
    with (length (i_logs (item_at app (table stored))) + i) by (rewrite Hlen; lia).
  rewrite lookup_app_r, Nat.add_comm, Nat.add_sub by lia.
  rewrite replay_entries_lookup, Hc, Hclock. cbn [fmap option_fmap option_map].
  by replace (S n) with (n + 1) by lia.
Qed.

(** C1, as stated, fails: the workflow suspends at its fraud check, the
    fraud-check Lambda answers, and the invocation that resumes the workflow
    makes the seven log calls of the first one again; each is judged a
    replay and each is appended a second time, marked. *)
Lemma resumed_invocation_duplicates_log_entries :
  let event := demo_event "1111" 50000 in
  let first := (lambda_handler (H := demo_oracles) [] event (empty_world 0)).2 in
  let request := {| f_callback_id := "cb-fraud-check"; f_application_id := "LOAN-1";
                    f_applicant_name := "Alice" |} in
  let answered := (fraud_check.lambda_handler request first).2 in
  let second := (lambda_handler (H := demo_oracles) [] event answered).2 in
  let validating w :=
    filter (λ e, step e = "validating") (i_logs (item_at "LOAN-1" (table w))) in
  invoked first = [InvokeFraudCheck request]
  ∧ (message <$> validating first, level <$> validating first)
    = ([ "Validating loan application..."; "Application validated successfully" ],
       [ "info"; "info" ])
  ∧ (message <$> validating second, level <$> validating second)
    = ([ "Validating loan application..."; "Application validated successfully";
         "[REPLAY] Validating loan application...";
         "[REPLAY] Application validated successfully" ],
       [ "info"; "info"; "replay"; "replay" ])
  ∧ length (i_logs (item_at "LOAN-1" (table first))) = 7
  ∧ length (i_logs (item_at "LOAN-1" (table second))) = 19.
Proof. vm_compute. done. Qed.

(** ** The stages after the risk assessment only append to the log *)

Lemma same_checkpoints_refl w : same_checkpoints w w.
Proof. done. Qed.

Lemma same_checkpoints_trans w1 w2 w3 :
  same_checkpoints w1 w2 → same_checkpoints w2 w3 → same_checkpoints w1 w3.
Proof. intros (? & ? & ?) (? & ? & ?). repeat split; congruence. Qed.

Lemma extends_ret app {A} (a : A) : extends_log app (mret a : M Inv A).
Proof. intros s o s' [= <- <-]. split; [exists []; by rewrite app_nil_r|done]. Qed.

Lemma extends_bind app {A B} (m : M Inv A) (k : A → M Inv B) :
  extends_log app m → (∀ a, extends_log app (k a)) → extends_log app (m ≫= k).
Proof.
  intros Hm Hk s o s'. unfold mbind, M_bind, bind.
  destruct (m s) as [[a|e|] s1] eqn:E; [|intros [= <- <-]; by eapply Hm..].
  intros Ek. destruct (Hm _ _ _ E) as [[l1 H1] C1], (Hk _ _ _ _ Ek) as [[l2 H2] C2].
  split; [exists (l1 ++ l2)%list; by rewrite H2, H1, app_assoc|].
  by eapply same_checkpoints_trans.
Qed.

Lemma extends_log_call app prior st msg status lvl res :
  extends_log app (log app prior st msg status lvl res).
Proof.
  intros [w counts] o s'. rewrite log_last. intros [= <- <-]. cbn [world].
  split; [eexists; apply logs_logged|done].
Qed.

Lemma extends_liftW app {A} (m : M World A) : keeps_log app m → extends_log app (liftW m).
Proof.
  intros Hm [w counts] o s'. unfold liftW. cbn [world call_counts].
  destruct (m w) as [o' w'] eqn:E. intros [= <- <-]. cbn [world].
  destruct (Hm _ _ _ E) as [Hl C]. split; [exists []; by rewrite app_nil_r|done].
Qed.

Lemma keeps_durable_step app {A} get set (f : M World A) :
  keeps_log app f →
  (∀ x j, j_validate (set x j) = j_validate j ∧ j_credit (set x j) = j_credit j
          ∧ j_risk (set x j) = j_risk j) →
  keeps_log app (durable_step get set f).
Proof.
  intros Hf Hset w o w'. unfold durable_step.
  destruct (get (journal w)) as [[e|a]|]; [by intros [= <- <-]..|].
  destruct (f w) as [[a|e|] w1] eqn:E; intros [= <- <-];
    destruct (Hf _ _ _ E) as [Hl (C1 & C2 & C3)]; (split; [done|]);
    try done; unfold same_checkpoints; cbn [journal set_journal];
    by destruct (Hset (inr a) (journal w1)) as (-> & -> & ->)
    || by destruct (Hset (inl e) (journal w1)) as (-> & -> & ->).
Qed.

Lemma keeps_wait `{Oracles} app get set submitter name :
  (∀ cid, keeps_log app (submitter cid)) →
  (∀ x j, j_validate (set x j) = j_validate j ∧ j_credit (set x j) = j_credit j
          ∧ j_risk (set x j) = j_risk j) →
  keeps_log app (wait_for_callback get set submitter name).
Proof.
  intros Hs Hset w o w'. unfold wait_for_callback.
  destruct (get (journal w)) as [[]|]; [by intros [= <- <-]..|].
  unfold mbind, M_bind, bind, modify, suspend.
  destruct (submitter (new_callback_id name) w) as [[[]|e|] w1] eqn:E;
    intros [= <- <-]; destruct (Hs _ _ _ _ E) as [Hl (C1 & C2 & C3)];
    (split; [done|]); try done.
  unfold same_checkpoints. cbn [journal set_journal].
  by destruct (Hset (CbPending (new_callback_id name)) (journal w1)) as (-> & -> & ->).
Qed.

Lemma logs_with_token_any app k cid w :
  i_logs (item_at app (table (with_token k cid w))) = i_logs (item_at app (table w)).
Proof.
  destruct (decide (app = k)) as [->|Hne]; [apply logs_with_token|].
  unfold item_at. by rewrite lookup_with_token_ne.
Qed.

Lemma keeps_submit_manager_approval app v cid :
  keeps_log app (submit_manager_approval v cid).
Proof.
  intros w o w'. rewrite submit_manager_approval_run. intros [= <- <-].
  split; [apply logs_with_token_any|done].
Qed.

Lemma keeps_submit_fraud_check `{Oracles} app v cid :
  keeps_log app (submit_fraud_check v cid).
Proof. intros w o w'. rewrite submit_fraud_check_run. by intros [= <- <-]. Qed.

Lemma keeps_generate_loan_offer `{Oracles} app v risk :
  keeps_log app (generate_loan_offer v risk).
Proof. intros w o w'. rewrite generate_loan_offer_run. by intros [= <- <-]. Qed.

Lemma keeps_disburse_funds app offer : keeps_log app (disburse_funds offer).
Proof. intros w o w'. rewrite disburse_funds_run. by intros [= <- <-]. Qed.

Ltac extends_steps :=
  repeat first
    [ apply extends_ret
    | apply extends_log_call
    | apply extends_bind; [|intros ?]
    | apply extends_liftW
    | apply keeps_durable_step; [|done]
    | apply keeps_wait; [intros ?|done]
    | apply keeps_submit_manager_approval
    | apply keeps_submit_fraud_check
    | apply keeps_generate_loan_offer
    | apply keeps_disburse_funds ].

Lemma offer_stage_extends `{Oracles} app prior v risk :
  extends_log app (offer_stage app prior v risk).
Proof. unfold offer_stage. extends_steps. Qed.

Lemma fraud_stage_extends `{Oracles} app prior v risk :
  extends_log app (fraud_stage app prior v risk).
Proof. unfold fraud_stage. extends_steps. Qed.

Lemma manager_stage_extends `{Oracles} app prior v risk :
  extends_log app (manager_stage app prior v risk).
Proof.
  unfold manager_stage. case_match; [|apply fraud_stage_extends].
  extends_steps. case_match; extends_steps.
Qed.

(** ** The credit reports through the handler *)

Lemma lookup_after_stored {A} (stored pre rest l : list A) i e :
  l = (stored ++ pre ++ rest)%list → pre !! i = Some e →
  l !! (length stored + i) = Some e.
Proof.
  intros -> Hi. rewrite lookup_app_r, Nat.add_comm, Nat.add_sub by lia.
  by apply lookup_app_l_Some.
Qed.

Lemma message_marked_entry prior counts ts st msg lvl :
  message (marked_entry prior counts ts st msg lvl) = msg
  ∨ message (marked_entry prior counts ts st msg lvl) = "[REPLAY] " ++ msg.
Proof. unfold marked_entry. cbn [message]. case_match; auto. Qed.

Ltac start_prefix E app :=
  destruct (lambda_handler _ _ _) as [o w'] eqn:E; cbn [fst snd];
  rewrite (lambda_handler_run _ _ app) in E by first [reflexivity|assumption];
  set (prior := counter_of _) in E;
  unfold guarded_workflow, workflow in E.

Ltac read_logs :=
  cbn [world snd];
  repeat first [ rewrite logs_logged | rewrite table_set_journal | rewrite table_tick
               | rewrite table_with_credit | rewrite table_record ];
  rewrite <- ?app_assoc; cbn [List.app].

Lemma first_invocation_credit `{Oracles} sched app name ssn purpose income amount addr phone w :
  journal w = empty_journal → (0 < amount)%Q → (0 < income)%Q →
  let r := lambda_handler sched (loan_event app name ssn purpose income amount addr phone) w in
  ∃ v t0 t1 t2 e1 e2 e3 e4 e5 e6 rest,
    let credit_reports :=
      [report "equifax" ssn t0; report "transunion" ssn t1; report "experian" ssn t2] in
    j_validate (journal r.2) = Some (inr v)
    ∧ v_ssn_last4 v = ssn
    ∧ j_credit (journal r.2) !! 0 = Some (report "equifax" ssn t0)
    ∧ j_credit (journal r.2) !! 1 = Some (report "transunion" ssn t1)
    ∧ j_credit (journal r.2) !! 2 = Some (report "experian" ssn t2)
    ∧ j_risk (journal r.2) = Some (inr (risk_of credit_reports ssn amount))
    ∧ i_logs (item_at app (table r.2))
      = (i_logs (item_at app (table w)) ++ [e1; e2; e3; e4; e5; e6] ++ rest)%list
    ∧ step e3 = "credit_check" ∧ step e4 = "credit_check"
    ∧ (message e4 = scores_message credit_reports
       ∨ message e4 = "[REPLAY] " ++ scores_message credit_reports).
Proof.
  intros Hj Ha Hi r. subst r.
  destruct w as [t c inv res j]. cbn in Hj. subst j.
  apply Qle_bool_false in Ha, Hi.
  start_prefix E app. exec_in E.
  lazymatch type of E with
  | context [(liftW (parallel ?s _) ≫= _) {| world := ?W; call_counts := _ |}] =>
      destruct (parallel_run ssn s W) as (ts & jc & r0 & r1 & r2 & P & H0 & H1 & H2 & _ & K)
  end.
  unfold branches in P. erewrite liftW_bind_ret in E by exact P. clear P.
  assert (Hok : credit_ok ssn jc).
  { apply K. intros i r Hr.
    change (j_credit (journal _)) with (∅ : gmap nat CreditReport) in Hr.
    by rewrite lookup_empty in Hr. }
  destruct (Hok 0 r0 H0) as (b0 & t0 & Hb0 & ->).
  destruct (Hok 1 r1 H1) as (b1 & t1 & Hb1 & ->).
  destruct (Hok 2 r2 H2) as (b2 & t2 & Hb2 & ->).
  cbn in Hb0, Hb1, Hb2. simplify_eq. clear K Hok.
  exec_in E.
  destruct (get_scenario_decision ssn amount =? "denied") eqn:Hd; exec_in E.
  - injection E as <- <-. eexists _, t0, t1, t2, _, _, _, _, _, _, _. cbv zeta.
    split; [reflexivity|]. split; [reflexivity|]. do 3 (split; [done|]).
    split; [reflexivity|].
    split; [read_logs; reflexivity|]. do 2 (split; [reflexivity|]).
    apply message_marked_entry.
  - destruct (manager_stage _ _ _ _ _) as [om [wm cm]] eqn:T in E.
    apply manager_stage_extends in T. cbn [world] in T.
    destruct T as [[rest Hrest] (Cv & Cc & Cr)].
    destruct om as [a|e|]; exec_in E; injection E as <- <-.
    all: eexists _, t0, t1, t2, _, _, _, _, _, _, _; cbv zeta.
    all: split; [cbn [journal logged]; rewrite Cv; reflexivity|].
    all: split; [reflexivity|].
    all: do 3 (split; [cbn [journal logged]; by rewrite Cc|]).
    all: split; [cbn [journal logged]; rewrite Cr; reflexivity|].
    all: split; [rewrite ?logs_logged, Hrest; read_logs; reflexivity|].
    all: do 2 (split; [reflexivity|]).
    all: apply message_marked_entry.
Qed.

Lemma replayed_invocation_credit `{Oracles} sched event app v risk r0 r1 r2 w :
  e_application_id event = Some app →
  j_validate (journal w) = Some (inr v) →
  j_credit (journal w) !! 0 = Some r0 → j_credit (journal w) !! 1 = Some r1 →
  j_credit (journal w) !! 2 = Some r2 →
  j_risk (journal w) = Some (inr risk) →
  (2 <= logged_count "credit_check" app w)%nat →
  let r := lambda_handler sched event w in
  same_checkpoints w r.2
  ∧ ∃ e, i_logs (item_at app (table r.2)) !! (length (i_logs (item_at app (table w))) + 3)
         = Some e
         ∧ step e = "credit_check"
         ∧ message e = "[REPLAY] " ++ scores_message [r0; r1; r2].
Proof.
  intros Happ Hjv H0 H1 H2 Hjr Hcount r. subst r.
  destruct w as [t c inv res [jv jc jr jm jf jo jd]].
  cbn [journal table j_validate j_credit j_risk] in *. subst.
  start_prefix E app. exec_in E.
  assert (Hmsg : ∀ ts lvl,
    message (marked_entry prior (bump "credit_check" (bump "validating" (bump "validating" ∅)))
               ts "credit_check" (scores_message [r0; r1; r2]) lvl)
    = "[REPLAY] " ++ scores_message [r0; r1; r2]).
  { intros ts lvl. unfold marked_entry. cbn [message].
    rewrite counter_get_bump_eq, !counter_get_bump_ne, counter_get_empty by done.
    unfold logged_count in Hcount. change (counter_of _) with prior in Hcount.
    destruct (Nat.leb_spec 2 (counter_get prior "credit_check")); [done|lia]. }
  destruct (k_decision risk =? "denied") eqn:Hd; exec_in E.
  - injection E as <- <-. split; [done|]. eexists. split.
    { eapply (lookup_after_stored _ [_; _; _; _; _; _] [_]); [|reflexivity].
      read_logs. reflexivity. }
    split; [reflexivity|]. apply Hmsg.
  - destruct (manager_stage _ _ _ _ _) as [om [wm cm]] eqn:T in E.
    apply manager_stage_extends in T. cbn [world] in T.
    destruct T as [[rest Hrest] C].
    destruct om as [a|e|]; exec_in E; injection E as <- <-.
    all: split; [exact C|].
    all: eexists; split;
      [eapply (lookup_after_stored _ [_; _; _; _; _; _]); [|reflexivity];
       rewrite ?logs_logged, Hrest; read_logs; reflexivity|].
    all: split; [reflexivity|apply Hmsg].
Qed.

Lemma occurrences_cons_ge k a l : (occurrences k l <= occurrences k (a :: l))%nat.
Proof.
  unfold occurrences. destruct (decide (a = k)) as [->|Hne].
  - rewrite filter_cons_True by done. cbn. lia.
  - by rewrite filter_cons_False.
Qed.

(** C9, through the handler: whatever order [sched] the host completes
    the three credit-bureau branches in, the first invocation checkpoints
    the reports of equifax, transunion and experian under the indices 0, 1
    and 2, hands them to the risk assessment in that order (the risk record
    checkpointed is the one [calculate_risk_score] builds from that list)
    and logs their scores in that order, in a message the pull times have
    no part in.  A replay, under any other order [sched'], leaves the
    credit and risk checkpoints as they are and logs the same scores in the
    same order, marked as a replay. *)
Theorem credit_reports_in_input_order `{Oracles} (sched sched' : list nat)
    app name ssn purpose income amount addr phone (w : World) :
  journal w = empty_journal → (0 < amount)%Q → (0 < income)%Q →
  let event := loan_event app name ssn purpose income amount addr phone in
  let r := lambda_handler sched event w in
  let r' := lambda_handler sched' event r.2 in
  ∃ t0 t1 t2,
    let credit_reports :=
      [report "equifax" ssn t0; report "transunion" ssn t1; report "experian" ssn t2] in
    c_bureau <$> credit_reports = bureaus
    ∧ scores_message credit_reports
      = "Credit scores received: "
        ++ join ", " ((λ b, b ++ "=" ++ pretty (seeded_draws (b ++ "-" ++ ssn)).1.1)
                        <$> bureaus)
    ∧ j_credit (journal r.2) !! 0 = Some (report "equifax" ssn t0)
    ∧ j_credit (journal r.2) !! 1 = Some (report "transunion" ssn t1)
    ∧ j_credit (journal r.2) !! 2 = Some (report "experian" ssn t2)
    ∧ j_risk (journal r.2) = Some (inr (risk_of credit_reports ssn amount))
    ∧ (∃ e, i_logs (item_at app (table r.2)) !! (length (i_logs (item_at app (table w))) + 3)
            = Some e
            ∧ step e = "credit_check"
            ∧ (message e = scores_message credit_reports
               ∨ message e = "[REPLAY] " ++ scores_message credit_reports))
    ∧ j_credit (journal r'.2) = j_credit (journal r.2)
    ∧ j_risk (journal r'.2) = j_risk (journal r.2)
    ∧ (∃ e, i_logs (item_at app (table r'.2))
              !! (length (i_logs (item_at app (table r.2))) + 3) = Some e
            ∧ step e = "credit_check"
            ∧ message e = "[REPLAY] " ++ scores_message credit_reports).
Proof.
  intros Hj Ha Hi event r r'.
  pose proof (first_invocation_credit sched app name ssn purpose income amount addr phone w
                Hj Ha Hi) as F.
  cbv zeta in F. fold event in F. fold r in F.
  destruct F as (v & t0 & t1 & t2 & e1 & e2 & e3 & e4 & e5 & e6 & rest & Hjv & Hssn & H0
                 & H1 & H2 & Hjr & Hlogs & Hs3 & Hs4 & Hm4).
  assert (Hcount : (2 <= logged_count "credit_check" app r.2)%nat).
  { unfold logged_count. rewrite counter_of_occurrences, Hlogs, !fmap_app, !occurrences_app.
    cbn [fmap list_fmap]. rewrite Hs3, Hs4.
    pose proof (occurrences_cons_ge "credit_check" (step e1)
                  (step e2 :: "credit_check" :: "credit_check" :: [step e5; step e6])).
    pose proof (occurrences_cons_ge "credit_check" (step e2)
                  ("credit_check" :: "credit_check" :: [step e5; step e6])).
    rewrite !occurrences_cons_eq in *. lia. }
  pose proof (replayed_invocation_credit sched' event app v _ _ _ _ r.2 eq_refl Hjv H0 H1 H2
                Hjr Hcount) as R.
  cbv zeta in R. fold r' in R. destruct R as ((_ & Cc & Cr) & e & He & Hse & Hme).
  exists t0, t1, t2. cbv zeta. do 2 (split; [reflexivity|]). do 4 (split; [done|]).
  split.
  { exists e4. split; [|done]. by eapply lookup_after_stored. }
  do 2 (split; [done|]). by exists e.
Qed.

(** An instance: the branches complete in the order experian, equifax,
    transunion, and the replay reads them back equifax first. *)
Lemma credit_reports_in_input_order_witness :
  let event := demo_event "1111" 50000 in
  let r := lambda_handler (H := demo_oracles) [2; 0; 1] event (empty_world 0) in
  let r' := lambda_handler (H := demo_oracles) [0; 1; 2] event r.2 in
  ∃ e, i_logs (item_at "LOAN-1" (table r'.2)) !! 10 = Some e
       ∧ message e
         = "[REPLAY] Credit scores received: equifax=712, transunion=715, experian=713".
Proof.
  intros event r r'.
  destruct (credit_reports_in_input_order (H := demo_oracles) [2; 0; 1] [0; 1; 2] "LOAN-1"
              "Alice" "1111" "personal_loan" 85000 50000 (Some "") (Some "") (empty_world 0)
              eq_refl eq_refl eq_refl)
    as (t0 & t1 & t2 & _ & Hscores & _ & _ & _ & _ & _ & _ & _ & e & He & _ & Hme).
  fold event in He. fold r in He. fold r' in He.
  exists e. split.
  - replace 10 with (length (i_logs (item_at "LOAN-1" (table r.2))) + 3)
      by (vm_compute; reflexivity).
    exact He.
  - rewrite Hme, Hscores. vm_compute. reflexivity.
Defined.

